(** * bs4tag.simpledoc: a shallow embedding of the document builder

    The builder of [bs4tag/simpledoc.py] keeps one mutable pointer, the
    current tag, into a tree owned by the parser library.  The embedding
    has three layers:

    - [Py]: the Python built-ins the module calls on strings
      ([str.split], [str.join], [str.replace], [re.split] for the
      newline pattern);
    - the object store: the nodes of the parser library's tree and the
      [SimpleDoc.Tag] wrapper objects, both addressed by their index in a
      list, with the document record holding the store and the current tag;
    - the methods of [SimpleDoc] as functions from a document to a document
      and an outcome, and a small command language for [with] blocks.

    Strings are sequences of characters with codes below 256, and bytes
    objects sequences of bytes below 128.  The parser library is outside
    the module: its serializer is not modelled ([getvalue] has no
    counterpart here); its parser is a parameter that tells how many
    objects a call puts at the top of the soup, or which exception it
    raises, and these objects are kept without their insides; of its
    string constructors the type check and the decoding of bytes are kept.
    Two more answers come from outside: whether the tree builder lets an
    element be empty, and the order in which a set is iterated.  [tagtext],
    [ttl] and [ttls] only hand out the methods and are left out.

    The definitions come first; the facts follow, then the statements
    about the specification's claims and further properties of the code. *)

From stdpp Require Import gmap strings list fin_maps pretty.
From Stdlib Require Import Ascii ZArith Lia.

Set Warnings "-register-all".

(** ** Python built-ins on strings *)

Module Py.

(** [s.startswith(pre)] *)
Fixpoint startswith (s pre : string) {struct pre} : bool :=
  match pre, s with
  | EmptyString, _ => true
  | String _ _, EmptyString => false
  | String a pre', String b s' => Ascii.eqb a b && startswith s' pre'
  end.

(** [sub in s] *)
Fixpoint contains (sub s : string) : bool :=
  startswith s sub ||
  match s with
  | EmptyString => false
  | String _ s' => contains sub s'
  end.

(** Put a character in front of the first piece of a split. *)
Definition cons_head (c : ascii) (ps : list string) : list string :=
  match ps with
  | p :: ps' => String c p :: ps'
  | [] => [String c EmptyString]
  end.

(** [s.split(sep)] for a non-empty [sep]: leftmost, non-overlapping
    occurrences.  [skip] counts the characters of a separator that was
    found and is still being stepped over. *)
Fixpoint split_go (sep : string) (skip : nat) (s : string) : list string :=
  match s with
  | EmptyString => [EmptyString]
  | String c s' =>
      match skip with
      | S k => split_go sep k s'
      | O =>
          if startswith s sep
          then EmptyString :: split_go sep (String.length sep - 1) s'
          else cons_head c (split_go sep 0 s')
      end
  end.

Definition split (s sep : string) : list string := split_go sep 0 s.

(** [sep.join(l)] *)
Fixpoint join (sep : string) (l : list string) : string :=
  match l with
  | [] => EmptyString
  | x :: l' =>
      match l' with
      | [] => x
      | _ :: _ => x +:+ sep +:+ join sep l'
      end
  end.

(** [''.join(l)] *)
Definition concat (l : list string) : string :=
  foldr String.append EmptyString l.

(** [str.isspace] on one character with a code below 256: the codes
    9 to 13, 28 to 32, 133 and 160. *)
Definition isspace (c : ascii) : bool :=
  let n := nat_of_ascii c in
  ((9 <=? n) && (n <=? 13)) || ((28 <=? n) && (n <=? 32))
  || (n =? 133) || (n =? 160).

Definition push_token (t : string) (ts : list string) : list string :=
  match t with
  | EmptyString => ts
  | String _ _ => t :: ts
  end.

(** The token being read at this position (empty when the position holds
    white space or the end) and the tokens after it. *)
Fixpoint split_ws_go (s : string) : string * list string :=
  match s with
  | EmptyString => (EmptyString, [])
  | String c s' =>
      let r := split_ws_go s' in
      if isspace c then (EmptyString, push_token (fst r) (snd r))
      else (String c (fst r), snd r)
  end.

(** [s.split()]: split on runs of white space, no empty tokens. *)
Definition split_ws (s : string) : list string :=
  let r := split_ws_go s in push_token (fst r) (snd r).

(** [s.replace(c, r)] for a one-character pattern [c]. *)
Fixpoint replace (c : ascii) (r : string) (s : string) : string :=
  match s with
  | EmptyString => EmptyString
  | String a s' =>
      if Ascii.eqb a c then r +:+ replace c r s'
      else String a (replace c r s')
  end.

(** [re.compile(r'\r?\n').split(s)] *)
Fixpoint newline_split (s : string) : list string :=
  match s with
  | EmptyString => [EmptyString]
  | String c s' =>
      if Ascii.eqb c "010"%char then EmptyString :: newline_split s'
      else
        match s' with
        | String c' s'' =>
            if Ascii.eqb c "013"%char && Ascii.eqb c' "010"%char
            then EmptyString :: newline_split s''
            else cons_head c (newline_split s')
        | EmptyString => cons_head c (newline_split s')
        end
  end.

End Py.

(** ** Python values, exceptions and outcomes *)

(** A byte below 128, given by its bits from the lowest. *)
Inductive ascii7 : Type :=
| Ascii7 (b0 b1 b2 b3 b4 b5 b6 : bool).

Definition ascii_of_ascii7 (c : ascii7) : ascii :=
  match c with
  | Ascii7 b0 b1 b2 b3 b4 b5 b6 => Ascii b0 b1 b2 b3 b4 b5 b6 false
  end.

(** The values the builder's methods receive.  A float is kept as its
    [repr]; the only tuples are the [(key, value)] pairs of the module's
    type comments, whose key is a [str].  [VBytes] is a [bytes] object, or
    a [bytearray] when the flag is set, all of whose bytes are below 128:
    decoding it gives the characters with the same codes. *)
Inductive value : Type :=
| VNone
| VBool (b : bool)
| VInt (z : Z)
| VFloat (repr : string)
| VStr (s : string)
| VPair (key : string) (v : value)
| VList (l : list value)
| VBytes (bytearray : bool) (b : list ascii7).

(** [LibraryError] is an exception class of the parser library, by name. *)
Inductive exn : Type :=
| AssertionError
| TypeError
| ValueError
| AttributeError
| KeyError
| IndexError
| DocumentRootError
| UserError (code : nat)
| LibraryError (name : string).

(** [isinstance(e, AttributeError)]: [DocumentRootError] derives from
    [DocError] and [AttributeError]. *)
Definition is_AttributeError (e : exn) : bool :=
  match e with
  | AttributeError | DocumentRootError => true
  | _ => false
  end.

Inductive outcome (A : Type) : Type :=
| Ok (a : A)
| Raise (e : exn).
Arguments Ok {A} a.
Arguments Raise {A} e.

Definition isinstance_tuple (v : value) : bool :=
  match v with VPair _ _ => true | _ => false end.
Definition isinstance_str (v : value) : bool :=
  match v with VStr _ => true | _ => false end.
(** [isinstance(v, (int, float))]; [bool] is a subclass of [int]. *)
Definition isinstance_number (v : value) : bool :=
  match v with VBool _ | VInt _ | VFloat _ => true | _ => false end.

(** [sys.get_int_max_str_digits()], at its default. *)
Definition int_max_str_digits : N := 4300.

(** An [int] of more decimal digits than the limit. *)
Definition int_too_long (z : Z) : bool :=
  (int_max_str_digits <? N.of_nat (String.length (pretty (Z.abs z))))%N.

(** [str(v)] of a number: an [int] of more decimal digits than the limit
    raises [ValueError]. *)
Definition str_of_number (v : value) : outcome string :=
  match v with
  | VBool true => Ok "True"
  | VBool false => Ok "False"
  | VInt z => if int_too_long z then Raise ValueError else Ok (pretty z)
  | VFloat r => Ok r
  | _ => Raise TypeError
  end.

(** [repr(v)] raises [ValueError]: an [int] over the limit of digits is
    in [v]. *)
Fixpoint repr_too_long (v : value) : bool :=
  match v with
  | VInt z => int_too_long z
  | VPair _ w => repr_too_long w
  | VList l => existsb repr_too_long l
  | _ => false
  end.

(** The error of [html_escape] and [attr_escape] on a value without
    [replace]: the message of the [TypeError] holds [repr(s)], which raises
    [ValueError] in its place when an [int] in [s] is over the limit. *)
Definition no_replace {A} (s : value) : outcome A :=
  if repr_too_long s then Raise ValueError else Raise TypeError.

(** [str(b, "utf-8")] *)
Definition decode (b : list ascii7) : string :=
  foldr (λ c s, String (ascii_of_ascii7 c) s) EmptyString b.

Definition hex_digit (n : nat) : ascii :=
  default "0"%char (String.get n "0123456789abcdef").

(** One byte in the [repr] of a [bytes] object; [escaped] is the quote
    that takes a backslash.  The character ["092"] is the backslash. *)
Definition repr_byte (escaped : ascii) (c : ascii) : string :=
  if Ascii.eqb c escaped || Ascii.eqb c "092"%char
  then String "092"%char (String c "")
  else if Ascii.eqb c "009"%char then String "092"%char "t"
  else if Ascii.eqb c "010"%char then String "092"%char "n"
  else if Ascii.eqb c "013"%char then String "092"%char "r"
  else if (nat_of_ascii c <? 32) || (126 <? nat_of_ascii c)
    then String "092"%char (String "x"%char
           (String (hex_digit (nat_of_ascii c / 16))
              (String (hex_digit (nat_of_ascii c mod 16)) "")))
  else String c "".

(** [repr(v)], and [str(v)], of a [bytes] or [bytearray] object: double
    quotes when the bytes hold a single quote and no double quote; a
    [bytearray] puts the backslash before single quotes whichever quote
    it is written between. *)
Definition repr_bytes (bytearray : bool) (b : list ascii7) : string :=
  let cs := ascii_of_ascii7 <$> b in
  let quote : ascii :=
    if existsb (Ascii.eqb "039") cs && negb (existsb (Ascii.eqb "034") cs)
    then "034"%char else "039"%char in
  let escaped : ascii := if bytearray then "039"%char else quote in
  let body :=
    String "b" (String quote
      (foldr (λ c r, repr_byte escaped c +:+ r) (String quote "") cs)) in
  if bytearray then "bytearray(" +:+ body +:+ ")" else body.

(** [lookup] in a keyword dictionary given in call order. *)
Fixpoint kw_get (key : string) (kwargs : list (string * value)) : option value :=
  match kwargs with
  | [] => None
  | (k, v) :: rest => if String.eqb k key then Some v else kw_get key rest
  end.

(** [d.update(pairs)] and [dict(pairs)]: later pairs win. *)
Definition dict_update (m : gmap string value) (pairs : list (string * value))
  : gmap string value :=
  foldl (λ acc kv, <[kv.1 := kv.2]> acc) m pairs.

(** ** Module-level helpers of simpledoc.py *)

(** [replace] with [str] arguments is a [TypeError] on [bytes] and
    [bytearray], which the handler does not catch. *)
Definition html_escape (s : value) : outcome string :=
  if isinstance_number s then str_of_number s
  else
    match s with
    | VStr t =>
        Ok (Py.replace ">" "&gt;" (Py.replace "<" "&lt;" (Py.replace "&" "&amp;" t)))
    | VBytes _ _ => Raise TypeError
    | _ => no_replace s
    end.

Definition attr_escape (s : value) : outcome string :=
  if isinstance_number s then str_of_number s
  else
    match s with
    | VStr t =>
        Ok (Py.replace "034" "&quot;" (Py.replace "<" "&lt;" (Py.replace "&" "&amp;" t)))
    | VBytes _ _ => Raise TypeError
    | _ => no_replace s
    end.

Definition ATTR_NO_VALUE : value := VNone.

(** One item of the comprehension in [dict_to_attrs]. *)
Definition attr_item (v : value) : outcome value :=
  match v with
  | VNone => Ok VNone
  | _ =>
      match attr_escape v with
      | Ok t => Ok (VStr t)
      | Raise e => Raise e
      end
  end.

Definition attr_item_opt (v : value) : option value :=
  match attr_item v with Ok w => Some w | Raise _ => None end.

(** The error of the first value [attr_escape] rejects, going through
    the dictionary in the order [keys]. *)
Fixpoint first_rejected (keys : list string) (dct : gmap string value) : option exn :=
  match keys with
  | [] => None
  | k :: rest =>
      match attr_item <$> dct !! k with
      | Some (Raise e) => Some e
      | _ => first_rejected rest dct
      end
  end.

(** [dict_to_attrs] on a dictionary whose keys were inserted in the order
    [keys], the order in which the comprehension goes through it: it raises
    at the first value [attr_escape] rejects, [TypeError] for a value of
    another type, [ValueError] when an [int] over the limit of digits is
    the value or is in it. *)
Definition dict_to_attrs (keys : list string) (dct : gmap string value)
  : outcome (gmap string value) :=
  match first_rejected keys dct with
  | Some e => Raise e
  | None => Ok (omap attr_item_opt dct)
  end.

(** The loop of [_attributes] over the positional arguments. *)
Fixpoint attribute_pairs (args : list value) : outcome (list (string * value)) :=
  match args with
  | [] => Ok []
  | arg :: rest =>
      match arg with
      | VPair k v =>
          match attribute_pairs rest with
          | Ok lst => Ok ((k, v) :: lst)
          | Raise e => Raise e
          end
      | VStr s =>
          match attribute_pairs rest with
          | Ok lst => Ok ((s, ATTR_NO_VALUE) :: lst)
          | Raise e => Raise e
          end
      | _ => Raise ValueError
      end
  end.

Definition rename_klass (kv : string * value) : string * value :=
  if String.eqb kv.1 "klass" then ("class", kv.2) else kv.

Definition _attributes (args : list value) (kwargs : list (string * value))
  : outcome (gmap string value) :=
  match attribute_pairs args with
  | Raise e => Raise e
  | Ok lst => Ok (dict_update (dict_update ∅ lst) (rename_klass <$> kwargs))
  end.

(** The keys of a dictionary in the order of their insertion, from the
    keys of the pairs it was made of and updated with: a key stays where
    it first came in. *)
Fixpoint insertion_order (keys : list string) : list string :=
  match keys with
  | [] => []
  | k :: rest => k :: filter (λ x, x ≠ k) (insertion_order rest)
  end.

(** [list(_attributes(args, kwargs))]: the keys of the dictionary, in the
    order in which it is gone through. *)
Definition attribute_keys (args : list value) (kwargs : list (string * value))
  : list string :=
  match attribute_pairs args with
  | Raise _ => []
  | Ok lst => insertion_order (lst.*1 ++ (rename_klass <$> kwargs).*1)
  end.

(** The sections [SimpleDoc.cdata] makes of the pieces of
    [strg.split("]]>")]. *)
Definition cdata_section (l i : nat) (s : string) : string :=
  if (i =? 0) && (l =? 1) then s
  else if i =? 0 then s +:+ "]]"
  else if i =? l - 1 then ">" +:+ s
  else ">" +:+ s +:+ "]]".

Definition cdata_sections (strgs : list string) : list string :=
  imap (cdata_section (length strgs)) strgs.

(** ** The object store *)

(** An element of the parser library's tree. *)
Record bs4_tag : Type := {
  name : string;
  attrs : gmap string value;
  can_be_empty_element : bool;
  contents : list nat
}.

(** The objects of the parser library.  [Parsed args kwargs i] stands for
    the [i]-th object at the top of the soup that [BeautifulSoup] makes of
    the positional arguments [args] and the keywords [kwargs], with all
    that is below it; what it is is the library's business. *)
Inductive node : Type :=
| Soup (children : list nat)
| Element (t : bs4_tag)
| NavigableString (s : string)
| CData (s : string)
| Parsed (args : list value) (kwargs : list (string * value)) (i : nat).

(** What [current_tag] and [parent_tag] point to: the [DocumentRoot]
    object of the document or a [SimpleDoc.Tag] object. *)
Inductive ref : Type :=
| DocumentRoot
| TagRef (t : nat).

(** A [SimpleDoc.Tag] object; [parent_tag] is unset until [__enter__]. *)
Record Tag : Type := {
  Tag_name : string;
  Tag_attrs : gmap string value;
  Tag_bs4_tag : nat;
  Tag_parent_tag : option ref
}.

(** A [SimpleDoc] with the objects it reaches: [nodes] holds the parser
    library's objects, the soup at index 0, and [tags] the [Tag] objects. *)
Record SimpleDoc : Type := {
  nodes : list node;
  tags : list Tag;
  current_tag : ref;
  features : value;
  _nl2br : bool
}.

Definition set_nodes (f : list node → list node) (d : SimpleDoc) : SimpleDoc :=
  {| nodes := f (nodes d); tags := tags d; current_tag := current_tag d;
     features := features d; _nl2br := _nl2br d |}.
Definition set_tags (f : list Tag → list Tag) (d : SimpleDoc) : SimpleDoc :=
  {| nodes := nodes d; tags := f (tags d); current_tag := current_tag d;
     features := features d; _nl2br := _nl2br d |}.
Definition set_current_tag (r : ref) (d : SimpleDoc) : SimpleDoc :=
  {| nodes := nodes d; tags := tags d; current_tag := r;
     features := features d; _nl2br := _nl2br d |}.

Definition set_Tag_attrs (f : gmap string value → gmap string value) (t : Tag) : Tag :=
  {| Tag_name := Tag_name t; Tag_attrs := f (Tag_attrs t);
     Tag_bs4_tag := Tag_bs4_tag t; Tag_parent_tag := Tag_parent_tag t |}.
Definition set_Tag_parent_tag (r : ref) (t : Tag) : Tag :=
  {| Tag_name := Tag_name t; Tag_attrs := Tag_attrs t;
     Tag_bs4_tag := Tag_bs4_tag t; Tag_parent_tag := Some r |}.

(** [node.append(child)] in the parser library, for a child that has no
    parent yet (every child the builder appends is newly made). *)
Definition add_child (child : nat) (n : node) : node :=
  match n with
  | Soup cs => Soup (cs ++ [child])
  | Element t =>
      Element {| name := name t; attrs := attrs t;
                 can_be_empty_element := can_be_empty_element t;
                 contents := contents t ++ [child] |}
  | _ => n
  end.

(** [node.attrs.update(new)] *)
Definition update_attrs (new : gmap string value) (n : node) : node :=
  match n with
  | Element t =>
      Element {| name := name t; attrs := new ∪ attrs t;
                 can_be_empty_element := can_be_empty_element t;
                 contents := contents t |}
  | _ => n
  end.

Definition children (n : node) : list nat :=
  match n with
  | Soup cs => cs
  | Element t => contents t
  | _ => []
  end.

(** The node behind a [ref]: the soup for the document root, the element
    of the [Tag] object otherwise. *)
Definition node_of (d : SimpleDoc) (r : ref) : option nat :=
  match r with
  | DocumentRoot => Some 0
  | TagRef t => Tag_bs4_tag <$> tags d !! t
  end.

(** Make a new object of the parser library; its index is its identity. *)
Definition alloc (n : node) (d : SimpleDoc) : nat * SimpleDoc :=
  (length (nodes d), set_nodes (λ ns, ns ++ [n]) d).

(** [r._append(child)] of [Tag] and of [DocumentRoot]. *)
Definition _append (r : ref) (child : nat) (d : SimpleDoc) : SimpleDoc :=
  match node_of d r with
  | Some p => set_nodes (alter (add_child child) p) d
  | None => d
  end.

(** The constructor of [NavigableString] and of its subclass [CData] in the
    parser library: [str.__new__(cls, value)] for a [str], and
    [str.__new__(cls, value, "utf-8")] otherwise, which decodes a [bytes]
    or [bytearray] object and raises [TypeError] for every other value. *)
Definition new_string (v : value) : outcome string :=
  match v with
  | VStr s => Ok s
  | VBytes _ b => Ok (decode b)
  | _ => Raise TypeError
  end.

(** ** The methods *)

(** A method takes the document to the document it leaves behind and
    either a result or the exception it raised. *)
Definition M (A : Type) : Type := SimpleDoc → SimpleDoc * outcome A.

Definition ret {A} (a : A) : M A := λ d, (d, Ok a).
Definition raise {A} (e : exn) : M A := λ d, (d, Raise e).
Definition bind {A B} (m : M A) (k : A → M B) : M B := λ d,
  match m d with
  | (d', Ok a) => k a d'
  | (d', Raise e) => (d', Raise e)
  end.
Definition lift {A} (o : outcome A) : M A := λ d, (d, o).
Definition modify (f : SimpleDoc → SimpleDoc) : M unit := λ d, (f d, Ok tt).

Notation "'do' x <- m ; k" := (bind m (λ x, k))
  (at level 10, x name, m at level 100, k at level 200).
Notation "m ;;; k" := (bind m (λ _, k))
  (at level 100, k at level 200, right associativity).

(** [for x in l: body(x)] *)
Fixpoint for_each {A} (l : list A) (body : A → M unit) : M unit :=
  match l with
  | [] => ret tt
  | x :: rest => body x ;;; for_each rest body
  end.

(** The commands of a build session: the calls a client makes on one
    document, with [With] for a [with doc.tag(...):] block and [RaiseUser]
    for client code that raises inside one. *)
Inductive cmd : Type :=
| Text (strgs : list value)
| Asis (strgs : list value)
| Attr (args : list value) (kwargs : list (string * value))
| Stag (tag_name : string) (args : list value) (kwargs : list (string * value))
| Cdata (strg : value) (safe : bool)
| AddClass (classes : list string)
| DiscardClass (classes : list string)
| ToggleClass (elem : string) (active : bool)
| RaiseUser (e : exn)
| With (tag_name : string) (args : list value) (kwargs : list (string * value))
       (body : list cmd).

(** A Python set with the way it was built, on which the order of its
    iteration depends: [set(l)] for a list of strings, [set(b.split())] for
    a [bytes] object, the new set [s.union(others)] or
    [s.difference(others)], and [s] after [s.add(elem)] or
    [s.discard(elem)], where the others and [elem] are strings. *)
Inductive pyset : Type :=
| SetOf (l : list string)
| SetOfBytes (b : list ascii7)
| SetUnion (s : pyset) (others : list string)
| SetDifference (s : pyset) (others : list string)
| SetAdd (s : pyset) (elem : string)
| SetDiscard (s : pyset) (elem : string).

(** The strings in the set. *)
Fixpoint members (s : pyset) : gset string :=
  match s with
  | SetOf l => list_to_set l
  | SetOfBytes _ => ∅
  | SetUnion s others => members s ∪ list_to_set others
  | SetDifference s others => members s ∖ list_to_set others
  | SetAdd s elem => members s ∪ {[elem]}
  | SetDiscard s elem => members s ∖ {[elem]}
  end.

(** [b.split() == []]: every byte is white space, one of the codes 9 to 13
    and 32. *)
Definition bytes_blank (b : list ascii7) : bool :=
  forallb (λ c, let n := nat_of_ascii (ascii_of_ascii7 c) in
                ((9 <=? n) && (n <=? 13)) || (n =? 32)) b.

(** Whether the set holds a [bytes] object: strings added or discarded do
    not change that. *)
Fixpoint bytes_members (s : pyset) : bool :=
  match s with
  | SetOf _ => false
  | SetOfBytes b => negb (bytes_blank b)
  | SetUnion s _ | SetDifference s _ | SetAdd s _ | SetDiscard s _ => bytes_members s
  end.

(** What [BeautifulSoup] makes of its positional arguments and keywords:
    the number of objects at the top of the soup, or the exception it
    raises. *)
Definition parser : Type := list value → list (string * value) → outcome nat.

Section Builder.

(** Three answers the builder takes from outside: whether the parser
    library's tree builder lets an element of a given name be empty
    ([soup.new_tag] sets [can_be_empty_element] from it); the order in
    which Python iterates over a set of strings, which depends on how the
    set was built; and what [BeautifulSoup] makes of its positional
    arguments and keywords: the number of objects at the top of the soup,
    or the exception it raises. *)
Variable builder_empty : string → bool.
Variable set_order : pyset → list string.
Variable BeautifulSoup : parser.

(** [soup.new_tag(tag_name)] *)
Definition new_tag (tag_name : string) : M nat := λ d,
  let r := alloc (Element {| name := tag_name; attrs := ∅;
                             can_be_empty_element := builder_empty tag_name;
                             contents := [] |}) d in
  (r.2, Ok r.1).

(** [SimpleDoc.Tag.__init__] *)
Definition Tag__init__ (tag_name : string) (a : gmap string value) : M nat :=
  do b <- new_tag tag_name;
  λ d, (set_tags (λ ts, ts ++ [{| Tag_name := tag_name; Tag_attrs := a;
                                  Tag_bs4_tag := b; Tag_parent_tag := None |}]) d,
        Ok (length (tags d))).

(** [SimpleDoc.tag] *)
Definition tag (tag_name : string) (args : list value)
    (kwargs : list (string * value)) : M nat :=
  do a <- lift (_attributes args kwargs);
  Tag__init__ tag_name a.

(** [SimpleDoc.Tag.__enter__] *)
Definition Tag__enter__ (self : nat) : M unit := λ d,
  match tags d !! self with
  | Some t =>
      let parent_tag := current_tag d in
      let d1 := set_tags (alter (set_Tag_parent_tag parent_tag) self) d in
      let d2 := set_current_tag (TagRef self) d1 in
      (_append parent_tag (Tag_bs4_tag t) d2, Ok tt)
  | None => (d, Raise AttributeError)
  end.

(** [SimpleDoc.Tag.__exit__(tpe, value, traceback)]; [value] is [None]
    when the block ended without an exception. *)
Definition Tag__exit__ (self : nat) (value : option exn) : M unit := λ d,
  match value with
  | None =>
      match tags d !! self with
      | Some t =>
          let d1 :=
            if bool_decide (size (Tag_attrs t) = 0) then d
            else set_nodes (alter (update_attrs (Tag_attrs t)) (Tag_bs4_tag t)) d in
          match Tag_parent_tag t with
          | Some p => (set_current_tag p d1, Ok tt)
          | None => (d1, Raise AttributeError)
          end
      | None => (d, Raise AttributeError)
      end
  | Some _ => (d, Ok tt)
  end.

(** [with mgr: body], where [__exit__] returns [None]: an exception of
    the body goes on after [__exit__] has run. *)
Definition with_block (mgr : M nat) (body : M unit) : M unit := λ d,
  match mgr d with
  | (d1, Raise e) => (d1, Raise e)
  | (d1, Ok self) =>
      match Tag__enter__ self d1 with
      | (d2, Raise e) => (d2, Raise e)
      | (d2, Ok _) =>
          match body d2 with
          | (d3, Ok _) => Tag__exit__ self None d3
          | (d3, Raise e) =>
              match Tag__exit__ self (Some e) d3 with
              | (d4, Ok _) => (d4, Raise e)
              | (d4, Raise e') => (d4, Raise e')
              end
          end
      end
  end.

(** [self.current_tag._append(n)] for a newly made object [n]. *)
Definition append_new (n : node) : M unit := λ d,
  let r := alloc n d in
  (_append (current_tag d) r.1 r.2, Ok tt).

Definition set_can_be_empty (n : node) : node :=
  match n with
  | Element t =>
      Element {| name := name t; attrs := attrs t;
                 can_be_empty_element := true; contents := contents t |}
  | _ => n
  end.

(** [SimpleDoc.stag] *)
Definition stag (tag_name : string) (args : list value)
    (kwargs : list (string * value)) : M unit :=
  do new_tag_ <- new_tag tag_name;
  (match args, kwargs with
   | [], [] => ret tt
   | _, _ =>
       do a <- lift (_attributes args kwargs);
       do a' <- lift (dict_to_attrs (attribute_keys args kwargs) a);
       modify (set_nodes (alter (update_attrs a') new_tag_))
   end) ;;;
  modify (set_nodes (alter set_can_be_empty new_tag_)) ;;;
  λ d, (_append (current_tag d) new_tag_ d, Ok tt).

(** The body of the loop of [SimpleDoc.text] for one value. *)
Definition text_one (strg : value) : M unit := λ d,
  if _nl2br d then
    match strg with
    | VStr s =>
        let strgs := Py.newline_split s in
        (for_each (removelast strgs)
           (λ s, append_new (NavigableString s) ;;; stag "br" [] []) ;;;
         match last strgs with
         | Some s => append_new (NavigableString s)
         | None => raise IndexError
         end) d
    | _ => (d, Raise TypeError)
    end
  else
    (do s <- lift (new_string strg); append_new (NavigableString s)) d.

(** [SimpleDoc.text] *)
Definition text (strgs : list value) : M unit := for_each strgs text_one.

(** [SimpleDoc.asis].  Appending a soup appends the objects at its top,
    one after the other. *)
Definition asis (strgs : list value) : M unit :=
  for_each strgs (λ strg d,
    match strg with
    | VNone => (d, Raise TypeError)
    | _ =>
        let kwargs := [("features", features d)] in
        match BeautifulSoup [strg] kwargs with
        | Ok n => for_each (seq 0 n) (λ i, append_new (Parsed [strg] kwargs i)) d
        | Raise e => (d, Raise e)
        end
    end).

(** [SimpleDoc.attr] *)
Definition attr (args : list value) (kwargs : list (string * value)) : M unit := λ d,
  match current_tag d with
  | DocumentRoot => (d, Raise DocumentRootError)
  | TagRef t =>
      match _attributes args kwargs with
      | Ok a => (set_tags (alter (set_Tag_attrs (λ old, a ∪ old)) t) d, Ok tt)
      | Raise e => (d, Raise e)
      end
  end.

(** [SimpleDoc.cdata]; [split] with a [str] argument is a [TypeError] on
    [bytes] and [bytearray], and missing on the other values. *)
Definition cdata (strg : value) (safe : bool) : M unit :=
  if safe then
    do s <- lift (new_string strg); append_new (CData s)
  else
    match strg with
    | VStr s =>
        for_each (cdata_sections (Py.split s "]]>")) (λ c, append_new (CData c))
    | VBytes _ _ => raise TypeError
    | _ => raise AttributeError
    end.

(** [SimpleDoc._get_classes].  A [bytes] class splits into [bytes], and a
    [bytearray] class into [bytearray] objects, of which no set can be
    made. *)
Definition _get_classes : M pyset := λ d,
  match current_tag d with
  | DocumentRoot => (d, Raise DocumentRootError)
  | TagRef t =>
      match Tag_attrs <$> tags d !! t with
      | Some a =>
          match a !! "class" with
          | None => (d, Ok (SetOf []))
          | Some (VStr current_classes) =>
              (d, Ok (SetOf (Py.split_ws current_classes)))
          | Some (VBytes bytearray current_classes) =>
              if bytearray && negb (bytes_blank current_classes)
              then (d, Raise TypeError)
              else (d, Ok (SetOfBytes current_classes))
          | Some _ => (d, Raise AttributeError)
          end
      | None => (d, Raise AttributeError)
      end
  end.

(** [SimpleDoc._set_classes].  A set that holds a [bytes] object is not
    empty, and [join] raises [TypeError] on it before the attributes of the
    current tag are looked at. *)
Definition _set_classes (classes_set : pyset) : M unit := λ d,
  if bytes_members classes_set then (d, Raise TypeError)
  else
    match current_tag d with
    | DocumentRoot => (d, Raise DocumentRootError)
    | TagRef t =>
        if bool_decide (members classes_set = ∅)
        then (set_tags (alter (set_Tag_attrs (delete "class")) t) d, Ok tt)
        else (set_tags (alter (set_Tag_attrs
                 <["class" := VStr (Py.join " " (set_order classes_set))]>) t) d,
              Ok tt)
    end.

(** [SimpleDoc.add_class] *)
Definition add_class (classes : list string) : M unit :=
  do cur <- _get_classes;
  _set_classes (SetUnion cur classes).

(** [SimpleDoc.discard_class] *)
Definition discard_class (classes : list string) : M unit :=
  do cur <- _get_classes;
  _set_classes (SetDifference cur classes).

(** [SimpleDoc.toggle_class] *)
Definition toggle_class (elem : string) (active : bool) : M unit :=
  do classes <- _get_classes;
  _set_classes (if active then SetAdd classes elem else SetDiscard classes elem).

(** One command; [With] runs its body between [__enter__] and
    [__exit__]. *)
Fixpoint exec (c : cmd) : M unit :=
  match c with
  | Text strgs => text strgs
  | Asis strgs => asis strgs
  | Attr args kwargs => attr args kwargs
  | Stag tag_name args kwargs => stag tag_name args kwargs
  | Cdata strg safe => cdata strg safe
  | AddClass classes => add_class classes
  | DiscardClass classes => discard_class classes
  | ToggleClass elem active => toggle_class elem active
  | RaiseUser e => raise e
  | With tag_name args kwargs body =>
      with_block (tag tag_name args kwargs)
        ((fix run (cs : list cmd) : M unit :=
            match cs with
            | [] => ret tt
            | c' :: cs' => exec c' ;;; run cs'
            end) body)
  end.

(** A sequence of commands, stopping at the first exception. *)
Fixpoint run (cs : list cmd) : M unit :=
  match cs with
  | [] => ret tt
  | c :: cs' => exec c ;;; run cs'
  end.

(** [SimpleDoc.line] *)
Definition line (tag_name : string) (text_content : value) (args : list value)
    (kwargs : list (string * value)) : M unit :=
  with_block (tag tag_name args kwargs) (text [text_content]).

End Builder.

(** [len(v)] *)
Definition py_len (v : value) : outcome nat :=
  match v with
  | VStr s => Ok (String.length s)
  | VList l => Ok (length l)
  | VPair _ _ => Ok 2
  | VBytes _ b => Ok (length b)
  | _ => Raise TypeError
  end.

(** [kwargs[key] = v] *)
Fixpoint kw_set (key : string) (v : value) (kwargs : list (string * value))
  : list (string * value) :=
  match kwargs with
  | [] => [(key, v)]
  | (k, w) :: rest =>
      if String.eqb k key then (k, v) :: rest else (k, w) :: kw_set key v rest
  end.

Section Constructor.

Variable BeautifulSoup : parser.

(** [SimpleDoc.__init__] with its positional arguments, [nl2br] and its
    other keyword arguments.  The soup is what the parser library makes of
    the positional arguments and of the keywords with [features] set. *)
Definition SimpleDoc__init__ (args : list value) (nl2br : bool)
    (kwargs : list (string * value)) : outcome SimpleDoc :=
  match kw_get "stag_end" kwargs with
  | Some _ => Raise AssertionError
  | None =>
      let features0 :=
        if bool_decide (1 < length args) then default VNone (args !! 1)
        else default VNone (kw_get "features" kwargs) in
      let features1 :=
        match features0 with
        | VNone => Ok (VStr "lxml")
        | _ =>
            match py_len features0 with
            | Ok 0 => Ok (VStr "lxml")
            | Ok _ => Ok features0
            | Raise e => Raise e
            end
        end in
      match features1 with
      | Raise e => Raise e
      | Ok feats =>
          if bool_decide (1 < length args)
          then Raise TypeError
          else
            let kwargs' := kw_set "features" feats kwargs in
            match BeautifulSoup args kwargs' with
            | Raise e => Raise e
            | Ok n =>
                Ok {| nodes := Soup (seq 1 n)
                               :: ((λ i, Parsed args kwargs' i) <$> seq 0 n);
                      tags := [];
                      current_tag := DocumentRoot;
                      features := feats;
                      _nl2br := nl2br |}
            end
      end
  end.

End Constructor.

(** ** Observing a document *)

Definition add_children (ids : list nat) (n : node) : node :=
  foldl (λ acc c, add_child c acc) n ids.

Definition is_container (n : node) : bool :=
  match n with Soup _ | Element _ => true | _ => false end.

(** The children of the object at index [p]. *)
Definition children_of (d : SimpleDoc) (p : nat) : list nat :=
  from_option children [] (nodes d !! p).

(** The current tag stands for the soup or element at index [p]: that is
    where the next [_append] puts its child. *)
Definition insertion_point (d : SimpleDoc) (p : nat) : Prop :=
  node_of d (current_tag d) = Some p ∧ is_container <$> nodes d !! p = Some true.

(** [d] after the new objects [new] were made and appended, in this order,
    to the object at [p]; nothing else differs. *)
Definition append_nodes (p : nat) (new : list node) (d : SimpleDoc) : SimpleDoc :=
  set_nodes (λ ns, alter (add_children (seq (length ns) (length new))) p ns ++ new) d.

(** The objects [asis] appends for one value: those at the top of the soup
    the parser makes of it, none when the parser raises. *)
Definition parsed_nodes (bs : parser) (features : value) (strg : value) : list node :=
  match bs [strg] [("features", features)] with
  | Ok n => (λ i, Parsed [strg] [("features", features)] i) <$> seq 0 n
  | Raise _ => []
  end.

(** The element [stag] makes. *)
Definition empty_element (tag_name : string) (a : gmap string value) : node :=
  Element {| name := tag_name; attrs := a; can_be_empty_element := true;
             contents := [] |}.

(** ** Scopes *)

(** [d'] has every [Tag] object of [d], each with the parent it had. *)
Definition extends (d d' : SimpleDoc) : Prop :=
  length (tags d) ≤ length (tags d') ∧
  ∀ i, i < length (tags d) →
       Tag_parent_tag <$> tags d' !! i = Tag_parent_tag <$> tags d !! i.

(** A method that makes no [Tag] object and leaves the current tag and the
    parents alone, whether it returns or raises. *)
Definition leaf {A} (m : M A) : Prop :=
  ∀ d d' r, m d = (d', r) →
    current_tag d' = current_tag d ∧
    length (tags d') = length (tags d) ∧
    ∀ i, Tag_parent_tag <$> tags d' !! i = Tag_parent_tag <$> tags d !! i.

(** What a run of commands does to the current tag: it is back where it was
    when the run returns, and when the run raises it is where it was or at a
    [Tag] object made during the run. *)
Definition scoped (m : M unit) : Prop :=
  ∀ d d' r, m d = (d', r) →
    extends d d' ∧
    match r with
    | Ok _ => current_tag d' = current_tag d
    | Raise _ =>
        current_tag d' = current_tag d ∨
        ∃ t, current_tag d' = TagRef t ∧ length (tags d) ≤ t
    end.

(** ** Reference points for the statements *)

(** The document [SimpleDoc(nl2br=b)] makes. *)
Definition new_doc (nl2br : bool) : SimpleDoc :=
  {| nodes := [Soup []]; tags := []; current_tag := DocumentRoot;
     features := VStr "lxml"; _nl2br := nl2br |}.

(** A tree builder for which no element may be empty. *)
Definition no_void : string → bool := λ _, false.

(** An order of iteration that looks at the elements only. *)
Definition by_elements (s : pyset) : list string := elements (members s).

(** A parser that makes [n] objects of every markup. *)
Definition parses_to (n : nat) : parser := λ _ _, Ok n.

(** A [ref] to the document root or to a [Tag] object of [d]. *)
Definition valid_ref (d : SimpleDoc) (r : ref) : Prop :=
  match r with
  | DocumentRoot => True
  | TagRef t => t < length (tags d)
  end.

(** The objects newline-to-break mode makes of the segments of one value:
    a text node and a line break for every segment but the last, and a text
    node for the last. *)
Definition nl2br_nodes (strgs : list string) : list node :=
  (removelast strgs ≫= λ s, [NavigableString s; empty_element "br" ∅])
  ++ from_option (λ s, [NavigableString s]) [] (last strgs).

(** The objects [text] makes of one string. *)
Definition text_nodes (nl2br : bool) (s : string) : list node :=
  if nl2br then nl2br_nodes (Py.newline_split s) else [NavigableString s].

(** [s] with every carriage return and line feed pair turned into a line
    feed: what the newline pattern reads as one separator. *)
Fixpoint crlf_to_lf (s : string) : string :=
  match s with
  | EmptyString => EmptyString
  | String c s' =>
      match s' with
      | String c' s'' =>
          if Ascii.eqb c "013"%char && Ascii.eqb c' "010"%char
          then String "010"%char (crlf_to_lf s'')
          else String c (crlf_to_lf s')
      | EmptyString => String c EmptyString
      end
  end.

Definition is_empty_text (n : node) : bool :=
  match n with
  | NavigableString EmptyString => true
  | _ => false
  end.

(** ** Class tokens *)

(** The tokens of the [class] attribute in a pending attribute map; no
    [class] means no tokens. *)
Definition class_tokens (a : gmap string value) : gset string :=
  match a !! "class" with
  | Some (VStr s) => list_to_set (Py.split_ws s)
  | _ => ∅
  end.


(** [a'] is [a] with [class] rewritten from the set [X]: removed when [X]
    is empty, and otherwise the elements of [X], in some order, joined by
    single spaces. *)
Definition class_rewritten (X : gset string) (a a' : gmap string value) : Prop :=
  if decide (X = ∅) then a' = delete "class" a
  else ∃ l, l ≡ₚ elements X ∧ a' = <["class" := VStr (Py.join " " l)]> a.

(** Two pending attribute maps that differ at most in the order of the
    tokens of [class]. *)
Definition class_reordered (a1 a2 : gmap string value) : Prop :=
  (∀ k, k ≠ "class" → a1 !! k = a2 !! k) ∧
  (a1 !! "class" = a2 !! "class" ∨
   ∃ l1 l2, l1 ≡ₚ l2 ∧ a1 !! "class" = Some (VStr (Py.join " " l1)) ∧
            a2 !! "class" = Some (VStr (Py.join " " l2))).

(** Two [Tag] objects that differ at most in the order of the tokens of
    [class]. *)
Definition Tag_reordered (T1 T2 : Tag) : Prop :=
  Tag_name T1 = Tag_name T2 ∧ Tag_bs4_tag T1 = Tag_bs4_tag T2 ∧
  Tag_parent_tag T1 = Tag_parent_tag T2 ∧
  class_reordered (Tag_attrs T1) (Tag_attrs T2).





(** ** Documents a session can reach *)

Inductive kind : Type := KSoup | KElement | KLeaf.

Definition node_kind (n : node) : kind :=
  match n with
  | Soup _ => KSoup
  | Element _ => KElement
  | _ => KLeaf
  end.

(** The shape of every document a session reaches: the soup is the object
    at index 0, every [Tag] object points to an element, every parent that
    was captured is the document root or a [Tag] object, and so is the
    current tag. *)
Definition wf (d : SimpleDoc) : Prop :=
  node_kind <$> nodes d !! 0 = Some KSoup ∧
  (∀ t T, tags d !! t = Some T →
          node_kind <$> nodes d !! Tag_bs4_tag T = Some KElement) ∧
  (∀ t T r, tags d !! t = Some T → Tag_parent_tag T = Some r → valid_ref d r) ∧
  valid_ref d (current_tag d).

(** A method that takes reachable documents to reachable documents,
    whether it returns or raises. *)
Definition keeps {A} (m : M A) : Prop :=
  ∀ d d' r, wf d → m d = (d', r) → wf d'.

(** The line feed and the carriage return with line feed, as strings. *)
Definition LF : string := String "010" EmptyString.
Definition CRLF : string := String "013" (String "010" EmptyString).

(** ** Escaping, one character at a time *)

(** [s] with every character replaced by what [f] gives for it. *)
Fixpoint translate (f : ascii → string) (s : string) : string :=
  match s with
  | EmptyString => EmptyString
  | String c s' => f c +:+ translate f s'
  end.

(** What [html_escape] makes of one character. *)
Definition html_entity (c : ascii) : string :=
  if Ascii.eqb c "&" then "&amp;"
  else if Ascii.eqb c "<" then "&lt;"
  else if Ascii.eqb c ">" then "&gt;"
  else String c EmptyString.

(** What [attr_escape] makes of one character. *)
Definition attr_entity (c : ascii) : string :=
  if Ascii.eqb c "&" then "&amp;"
  else if Ascii.eqb c "<" then "&lt;"
  else if Ascii.eqb c "034" then "&quot;"
  else String c EmptyString.

(** [c in s] for one character. *)
Fixpoint has_char (c : ascii) (s : string) : bool :=
  match s with
  | EmptyString => false
  | String a s' => Ascii.eqb a c || has_char c s'
  end.

(** ** What a session leaves alone *)

(** A node without its children. *)
Definition static (n : node) : node :=
  match n with
  | Soup _ => Soup []
  | Element t =>
      Element {| name := name t; attrs := attrs t;
                 can_be_empty_element := can_be_empty_element t; contents := [] |}
  | _ => n
  end.

(** [d'] holds every object of [d] at its index with the same name,
    attributes, flag or text, its children of before still first and in
    order, and every [Tag] object of [d] with the element and name it had;
    the parser and the newline mode are those of [d]. *)
Definition frame (d d' : SimpleDoc) : Prop :=
  (∀ i n, nodes d !! i = Some n →
     ∃ n', nodes d' !! i = Some n' ∧ static n' = static n ∧
           children n `prefix_of` children n') ∧
  (∀ t T, tags d !! t = Some T →
     ∃ T', tags d' !! t = Some T' ∧ Tag_bs4_tag T' = Tag_bs4_tag T ∧
           Tag_name T' = Tag_name T) ∧
  features d' = features d ∧ _nl2br d' = _nl2br d.

Definition framed {A} (m : M A) : Prop := ∀ d d' r, m d = (d', r) → frame d d'.

(** ** [SimpleDoc.data] *)

(** [(key, value) = arg], the unpacking in the two comprehensions of
    [data]: a pair gives its parts, a string of two characters its
    characters, a list of two values its items, two bytes their codes; any
    other string, list or bytes raises [ValueError], and a value that
    cannot be iterated [TypeError]. *)
Definition unpack_pair (arg : value) : outcome (value * value) :=
  match arg with
  | VPair k v => Ok (VStr k, v)
  | VStr (String a (String b EmptyString)) =>
      Ok (VStr (String a EmptyString), VStr (String b EmptyString))
  | VStr _ => Raise ValueError
  | VList [a; b] => Ok (a, b)
  | VList _ => Raise ValueError
  | VBytes _ [a; b] =>
      Ok (VInt (Z.of_nat (nat_of_ascii (ascii_of_ascii7 a))),
          VInt (Z.of_nat (nat_of_ascii (ascii_of_ascii7 b))))
  | VBytes _ _ => Raise ValueError
  | _ => Raise TypeError
  end.

Section Data.

(** [str] of a list, which the embedding leaves to Python. *)
Variable str_of_list : list value → string.

(** ['%s' % key]: a pair is taken for the tuple of the arguments of the
    format, one too many; an [int] over the limit of digits raises
    [ValueError], as the key or in a list. *)
Definition format_s (key : value) : outcome string :=
  match key with
  | VStr s => Ok s
  | VNone => Ok "None"
  | VPair _ _ => Raise TypeError
  | VList l => if existsb repr_too_long l then Raise ValueError else Ok (str_of_list l)
  | VBytes ba b => Ok (repr_bytes ba b)
  | _ => str_of_number key
  end.

(** One item of the generator over the positional arguments. *)
Definition data_item (arg : value) : outcome value :=
  match unpack_pair arg with
  | Ok (key, v) =>
      match format_s key with
      | Ok s => Ok (VPair ("data-" +:+ s) v)
      | Raise e => Raise e
      end
  | Raise e => Raise e
  end.

Fixpoint data_items (args : list value) : outcome (list value) :=
  match args with
  | [] => Ok []
  | arg :: rest =>
      match data_item arg with
      | Ok x =>
          match data_items rest with
          | Ok xs => Ok (x :: xs)
          | Raise e => Raise e
          end
      | Raise e => Raise e
      end
  end.

Definition data_kwargs (kwargs : list (string * value)) : list (string * value) :=
  (λ kv, ("data-" +:+ kv.1, kv.2)) <$> kwargs.

(** [SimpleDoc.data]: the generator is run out for the starred argument
    and the dictionary built before [attr] is called. *)
Definition data (args : list value) (kwargs : list (string * value)) : M unit :=
  do args' <- lift (data_items args);
  attr args' (data_kwargs kwargs).

End Data.

(** ** Attributes on the way to the element *)






(** * Facts *)

(** ** Strings *)



Lemma str_app_cons (c : ascii) (a b : string) :
  String c a +:+ b = String c (a +:+ b).
Proof. reflexivity. Qed.

Lemma str_app_nil_l (b : string) : "" +:+ b = b.
Proof. reflexivity. Qed.

Ltac str_simpl := rewrite ?str_app_cons, ?str_app_nil_l in *.

Lemma str_app_assoc (a b c : string) : (a +:+ b) +:+ c = a +:+ (b +:+ c).
Proof. induction a as [|x a IH]; str_simpl; congruence. Qed.

Lemma str_app_nil_r (a : string) : a +:+ "" = a.
Proof. induction a as [|x a IH]; str_simpl; congruence. Qed.

Lemma str_app_length (a b : string) :
  String.length (a +:+ b) = String.length a + String.length b.
Proof. induction a as [|x a IH]; str_simpl; simpl; congruence. Qed.

Lemma startswith_spec (s pre : string) :
  Py.startswith s pre = true ↔ ∃ r, s = pre +:+ r.
Proof.
  revert s. induction pre as [|a pre IH]; intros s; simpl.
  - split; [intros _; by exists s | done].
  - destruct s as [|b s]; simpl.
    + split; [done | intros [r Hr]; str_simpl; discriminate].
    + rewrite andb_true_iff, IH. split.
      * intros [Hab [r ->]]. apply Ascii.eqb_eq in Hab as ->. by exists r.
      * intros [r Hr]. str_simpl. injection Hr as -> ->.
        split; [apply Ascii.eqb_refl | by exists r].
Qed.

Lemma split_go_nonempty sep k s : Py.split_go sep k s ≠ [].
Proof.
  revert k. induction s as [|c s IH]; intros k; simpl; [done |].
  destruct k; [| apply IH].
  case_match; [done |].
  specialize (IH 0). unfold Py.cons_head. by destruct (Py.split_go sep 0 s).
Qed.

Lemma split_go_skip sep p s :
  Py.split_go sep (String.length p) (p +:+ s) = Py.split_go sep 0 s.
Proof. induction p as [|c p IH]; simpl; done. Qed.

Lemma join_cons_head sep c l :
  l ≠ [] → Py.join sep (Py.cons_head c l) = String c (Py.join sep l).
Proof. destruct l as [|x [|y l]]; simpl; done. Qed.

Lemma join_cons_nonempty sep x l :
  l ≠ [] → Py.join sep (x :: l) = x +:+ sep +:+ Py.join sep l.
Proof. destruct l; simpl; done. Qed.

Lemma split_go_match sep c s :
  sep ≠ "" → Py.startswith (String c s) sep = true →
  ∃ r, String c s = sep +:+ r ∧ String.length r ≤ String.length s ∧
       Py.split_go sep 0 (String c s) = "" :: Py.split_go sep 0 r.
Proof.
  intros Hsep Hm. pose proof Hm as Hm'. apply startswith_spec in Hm' as [r Hr].
  exists r. split; [done |].
  destruct sep as [|a sep]; [done |]. simpl in Hr. injection Hr as -> ->.
  split; [rewrite str_app_length; lia |].
  cbn [Py.split_go]. rewrite Hm. cbn [String.length].
  replace (S (String.length sep) - 1) with (String.length sep) by lia.
  by rewrite split_go_skip.
Qed.

(** [sep.join(s.split(sep)) == s] *)
Lemma join_split (s sep : string) : sep ≠ "" → Py.join sep (Py.split s sep) = s.
Proof.
  intros Hsep. unfold Py.split.
  remember (String.length s) as n eqn:Hn.
  revert s Hn. induction n as [n IH] using lt_wf_ind. intros s Hn.
  destruct s as [|c s]; [done |].
  destruct (Py.startswith (String c s) sep) eqn:Hm.
  - destruct (split_go_match sep c s Hsep Hm) as (r & Hr & Hlen & ->).
    rewrite join_cons_nonempty by apply split_go_nonempty.
    simpl in Hn. rewrite (IH (String.length r)); [by rewrite Hr | lia | done].
  - cbn [Py.split_go]. rewrite Hm.
    rewrite join_cons_head by apply split_go_nonempty.
    simpl in Hn. by rewrite (IH (String.length s)); [| lia |].
Qed.

Lemma split_head_prefix sep s :
  ∃ p ps r, Py.split_go sep 0 s = p :: ps ∧ s = p +:+ r.
Proof.
  induction s as [|c s (p & ps & r & Hp & Hr)].
  - by exists "", [], "".
  - cbn [Py.split_go]. case_match.
    + by exists "", (Py.split_go sep (String.length sep - 1) s), (String c s).
    + rewrite Hp. simpl. exists (String c p), ps, r. by rewrite Hr at 1.
Qed.

(** No piece of [s.split(sep)] contains [sep]. *)
Lemma split_pieces_free (s sep : string) :
  sep ≠ "" → Forall (λ p, Py.contains sep p = false) (Py.split s sep).
Proof.
  intros Hsep. unfold Py.split.
  remember (String.length s) as n eqn:Hn.
  revert s Hn. induction n as [n IH] using lt_wf_ind. intros s Hn.
  destruct s as [|c s].
  - simpl. constructor; [| done]. destruct sep; [done | by simpl].
  - destruct (Py.startswith (String c s) sep) eqn:Hm.
    + destruct (split_go_match sep c s Hsep Hm) as (r & Hr & Hlen & ->).
      simpl in Hn. constructor.
      * destruct sep; [done | by simpl].
      * apply (IH (String.length r)); [lia | done].
    + cbn [Py.split_go]. rewrite Hm. simpl in Hn.
      pose proof (IH (String.length s) ltac:(lia) s eq_refl) as HF.
      destruct (split_head_prefix sep s) as (p & ps & r & Hp & Hr).
      rewrite Hp in HF |- *. simpl. apply Forall_cons in HF as [Hp0 Hps].
      constructor; [| done].
      cbn [Py.contains]. rewrite Hp0, orb_false_r.
      destruct (Py.startswith (String c p) sep) eqn:Hm2; [| done].
      apply startswith_spec in Hm2 as [r2 Hr2].
      assert (Py.startswith (String c s) sep = true) as Hm3; [| congruence].
      apply startswith_spec. exists (r2 +:+ r).
      by rewrite <- str_app_assoc, <- Hr2, str_app_cons, <- Hr.
Qed.



(** ** CDATA sections *)

Lemma concat_cons (x : string) (l : list string) :
  Py.concat (x :: l) = x +:+ Py.concat l.
Proof. reflexivity. Qed.

Lemma cdata_tail_concat (L : nat) (l : list string) (i : nat) :
  l ≠ [] → 0 < i → i + length l = L →
  Py.concat (imap (λ j, cdata_section L (i + j)) l) = ">" +:+ Py.join "]]>" l.
Proof.
  revert i. induction l as [|x l IH]; intros i Hne Hi HL; [done |].
  destruct l as [|y l].
  - cbn. unfold cdata_section.
    replace (i + 0 =? 0) with false by (symmetry; apply Nat.eqb_neq; lia).
    replace (i + 0 =? L - 1) with true by (symmetry; apply Nat.eqb_eq; simpl in HL; lia).
    simpl. by rewrite str_app_nil_r.
  - rewrite imap_cons, concat_cons.
    rewrite join_cons_nonempty by done.
    assert (imap ((λ j, cdata_section L (i + j)) ∘ S) (y :: l)
            = imap (λ j, cdata_section L (S i + j)) (y :: l)) as ->.
    { apply imap_ext. intros j z _. simpl. f_equal. lia. }
    rewrite (IH (S i)); [| done | lia | simpl in *; lia].
    unfold cdata_section.
    replace (i + 0 =? 0) with false by (symmetry; apply Nat.eqb_neq; lia).
    replace (i + 0 =? L - 1) with false by (symmetry; apply Nat.eqb_neq; simpl in HL; lia).
    simpl. rewrite !str_app_assoc. reflexivity.
Qed.

(** Gluing the sections back together gives the pieces joined by the
    terminator. *)
Lemma cdata_sections_concat (l : list string) :
  Py.concat (cdata_sections l) = Py.join "]]>" l.
Proof.
  unfold cdata_sections. destruct l as [|x [|y l]]; [done | |].
  - cbn. by rewrite str_app_nil_r.
  - rewrite imap_cons, concat_cons.
    rewrite join_cons_nonempty by done.
    assert (imap (cdata_section (length (x :: y :: l)) ∘ S) (y :: l)
            = imap (λ j, cdata_section (length (x :: y :: l)) (1 + j)) (y :: l)) as ->.
    { by apply imap_ext. }
    rewrite cdata_tail_concat; [| done | lia | simpl; lia].
    unfold cdata_section. simpl. rewrite !str_app_assoc. reflexivity.
Qed.

Lemma contains_terminator_gt (s : string) :
  Py.contains "]]>" s = false → Py.contains "]]>" (">" +:+ s) = false.
Proof. intros H. str_simpl. by cbn. Qed.

Lemma contains_terminator_brackets (s : string) :
  Py.contains "]]>" s = false → Py.contains "]]>" (s +:+ "]]") = false.
Proof.
  induction s as [|c s IH]; [done |].
  cbn [Py.contains]. intros [H1 H2]%orb_false_elim.
  str_simpl. cbn [Py.contains]. rewrite (IH H2), orb_false_r.
  destruct s as [|c1 [|c2 s]]; str_simpl; cbn in *;
    rewrite ?andb_true_r, ?andb_false_r in *; done.
Qed.

Lemma cdata_section_free (L i : nat) (s : string) :
  Py.contains "]]>" s = false → Py.contains "]]>" (cdata_section L i s) = false.
Proof.
  intros H. unfold cdata_section. repeat case_match;
    auto using contains_terminator_gt, contains_terminator_brackets.
Qed.

Lemma cdata_sections_free (l : list string) :
  Forall (λ p, Py.contains "]]>" p = false) l →
  Forall (λ c, Py.contains "]]>" c = false) (cdata_sections l).
Proof.
  intros HF. apply Forall_lookup. intros i c Hc.
  unfold cdata_sections in Hc. rewrite list_lookup_imap in Hc.
  destruct (l !! i) as [p|] eqn:Hp; [| done]. injection Hc as <-.
  apply cdata_section_free. by eapply Forall_lookup_1 in HF.
Qed.

(** ** The object store *)

Lemma add_children_app (a b : list nat) (n : node) :
  add_children (a ++ b) n = add_children b (add_children a n).
Proof. unfold add_children. by rewrite foldl_app. Qed.

Lemma children_add_children (ids : list nat) (n : node) :
  is_container n = true → children (add_children ids n) = children n ++ ids.
Proof.
  revert n. induction ids as [|i ids IH]; intros n Hn; simpl.
  - by rewrite app_nil_r.
  - rewrite IH; [| by destruct n].
    destruct n; simpl in *; try done; by rewrite <- app_assoc.
Qed.

Lemma is_container_add_children (ids : list nat) (n : node) :
  is_container (add_children ids n) = is_container n.
Proof.
  revert n. induction ids as [|i ids IH]; intros n; simpl; [done |].
  rewrite IH. by destruct n.
Qed.

Lemma insertion_point_lt (d : SimpleDoc) (p : nat) :
  insertion_point d p → p < length (nodes d).
Proof.
  intros [_ H]. apply lookup_lt_is_Some. destruct (nodes d !! p); [eauto | done].
Qed.

Lemma append_nodes_nil (p : nat) (d : SimpleDoc) : append_nodes p [] d = d.
Proof.
  destruct d as [ns ts c f b]. unfold append_nodes, set_nodes; simpl.
  rewrite app_nil_r. f_equal. apply list_eq. intros i.
  rewrite list_lookup_alter. case_decide; [subst |]; by destruct (ns !! _).
Qed.

Lemma append_nodes_app (p : nat) (n1 n2 : list node) (d : SimpleDoc) :
  p < length (nodes d) →
  append_nodes p n2 (append_nodes p n1 d) = append_nodes p (n1 ++ n2) d.
Proof.
  intros Hp. destruct d as [ns ts c f b]. unfold append_nodes, set_nodes; simpl in *.
  f_equal. rewrite length_app, length_alter, (length_app n1), seq_app.
  rewrite app_assoc. f_equal.
  rewrite alter_app_l by (by rewrite length_alter). f_equal.
  rewrite list_alter_alter_eq. apply list_alter_ext; [| done].
  intros n _. simpl. by rewrite add_children_app.
Qed.

Lemma append_nodes_insertion_point (p : nat) (new : list node) (d : SimpleDoc) :
  insertion_point d p → insertion_point (append_nodes p new d) p.
Proof.
  intros Hi. pose proof (insertion_point_lt _ _ Hi) as Hp.
  destruct Hi as [H1 H2]. split.
  - by destruct d as [ns ts [|t] f b].
  - unfold append_nodes; simpl. rewrite lookup_app_l by (by rewrite length_alter).
    rewrite list_lookup_alter. case_decide; [| done].
    destruct (nodes d !! p) as [n|]; [| done]. simpl in *.
    by rewrite is_container_add_children.
Qed.

(** What [append_nodes] leaves to see: the children of [p] grow by the new
    indices, the new objects sit at these indices, and every other object
    is as before. *)
Lemma append_nodes_children (p : nat) (new : list node) (d : SimpleDoc) :
  insertion_point d p →
  children_of (append_nodes p new d) p
  = children_of d p ++ seq (length (nodes d)) (length new).
Proof.
  intros Hi. pose proof (insertion_point_lt _ _ Hi) as Hp. destruct Hi as [_ H2].
  unfold children_of, append_nodes; simpl.
  rewrite lookup_app_l by (by rewrite length_alter).
  rewrite list_lookup_alter. case_decide; [| done].
  destruct (nodes d !! p) as [n|]; [| done]. simpl in *.
  apply children_add_children. congruence.
Qed.

Lemma append_nodes_lookup_new (p : nat) (new : list node) (d : SimpleDoc) (j : nat) :
  nodes (append_nodes p new d) !! (length (nodes d) + j) = new !! j.
Proof.
  unfold append_nodes; simpl.
  rewrite lookup_app_r by (rewrite length_alter; lia).
  rewrite length_alter. f_equal. lia.
Qed.

Lemma append_nodes_lookup_old (p : nat) (new : list node) (d : SimpleDoc) (i : nat) :
  i < length (nodes d) → i ≠ p →
  nodes (append_nodes p new d) !! i = nodes d !! i.
Proof.
  intros Hi Hne. unfold append_nodes; simpl.
  rewrite lookup_app_l by (by rewrite length_alter).
  by rewrite list_lookup_alter_ne.
Qed.

Lemma append_new_spec (d : SimpleDoc) (p : nat) (n : node) :
  insertion_point d p → append_new n d = (append_nodes p [n] d, Ok tt).
Proof.
  intros Hi. pose proof (insertion_point_lt _ _ Hi) as Hp. destruct Hi as [H1 _].
  unfold append_new, _append, alloc. simpl.
  assert (node_of (set_nodes (λ ns, ns ++ [n]) d) (current_tag d) = Some p) as ->.
  { by destruct d as [ns ts [|t] f b]. }
  unfold append_nodes, set_nodes. simpl. repeat f_equal.
  by rewrite alter_app_l by done.
Qed.

Lemma for_each_append_new {A} (f : A → node) (l : list A) (d : SimpleDoc) (p : nat) :
  insertion_point d p →
  for_each l (λ x, append_new (f x)) d = (append_nodes p (f <$> l) d, Ok tt).
Proof.
  revert d. induction l as [|x l IH]; intros d Hi; simpl.
  - by rewrite append_nodes_nil.
  - unfold bind. rewrite (append_new_spec d p) by done.
    rewrite IH by (by apply append_nodes_insertion_point).
    rewrite append_nodes_app by (by eapply insertion_point_lt). done.
Qed.

(** ** Self-closing tags *)

Lemma alter_last {A} (f : A → A) (l : list A) (x : A) :
  alter f (length l) (l ++ [x]) = l ++ [f x].
Proof.
  replace (length l) with (length l + 0) by lia. by rewrite alter_app_r.
Qed.

Lemma node_of_set_nodes (f : list node → list node) (d : SimpleDoc) (r : ref) :
  node_of (set_nodes f d) r = node_of d r.
Proof. by destruct r. Qed.

Lemma first_rejected_empty (keys : list string) : first_rejected keys ∅ = None.
Proof. induction keys as [|k keys IH]; [done |]. simpl. by rewrite lookup_empty. Qed.

Lemma dict_to_attrs_empty (keys : list string) : dict_to_attrs keys ∅ = Ok ∅.
Proof. unfold dict_to_attrs. by rewrite first_rejected_empty. Qed.

Lemma stag_spec (be : string → bool) (tag_name : string) (args : list value)
    (kwargs : list (string * value)) (d : SimpleDoc) (p : nat)
    (m m' : gmap string value) :
  insertion_point d p →
  _attributes args kwargs = Ok m →
  dict_to_attrs (attribute_keys args kwargs) m = Ok m' →
  stag be tag_name args kwargs d
  = (append_nodes p [empty_element tag_name m'] d, Ok tt).
Proof.
  intros Hi Hm Hm'. pose proof (insertion_point_lt _ _ Hi) as Hp.
  destruct Hi as [Hcur _].
  assert (∀ a : gmap string value,
    (do _ <- modify (set_nodes (alter set_can_be_empty (length (nodes d))));
     λ d0, (_append (current_tag d0) (length (nodes d)) d0, Ok tt))
      (set_nodes (λ _, nodes d ++ [Element {| name := tag_name; attrs := a;
         can_be_empty_element := be tag_name; contents := [] |}]) d)
    = (append_nodes p [empty_element tag_name a] d, Ok tt)) as Hfin.
  { intros a. unfold bind, modify, _append. simpl.
    rewrite !node_of_set_nodes, Hcur. simpl.
    unfold append_nodes, set_nodes. simpl. do 2 f_equal.
    rewrite alter_last. simpl. by rewrite alter_app_l by done. }
  unfold stag. unfold bind at 1. unfold new_tag, alloc. simpl.
  unfold bind at 1.
  destruct args as [|a0 args], kwargs as [|k0 kwargs].
  - injection Hm as <-. rewrite dict_to_attrs_empty in Hm'. injection Hm' as <-.
    unfold ret. apply (Hfin ∅).
  - unfold bind at 1. unfold lift. rewrite Hm. unfold bind at 1. rewrite Hm'.
    unfold modify. rewrite <- (Hfin m'). f_equal.
    unfold set_nodes; simpl. f_equal. rewrite alter_last. simpl.
    by rewrite (right_id_L ∅ (∪)).
  - unfold bind at 1. unfold lift. rewrite Hm. unfold bind at 1. rewrite Hm'.
    unfold modify. rewrite <- (Hfin m'). f_equal.
    unfold set_nodes; simpl. f_equal. rewrite alter_last. simpl.
    by rewrite (right_id_L ∅ (∪)).
  - unfold bind at 1. unfold lift. rewrite Hm. unfold bind at 1. rewrite Hm'.
    unfold modify. rewrite <- (Hfin m'). f_equal.
    unfold set_nodes; simpl. f_equal. rewrite alter_last. simpl.
    by rewrite (right_id_L ∅ (∪)).
Qed.

(** ** Scopes and the current tag *)

Lemma extends_refl (d : SimpleDoc) : extends d d.
Proof. by split. Qed.

Lemma extends_trans (d1 d2 d3 : SimpleDoc) :
  extends d1 d2 → extends d2 d3 → extends d1 d3.
Proof.
  intros [H1 H2] [H3 H4]. split; [lia |].
  intros i Hi. rewrite H4 by lia. by apply H2.
Qed.

Lemma leaf_ret {A} (a : A) : leaf (ret a).
Proof. intros d d' r [= <- <-]. done. Qed.

Lemma leaf_raise {A} (e : exn) : leaf (@raise A e).
Proof. intros d d' r [= <- <-]. done. Qed.

Lemma leaf_lift {A} (o : outcome A) : leaf (lift o).
Proof. intros d d' r [= <- <-]. done. Qed.

Lemma leaf_bind {A B} (m : M A) (k : A → M B) :
  leaf m → (∀ a, leaf (k a)) → leaf (bind m k).
Proof.
  intros Hm Hk d d' r. unfold bind.
  destruct (m d) as [d1 [a|e]] eqn:E; intros H.
  - destruct (Hm _ _ _ E) as (H1 & H2 & H3).
    destruct (Hk a _ _ _ H) as (H4 & H5 & H6).
    split; [congruence |]. split; [congruence |].
    intros i. by rewrite H6.
  - injection H as <- <-. apply (Hm _ _ _ E).
Qed.

Lemma leaf_for_each {A} (l : list A) (body : A → M unit) :
  (∀ x, leaf (body x)) → leaf (for_each l body).
Proof.
  intros Hb. induction l as [|x l IH]; simpl.
  - apply leaf_ret.
  - apply leaf_bind; [apply Hb | intros _; apply IH].
Qed.

Lemma leaf_set_nodes {A} (f : SimpleDoc → list node → list node) (o : SimpleDoc → outcome A) :
  leaf (λ d, (set_nodes (f d) d, o d)).
Proof. intros d d' r [= <- <-]. done. Qed.

Lemma leaf_set_Tag_attrs {A} (f : SimpleDoc → gmap string value → gmap string value)
    (t : SimpleDoc → nat) (o : SimpleDoc → outcome A) :
  leaf (λ d, (set_tags (alter (set_Tag_attrs (f d)) (t d)) d, o d)).
Proof.
  intros d d' r [= <- <-]. simpl. split; [done |].
  split; [by rewrite length_alter |].
  intros i. rewrite list_lookup_alter. case_decide; [subst |]; [| done].
  by destruct (tags d !! t d).
Qed.

Lemma leaf_case {A} (m : M A) :
  (∀ d, ∃ m', leaf m' ∧ m d = m' d) → leaf m.
Proof.
  intros H d d' r E. destruct (H d) as (m' & Hm' & Heq).
  rewrite Heq in E. by apply (Hm' _ _ _ E).
Qed.

Lemma leaf_append_new (n : node) : leaf (append_new n).
Proof.
  unfold append_new, _append, alloc. intros d d' r [= <- <-]. simpl.
  by destruct (node_of _ _).
Qed.

Lemma leaf_new_tag (be : string → bool) (tag_name : string) : leaf (new_tag be tag_name).
Proof. intros d d' r [= <- <-]. done. Qed.

Lemma leaf_stag (be : string → bool) (tag_name : string) (args : list value)
    (kwargs : list (string * value)) : leaf (stag be tag_name args kwargs).
Proof.
  unfold stag. apply leaf_bind; [apply leaf_new_tag |]. intros i.
  apply leaf_bind.
  - destruct args, kwargs; try apply leaf_ret;
      (apply leaf_bind; [apply leaf_lift |]; intros a;
       apply leaf_bind; [apply leaf_lift |]; intros a';
       apply (leaf_set_nodes (λ _, _) (λ _, Ok tt))).
  - intros _. apply leaf_bind.
    + apply (leaf_set_nodes (λ _, _) (λ _, Ok tt)).
    + intros _. intros d d' r [= <- <-]. unfold _append.
      by destruct (node_of _ _).
Qed.

Lemma leaf_text_one (be : string → bool) (strg : value) : leaf (text_one be strg).
Proof.
  apply leaf_case. intros d. unfold text_one.
  destruct (_nl2br d).
  - destruct strg; try (exists (raise TypeError); split; [apply leaf_raise | done]).
    eexists; split; [| reflexivity].
    apply leaf_bind.
    + apply leaf_for_each. intros x. apply leaf_bind; [apply leaf_append_new |].
      intros _. apply leaf_stag.
    + intros _. destruct (last _); [apply leaf_append_new | apply leaf_raise].
  - eexists; split; [| reflexivity].
    apply leaf_bind; [apply leaf_lift | intros s; apply leaf_append_new].
Qed.

Lemma leaf_text (be : string → bool) (strgs : list value) : leaf (text be strgs).
Proof. apply leaf_for_each, leaf_text_one. Qed.

Lemma leaf_asis (bs : parser) (strgs : list value) : leaf (asis bs strgs).
Proof.
  apply leaf_for_each. intros x. apply leaf_case. intros d.
  assert (∀ kw, ∃ m',
            leaf m' ∧
            match bs [x] kw with
            | Ok n => for_each (seq 0 n) (λ i, append_new (Parsed [x] kw i)) d
            | Raise e => (d, Raise e)
            end = m' d) as H.
  { intros kw. destruct (bs [x] kw) as [n|e].
    - eexists; split; [| reflexivity].
      apply leaf_for_each. intros i. apply leaf_append_new.
    - exists (raise e); split; [apply leaf_raise | done]. }
  destruct x; try apply H.
  exists (raise TypeError); split; [apply leaf_raise | done].
Qed.

Lemma leaf_attr (args : list value) (kwargs : list (string * value)) :
  leaf (attr args kwargs).
Proof.
  apply leaf_case. intros d. unfold attr.
  destruct (current_tag d) as [|t].
  - exists (raise DocumentRootError); split; [apply leaf_raise | done].
  - destruct (_attributes args kwargs) as [a|e].
    + eexists; split;
        [apply (leaf_set_Tag_attrs (λ _ old, a ∪ old) (λ _, t) (λ _, Ok tt)) | done].
    + exists (raise e); split; [apply leaf_raise | done].
Qed.

Lemma leaf_cdata (strg : value) (safe : bool) : leaf (cdata strg safe).
Proof.
  unfold cdata. destruct safe.
  - apply leaf_bind; [apply leaf_lift | intros s; apply leaf_append_new].
  - destruct strg; try apply leaf_raise.
    apply leaf_for_each. intros c. apply leaf_append_new.
Qed.

Lemma leaf_get_classes : leaf _get_classes.
Proof.
  intros d d' r. unfold _get_classes. repeat case_match; intros [= <- <-]; done.
Qed.

Lemma leaf_set_classes (so : pyset → list string) (X : pyset) :
  leaf (_set_classes so X).
Proof.
  apply leaf_case. intros d. unfold _set_classes.
  destruct (bytes_members X);
    [exists (raise TypeError); split; [apply leaf_raise | done] |].
  destruct (current_tag d) as [|t].
  - exists (raise DocumentRootError); split; [apply leaf_raise | done].
  - case_bool_decide.
    + eexists; split;
        [apply (leaf_set_Tag_attrs (λ _, delete "class") (λ _, t) (λ _, Ok tt)) | done].
    + eexists; split;
        [apply (leaf_set_Tag_attrs
                  (λ _, <["class" := VStr (Py.join " " (so X))]>) (λ _, t) (λ _, Ok tt))
        | done].
Qed.

Lemma leaf_scoped (m : M unit) : leaf m → scoped m.
Proof.
  intros Hm d d' r E. destruct (Hm _ _ _ E) as (H1 & H2 & H3).
  split; [split; [lia | auto] |]. destruct r; auto.
Qed.

Lemma scoped_ret : scoped (ret tt).
Proof. apply leaf_scoped, leaf_ret. Qed.

Lemma scoped_seq (m k : M unit) : scoped m → scoped k → scoped (m ;;; k).
Proof.
  intros Hm Hk d d' r. unfold bind.
  destruct (m d) as [d1 [[]|e]] eqn:E; intros H.
  - destruct (Hm _ _ _ E) as [X1 C1]. destruct (Hk _ _ _ H) as [X2 C2].
    split; [by eapply extends_trans |].
    destruct r as [[]|e]; [congruence |].
    destruct C2 as [C2 | (t & C2 & Ht)]; [left; congruence |].
    right. exists t. split; [done |]. destruct X1. lia.
  - injection H as <- <-. apply (Hm _ _ _ E).
Qed.

Lemma tag_raise (be : string → bool) (tag_name : string) (args : list value)
    (kwargs : list (string * value)) (e : exn) (d : SimpleDoc) :
  _attributes args kwargs = Raise e →
  tag be tag_name args kwargs d = (d, Raise e).
Proof. intros H. unfold tag, bind, lift. by rewrite H. Qed.

Lemma tag_ok (be : string → bool) (tag_name : string) (args : list value)
    (kwargs : list (string * value)) (a : gmap string value) (d : SimpleDoc) :
  _attributes args kwargs = Ok a →
  tag be tag_name args kwargs d
  = (set_tags (λ ts, ts ++ [{| Tag_name := tag_name; Tag_attrs := a;
                               Tag_bs4_tag := length (nodes d);
                               Tag_parent_tag := None |}])
       (set_nodes (λ ns, ns ++ [Element {| name := tag_name; attrs := ∅;
                                           can_be_empty_element := be tag_name;
                                           contents := [] |}]) d),
     Ok (length (tags d))).
Proof. intros H. unfold tag, bind, lift. by rewrite H. Qed.

(** A [with doc.tag(...)] block whose tag was made: the current tag is
    restored when the block returns; when it raises, the current tag stays
    at a [Tag] object made by the block. *)
Lemma with_block_spec (be : string → bool) (tag_name : string) (args : list value)
    (kwargs : list (string * value)) (a : gmap string value) (body : M unit)
    (d d' : SimpleDoc) (r : outcome unit) :
  scoped body → _attributes args kwargs = Ok a →
  with_block (tag be tag_name args kwargs) body d = (d', r) →
  extends d d' ∧
  match r with
  | Ok _ => current_tag d' = current_tag d
  | Raise _ => ∃ t, current_tag d' = TagRef t ∧ length (tags d) ≤ t
  end.
Proof.
  intros Hbody Ha. unfold with_block. rewrite (tag_ok _ _ _ _ a) by done.
  set (T := {| Tag_name := tag_name; Tag_attrs := a;
               Tag_bs4_tag := length (nodes d); Tag_parent_tag := None |}).
  set (d1 := set_tags _ _). set (self := length (tags d)).
  assert (tags d1 = tags d ++ [T]) as Ht1 by done.
  assert (tags d1 !! self = Some T) as Hself.
  { rewrite Ht1. by apply list_lookup_middle. }
  unfold Tag__enter__. rewrite Hself.
  set (d2 := _append _ _ _).
  assert (tags d2 = tags d ++ [set_Tag_parent_tag (current_tag d) T]) as Ht2.
  { assert (tags d2 = alter (set_Tag_parent_tag (current_tag d)) self (tags d1)) as ->.
    { unfold d2, _append. by destruct (node_of _ _). }
    rewrite Ht1. apply alter_last. }
  assert (current_tag d2 = TagRef self) as Hc2.
  { unfold d2, _append. by destruct (node_of _ _). }
  assert (extends d d2) as X2.
  { split; [rewrite Ht2, length_app; simpl; lia |].
    intros i Hi. rewrite Ht2. by rewrite lookup_app_l. }
  destruct (body d2) as [d3 [[]|e]] eqn:E; destruct (Hbody _ _ _ E) as [X3 C3].
  - assert (Tag_parent_tag <$> tags d3 !! self = Some (Some (current_tag d))) as Hp.
    { destruct X3 as [_ X3]. rewrite X3.
      - rewrite Ht2. by rewrite list_lookup_middle.
      - rewrite Ht2, length_app. simpl. unfold self. lia. }
    unfold Tag__exit__. destruct (tags d3 !! self) as [T3|]; [| done].
    injection Hp as Hp. rewrite Hp. intros [= <- <-]. split.
    + eapply extends_trans; [exact X2 |]. eapply extends_trans; [exact X3 |].
      case_bool_decide; by split.
    + by case_bool_decide.
  - simpl. intros [= <- <-]. split; [by eapply extends_trans |].
    destruct C3 as [C3 | (t & C3 & Ht)].
    + exists self. by rewrite C3, Hc2.
    + exists t. split; [done |]. destruct X2. lia.
Qed.

Lemma scoped_with_block (be : string → bool) (tag_name : string) (args : list value)
    (kwargs : list (string * value)) (body : M unit) :
  scoped body → scoped (with_block (tag be tag_name args kwargs) body).
Proof.
  intros Hbody d d' r E.
  destruct (_attributes args kwargs) as [a|e] eqn:Ha.
  - destruct (with_block_spec _ _ _ _ a _ _ _ _ Hbody Ha E) as [X C].
    split; [done |]. destruct r; auto.
  - unfold with_block in E. rewrite (tag_raise _ _ _ _ e) in E by done.
    injection E as <- <-. split; [apply extends_refl | by left].
Qed.

(** Induction over commands, with the bodies of [With] blocks. *)
Lemma cmd_nested_ind (P : cmd → Prop) :
  (∀ c, (match c with With _ _ _ body => Forall P body | _ => True end) → P c) →
  ∀ c, P c.
Proof.
  intros H. fix IH 1. intros c. apply H.
  destruct c as [| | | | | | | | |tag_name args kwargs body]; try exact I.
  induction body as [|c' body IHb]; constructor; [apply IH | apply IHb].
Qed.

Lemma exec_With (be : string → bool) (so : pyset → list string) (bs : parser)
    (tag_name : string) (args : list value) (kwargs : list (string * value))
    (body : list cmd) :
  exec be so bs (With tag_name args kwargs body)
  = with_block (tag be tag_name args kwargs) (run be so bs body).
Proof. reflexivity. Qed.

Lemma scoped_run_of (be : string → bool) (so : pyset → list string) (bs : parser)
    (cs : list cmd) :
  Forall (λ c, scoped (exec be so bs c)) cs → scoped (run be so bs cs).
Proof.
  induction 1 as [|c cs Hc _ IH]; simpl; [apply scoped_ret |].
  by apply scoped_seq.
Qed.

Lemma scoped_exec (be : string → bool) (so : pyset → list string) (bs : parser) (c : cmd) :
  scoped (exec be so bs c).
Proof.
  induction c as [c IH] using cmd_nested_ind.
  destruct c as [strgs|strgs|args kwargs|tag_name args kwargs|strg safe
                |classes|classes|elem active|e|tag_name args kwargs body].
  - apply leaf_scoped, leaf_text.
  - apply leaf_scoped, leaf_asis.
  - apply leaf_scoped, leaf_attr.
  - apply leaf_scoped, leaf_stag.
  - apply leaf_scoped, leaf_cdata.
  - apply leaf_scoped, leaf_bind;
      [apply leaf_get_classes | intros; apply leaf_set_classes].
  - apply leaf_scoped, leaf_bind;
      [apply leaf_get_classes | intros; apply leaf_set_classes].
  - apply leaf_scoped, leaf_bind;
      [apply leaf_get_classes | intros; apply leaf_set_classes].
  - apply leaf_scoped, leaf_raise.
  - rewrite exec_With. apply scoped_with_block. by apply scoped_run_of.
Qed.

Lemma scoped_run (be : string → bool) (so : pyset → list string) (bs : parser)
    (cs : list cmd) : scoped (run be so bs cs).
Proof. apply scoped_run_of, Forall_forall. intros c _. apply scoped_exec. Qed.

(** ** Text *)

Lemma new_doc_init (bs : parser) (nl2br : bool) :
  bs [] [("features", VStr "lxml")] = Ok 0 →
  SimpleDoc__init__ bs [] nl2br [] = Ok (new_doc nl2br).
Proof. intros H. unfold SimpleDoc__init__. simpl. by rewrite H. Qed.

Lemma new_doc_insertion_point (nl2br : bool) : insertion_point (new_doc nl2br) 0.
Proof. by split. Qed.

Lemma nl2br_for_each (be : string → bool) (l : list string) (d : SimpleDoc) (p : nat) :
  insertion_point d p →
  for_each l (λ s, append_new (NavigableString s) ;;; stag be "br" [] []) d
  = (append_nodes p (l ≫= λ s, [NavigableString s; empty_element "br" ∅]) d, Ok tt).
Proof.
  revert d. induction l as [|x l IH]; intros d Hi; simpl.
  - by rewrite append_nodes_nil.
  - pose proof (insertion_point_lt _ _ Hi) as Hp.
    unfold bind at 1. unfold bind at 1. rewrite (append_new_spec d p) by done.
    rewrite (stag_spec be "br" [] [] _ p ∅ ∅)
      by (done || by apply append_nodes_insertion_point).
    rewrite append_nodes_app by done.
    rewrite IH by (by apply append_nodes_insertion_point).
    by rewrite append_nodes_app by done.
Qed.

Lemma newline_split_last (s : string) : is_Some (last (Py.newline_split s)).
Proof.
  assert (∀ c l, is_Some (last l) → is_Some (last (Py.cons_head c l))) as Hc.
  { intros c [|x [|y l]]; simpl; eauto. }
  assert (∀ (x : string) l, is_Some (last l) → is_Some (last (x :: l))) as Hx.
  { intros x [|y l]; simpl; eauto. }
  remember (String.length s) as n eqn:Hn.
  revert s Hn. induction n as [n IH] using lt_wf_ind. intros s Hn.
  destruct s as [|c s]; simpl; [eauto |]. simpl in Hn.
  destruct (Ascii.eqb c "010").
  - apply Hx. apply (IH (String.length s)); [lia | done].
  - destruct s as [|c' s'].
    + simpl. eauto.
    + destruct (Ascii.eqb c "013" && Ascii.eqb c' "010").
      * apply Hx. apply (IH (String.length s')); [simpl in Hn; lia | done].
      * apply Hc. apply (IH (String.length (String c' s'))); [lia | done].
Qed.

Lemma text_one_spec (be : string → bool) (s : string) (d : SimpleDoc) (p : nat) :
  insertion_point d p →
  text_one be (VStr s) d = (append_nodes p (text_nodes (_nl2br d) s) d, Ok tt).
Proof.
  intros Hi. pose proof (insertion_point_lt _ _ Hi) as Hp.
  unfold text_one, text_nodes. destruct (_nl2br d).
  - unfold bind. rewrite (nl2br_for_each be _ d p) by done.
    unfold nl2br_nodes.
    destruct (newline_split_last s) as [l ->]. simpl.
    rewrite (append_new_spec _ p) by (by apply append_nodes_insertion_point).
    by rewrite append_nodes_app by done.
  - unfold bind, lift. simpl. by apply append_new_spec.
Qed.

Lemma text_spec (be : string → bool) (ss : list string) (d : SimpleDoc) (p : nat) :
  insertion_point d p →
  text be (VStr <$> ss) d
  = (append_nodes p (ss ≫= text_nodes (_nl2br d)) d, Ok tt).
Proof.
  unfold text. revert d. induction ss as [|s ss IH]; intros d Hi; simpl.
  - by rewrite append_nodes_nil.
  - pose proof (insertion_point_lt _ _ Hi) as Hp.
    unfold bind. rewrite (text_one_spec be s d p) by done.
    rewrite IH by (by apply append_nodes_insertion_point).
    by rewrite append_nodes_app by done.
Qed.

Lemma contains_lf_cons (c : ascii) (x : string) :
  Py.contains (String "010" "") (String c x)
  = Ascii.eqb "010" c || Py.contains (String "010" "") x.
Proof. cbn [Py.contains Py.startswith]. by rewrite andb_true_r. Qed.

Lemma newline_split_free (s : string) :
  Forall (λ seg, Py.contains (String "010" "") seg = false) (Py.newline_split s).
Proof.
  assert (∀ c l, Ascii.eqb c "010" = false →
            Forall (λ seg, Py.contains (String "010" "") seg = false) l →
            Forall (λ seg, Py.contains (String "010" "") seg = false) (Py.cons_head c l))
    as Hc.
  { intros c [|x l] Hne HF; simpl.
    - constructor; [| done]. by rewrite contains_lf_cons, Ascii.eqb_sym, Hne.
    - apply Forall_cons in HF as [Hx Hl]. constructor; [| done].
      by rewrite contains_lf_cons, Ascii.eqb_sym, Hne, Hx. }
  remember (String.length s) as n eqn:Hn.
  revert s Hn. induction n as [n IH] using lt_wf_ind. intros s Hn.
  destruct s as [|c s]; [by constructor |]. simpl in Hn.
  cbn [Py.newline_split].
  destruct (Ascii.eqb c "010") eqn:Hlf.
  - constructor; [done |]. apply (IH (String.length s)); [lia | done].
  - destruct s as [|c' s'].
    + apply Hc; [done | by constructor].
    + destruct (Ascii.eqb c "013" && Ascii.eqb c' "010").
      * constructor; [done |]. apply (IH (String.length s')); [simpl in Hn; lia | done].
      * apply Hc; [done |]. apply (IH (String.length (String c' s'))); [lia | done].
Qed.

Lemma newline_split_join (s : string) :
  Py.join (String "010" "") (Py.newline_split s) = crlf_to_lf s.
Proof.
  assert (∀ l, Py.newline_split l ≠ []) as Hne.
  { intros l Hl. pose proof (newline_split_last l) as [x Hx]. by rewrite Hl in Hx. }
  remember (String.length s) as n eqn:Hn.
  revert s Hn. induction n as [n IH] using lt_wf_ind. intros s Hn.
  destruct s as [|c s]; [done |]. simpl in Hn.
  cbn [Py.newline_split crlf_to_lf].
  destruct (Ascii.eqb c "010") eqn:Hlf.
  - apply Ascii.eqb_eq in Hlf as ->.
    rewrite join_cons_nonempty by done.
    rewrite (IH (String.length s)) by (lia || done).
    destruct s as [|c' s']; [done |]. simpl. done.
  - destruct s as [|c' s'].
    + done.
    + destruct (Ascii.eqb c "013" && Ascii.eqb c' "010").
      * rewrite join_cons_nonempty by done.
        rewrite (IH (String.length s')) by (simpl in Hn; lia || done). done.
      * rewrite join_cons_head by done.
        by rewrite (IH (String.length (String c' s'))) by (lia || done).
Qed.

(** ** Reachable documents *)

Lemma wf_insertion_point (d : SimpleDoc) : wf d → ∃ p, insertion_point d p.
Proof.
  intros (H0 & Hb & _ & Hc). unfold insertion_point.
  destruct (current_tag d) as [|t] eqn:E.
  - exists 0. split; [done |].
    destruct (nodes d !! 0) as [[]|]; simpl in *; done.
  - simpl in Hc. apply lookup_lt_is_Some in Hc as [T HT].
    exists (Tag_bs4_tag T). simpl. rewrite HT. split; [done |].
    specialize (Hb t T HT).
    destruct (nodes d !! Tag_bs4_tag T) as [[]|]; simpl in *; done.
Qed.

Lemma wf_init (bs : parser) (args : list value) (nl2br : bool)
    (kwargs : list (string * value)) (d : SimpleDoc) :
  SimpleDoc__init__ bs args nl2br kwargs = Ok d → wf d.
Proof.
  unfold SimpleDoc__init__. repeat case_match; try done; intros [= <-];
    (split; [done |]; split; [intros t T Hl; simpl in Hl; by rewrite lookup_nil in Hl |];
     split; [| done]; intros t T r Hl; simpl in Hl; by rewrite lookup_nil in Hl).
Qed.

(** A change of the store that keeps every object of [d] at its index and
    of its kind keeps the document reachable. *)
Lemma wf_set_nodes (f : list node → list node) (d : SimpleDoc) :
  (∀ i n, nodes d !! i = Some n →
          node_kind <$> f (nodes d) !! i = Some (node_kind n)) →
  wf d → wf (set_nodes f d).
Proof.
  intros Hf (H0 & Hb & Hp & Hc). split; [| split; [| split]]; simpl.
  - destruct (nodes d !! 0) as [n|] eqn:E; [| done].
    rewrite (Hf 0 n E). simpl in H0. congruence.
  - intros t T HT. specialize (Hb t T HT).
    destruct (nodes d !! Tag_bs4_tag T) as [n|] eqn:E; [| done].
    rewrite (Hf _ n E). simpl in Hb. congruence.
  - intros t T r HT Hr. by apply (Hp t T r).
  - done.
Qed.

Lemma wf_push (n : node) (d : SimpleDoc) : wf d → wf (set_nodes (λ ns, ns ++ [n]) d).
Proof.
  apply wf_set_nodes. intros i m Hm. by rewrite (lookup_app_l_Some _ _ _ _ Hm).
Qed.

Lemma wf_alter (g : node → node) (i : nat) (d : SimpleDoc) :
  (∀ n, node_kind (g n) = node_kind n) → wf d → wf (set_nodes (alter g i) d).
Proof.
  intros Hg. apply wf_set_nodes. intros j m Hm.
  rewrite list_lookup_alter. case_decide; [subst |]; rewrite Hm; simpl; by rewrite ?Hg.
Qed.

Lemma node_kind_add_child (c : nat) (n : node) : node_kind (add_child c n) = node_kind n.
Proof. by destruct n. Qed.

Lemma node_kind_update_attrs (a : gmap string value) (n : node) :
  node_kind (update_attrs a n) = node_kind n.
Proof. by destruct n. Qed.

Lemma node_kind_set_can_be_empty (n : node) : node_kind (set_can_be_empty n) = node_kind n.
Proof. by destruct n. Qed.

Lemma wf_append (r : ref) (c : nat) (d : SimpleDoc) : wf d → wf (_append r c d).
Proof.
  intros H. unfold _append. destruct (node_of d r); [| done].
  apply wf_alter; [apply node_kind_add_child | done].
Qed.

Lemma wf_set_Tag_attrs (g : gmap string value → gmap string value) (t : nat)
    (d : SimpleDoc) :
  wf d → wf (set_tags (alter (set_Tag_attrs g) t) d).
Proof.
  intros (H0 & Hb & Hp & Hc).
  assert (∀ i T', alter (set_Tag_attrs g) t (tags d) !! i = Some T' →
            ∃ T, tags d !! i = Some T ∧ Tag_bs4_tag T' = Tag_bs4_tag T ∧
                 Tag_parent_tag T' = Tag_parent_tag T) as Hl.
  { intros i T'. destruct (decide (t = i)) as [<- | Hne].
    - rewrite list_lookup_alter_eq.
      destruct (tags d !! t) as [T|]; [| done]. intros [= <-]. by exists T.
    - rewrite list_lookup_alter_ne by done. by eauto. }
  assert (∀ r, valid_ref d r →
            valid_ref (set_tags (alter (set_Tag_attrs g) t) d) r) as Hv.
  { intros [|i]; simpl; [done |]. by rewrite length_alter. }
  split; [done |]. split; [| split; [| by apply Hv]]; simpl.
  - intros i T' (T & HT & -> & _)%Hl. by apply (Hb i T).
  - intros i T' r (T & HT & _ & ->)%Hl Hr. apply Hv. by apply (Hp i T r).
Qed.

Lemma keeps_ret {A} (a : A) : keeps (ret a).
Proof. by intros d d' r H [= <- <-]. Qed.

Lemma keeps_raise {A} (e : exn) : keeps (@raise A e).
Proof. by intros d d' r H [= <- <-]. Qed.

Lemma keeps_lift {A} (o : outcome A) : keeps (lift o).
Proof. by intros d d' r H [= <- <-]. Qed.

Lemma keeps_bind {A B} (m : M A) (k : A → M B) :
  keeps m → (∀ a, keeps (k a)) → keeps (bind m k).
Proof.
  intros Hm Hk d d' r Hwf. unfold bind.
  destruct (m d) as [d1 [a|e]] eqn:E; intros H.
  - apply (Hk a d1 d' r); [by apply (Hm _ _ _ Hwf E) | done].
  - injection H as <- <-. by apply (Hm _ _ _ Hwf E).
Qed.

Lemma keeps_for_each {A} (l : list A) (body : A → M unit) :
  (∀ x, keeps (body x)) → keeps (for_each l body).
Proof.
  intros Hb. induction l as [|x l IH]; simpl; [apply keeps_ret |].
  apply keeps_bind; [apply Hb | intros _; apply IH].
Qed.

Lemma keeps_case {A} (m : M A) :
  (∀ d, ∃ m', keeps m' ∧ m d = m' d) → keeps m.
Proof.
  intros H d d' r Hwf E. destruct (H d) as (m' & Hm' & Heq).
  rewrite Heq in E. by apply (Hm' _ _ _ Hwf E).
Qed.

Lemma keeps_append_new (n : node) : keeps (append_new n).
Proof.
  intros d d' r Hwf [= <- <-]. unfold alloc. simpl.
  by apply wf_append, wf_push.
Qed.

Lemma keeps_new_tag (be : string → bool) (tag_name : string) : keeps (new_tag be tag_name).
Proof. intros d d' r Hwf [= <- <-]. by apply wf_push. Qed.

Lemma keeps_stag (be : string → bool) (tag_name : string) (args : list value)
    (kwargs : list (string * value)) : keeps (stag be tag_name args kwargs).
Proof.
  unfold stag. apply keeps_bind; [apply keeps_new_tag |]. intros i.
  apply keeps_bind.
  - destruct args, kwargs; try apply keeps_ret;
      (apply keeps_bind; [apply keeps_lift |]; intros a;
       apply keeps_bind; [apply keeps_lift |]; intros a';
       intros d d' r Hwf [= <- <-];
       by apply wf_alter; [apply node_kind_update_attrs |]).
  - intros _. apply keeps_bind.
    + intros d d' r Hwf [= <- <-].
      by apply wf_alter; [apply node_kind_set_can_be_empty |].
    + intros _ d d' r Hwf [= <- <-]. by apply wf_append.
Qed.

Lemma keeps_text (be : string → bool) (strgs : list value) : keeps (text be strgs).
Proof.
  apply keeps_for_each. intros strg. apply keeps_case. intros d. unfold text_one.
  destruct (_nl2br d).
  - destruct strg; try (exists (raise TypeError); split; [apply keeps_raise | done]).
    eexists; split; [| reflexivity].
    apply keeps_bind.
    + apply keeps_for_each. intros x. apply keeps_bind; [apply keeps_append_new |].
      intros _. apply keeps_stag.
    + intros _. destruct (last _); [apply keeps_append_new | apply keeps_raise].
  - eexists; split; [| reflexivity].
    apply keeps_bind; [apply keeps_lift | intros s; apply keeps_append_new].
Qed.

Lemma keeps_asis (bs : parser) (strgs : list value) : keeps (asis bs strgs).
Proof.
  apply keeps_for_each. intros x. apply keeps_case. intros d.
  assert (∀ kw, ∃ m',
            keeps m' ∧
            match bs [x] kw with
            | Ok n => for_each (seq 0 n) (λ i, append_new (Parsed [x] kw i)) d
            | Raise e => (d, Raise e)
            end = m' d) as H.
  { intros kw. destruct (bs [x] kw) as [n|e].
    - eexists; split; [| reflexivity].
      apply keeps_for_each. intros i. apply keeps_append_new.
    - exists (raise e); split; [apply keeps_raise | done]. }
  destruct x; try apply H.
  exists (raise TypeError); split; [apply keeps_raise | done].
Qed.

Lemma keeps_attr (args : list value) (kwargs : list (string * value)) :
  keeps (attr args kwargs).
Proof.
  intros d d' r Hwf. unfold attr.
  destruct (current_tag d) as [|t]; [by intros [= <- <-] |].
  destruct (_attributes args kwargs) as [a|e]; intros [= <- <-]; [| done].
  by apply wf_set_Tag_attrs.
Qed.

Lemma keeps_cdata (strg : value) (safe : bool) : keeps (cdata strg safe).
Proof.
  unfold cdata. destruct safe.
  - apply keeps_bind; [apply keeps_lift | intros s; apply keeps_append_new].
  - destruct strg; try apply keeps_raise.
    apply keeps_for_each. intros c. apply keeps_append_new.
Qed.

Lemma keeps_get_classes : keeps _get_classes.
Proof.
  intros d d' r Hwf. unfold _get_classes. repeat case_match; by intros [= <- <-].
Qed.

Lemma keeps_set_classes (so : pyset → list string) (X : pyset) :
  keeps (_set_classes so X).
Proof.
  intros d d' r Hwf. unfold _set_classes.
  destruct (bytes_members X); [by intros [= <- <-] |].
  destruct (current_tag d) as [|t]; [by intros [= <- <-] |].
  case_bool_decide; intros [= <- <-]; by apply wf_set_Tag_attrs.
Qed.

Lemma valid_ref_mono (d d' : SimpleDoc) (r : ref) :
  length (tags d) ≤ length (tags d') → valid_ref d r → valid_ref d' r.
Proof. destruct r; simpl; [done | lia]. Qed.

Lemma keeps_tag (be : string → bool) (tag_name : string) (args : list value)
    (kwargs : list (string * value)) : keeps (tag be tag_name args kwargs).
Proof.
  intros d d' r (H0 & Hb & Hp & Hc).
  destruct (_attributes args kwargs) as [a|e] eqn:Ha.
  2:{ rewrite (tag_raise _ _ _ _ e) by done. by intros [= <- <-]. }
  rewrite (tag_ok _ _ _ _ a) by done. intros [= <- <-].
  split; [| split; [| split]]; simpl.
  - destruct (nodes d !! 0) as [n|] eqn:E; [| done].
    by rewrite (lookup_app_l_Some _ _ _ _ E).
  - intros t T [HT | [_ HT]]%lookup_app_Some.
    + specialize (Hb t T HT).
      destruct (nodes d !! Tag_bs4_tag T) as [n|] eqn:E; [| done].
      by rewrite (lookup_app_l_Some _ _ _ _ E).
    + apply list_lookup_singleton_Some in HT as [_ <-].
      simpl. by rewrite list_lookup_middle.
  - intros t T r [HT | [_ HT]]%lookup_app_Some Hr;
      [| by apply list_lookup_singleton_Some in HT as [_ <-]].
    eapply valid_ref_mono; [| by apply (Hp t T r)].
    simpl. rewrite length_app. lia.
  - eapply valid_ref_mono; [| exact Hc]. simpl. rewrite length_app. lia.
Qed.

Lemma keeps_enter (self : nat) : keeps (Tag__enter__ self).
Proof.
  intros d d' r Hwf. unfold Tag__enter__.
  destruct (tags d !! self) as [T|] eqn:HT; intros [= <- <-]; [| done].
  apply wf_append. destruct Hwf as (H0 & Hb & Hp & Hc).
  assert (∀ i T', alter (set_Tag_parent_tag (current_tag d)) self (tags d) !! i = Some T' →
            ∃ T0, tags d !! i = Some T0 ∧ Tag_bs4_tag T' = Tag_bs4_tag T0 ∧
                  (Tag_parent_tag T' = Tag_parent_tag T0 ∨
                   Tag_parent_tag T' = Some (current_tag d))) as Hl.
  { intros i T'. destruct (decide (self = i)) as [<- | Hne].
    - rewrite list_lookup_alter_eq, HT. intros [= <-]. exists T. auto.
    - rewrite list_lookup_alter_ne by done. by eauto. }
  split; [done |]. split; [| split]; simpl.
  - intros i T' (T0 & HT0 & -> & _)%Hl. by apply (Hb i T0).
  - intros i T' r (T0 & HT0 & _ & Hpar)%Hl Hr.
    eapply (valid_ref_mono d); [simpl; by rewrite length_alter |].
    destruct Hpar as [Hpar | Hpar]; rewrite Hpar in Hr.
    + by apply (Hp i T0 r).
    + by injection Hr as <-.
  - rewrite length_alter. by eapply lookup_lt_Some.
Qed.

Lemma keeps_exit (self : nat) (value : option exn) : keeps (Tag__exit__ self value).
Proof.
  intros d d' r Hwf. unfold Tag__exit__.
  destruct value; [by intros [= <- <-] |].
  destruct (tags d !! self) as [T|] eqn:HT; [| by intros [= <- <-]].
  assert (wf (if bool_decide (size (Tag_attrs T) = 0) then d
              else set_nodes (alter (update_attrs (Tag_attrs T)) (Tag_bs4_tag T)) d))
    as Hwf1.
  { case_bool_decide; [done |]. by apply wf_alter; [apply node_kind_update_attrs |]. }
  destruct (Tag_parent_tag T) as [p|] eqn:Hpar; intros [= <- <-]; [| done].
  assert (valid_ref d p) as Hv.
  { destruct Hwf as (_ & _ & Hp & _). by apply (Hp self T p). }
  destruct Hwf1 as (H0 & Hb & Hp & Hc).
  split; [done |]. split; [done |]. split; [done |].
  simpl. by case_bool_decide.
Qed.

Lemma keeps_with_block (mgr : M nat) (body : M unit) :
  keeps mgr → keeps body → keeps (with_block mgr body).
Proof.
  intros Hm Hb d d' r Hwf. unfold with_block.
  destruct (mgr d) as [d1 [self|e]] eqn:E1;
    [| intros [= <- <-]; by apply (Hm _ _ _ Hwf E1)].
  pose proof (Hm _ _ _ Hwf E1) as Hwf1.
  destruct (Tag__enter__ self d1) as [d2 [[]|e]] eqn:E2;
    [| intros [= <- <-]; by apply (keeps_enter _ _ _ _ Hwf1 E2)].
  pose proof (keeps_enter _ _ _ _ Hwf1 E2) as Hwf2.
  destruct (body d2) as [d3 [[]|e]] eqn:E3; pose proof (Hb _ _ _ Hwf2 E3) as Hwf3.
  - intros E4. by apply (keeps_exit _ _ _ _ _ Hwf3 E4).
  - destruct (Tag__exit__ self (Some e) d3) as [d4 [[]|e']] eqn:E4;
      intros [= <- <-]; by apply (keeps_exit _ _ _ _ _ Hwf3 E4).
Qed.

Lemma keeps_exec (be : string → bool) (so : pyset → list string) (bs : parser) (c : cmd) :
  keeps (exec be so bs c).
Proof.
  induction c as [c IH] using cmd_nested_ind.
  destruct c as [strgs|strgs|args kwargs|tag_name args kwargs|strg safe
                |classes|classes|elem active|e|tag_name args kwargs body].
  - apply keeps_text.
  - apply keeps_asis.
  - apply keeps_attr.
  - apply keeps_stag.
  - apply keeps_cdata.
  - apply keeps_bind; [apply keeps_get_classes | intros; apply keeps_set_classes].
  - apply keeps_bind; [apply keeps_get_classes | intros; apply keeps_set_classes].
  - apply keeps_bind; [apply keeps_get_classes | intros; apply keeps_set_classes].
  - apply keeps_raise.
  - rewrite exec_With. apply keeps_with_block; [apply keeps_tag |].
    induction IH as [|c cs Hc _ IHcs]; simpl; [apply keeps_ret |].
    apply keeps_bind; [done | by intros _].
Qed.

Lemma keeps_run (be : string → bool) (so : pyset → list string) (bs : parser) (cs : list cmd) :
  keeps (run be so bs cs).
Proof.
  induction cs as [|c cs IH]; simpl; [apply keeps_ret |].
  apply keeps_bind; [apply keeps_exec | by intros _].
Qed.

(** Every document a session reaches, from the constructor through any
    commands, returning or raising, has its current tag at a soup or
    element of the store: the hypothesis the statements on appending make
    holds throughout. *)
Lemma session_insertion_point (be : string → bool) (so : pyset → list string) (bs : parser)
    (args : list value) (nl2br : bool) (kwargs : list (string * value))
    (cs : list cmd) (d d' : SimpleDoc) (r : outcome unit) :
  SimpleDoc__init__ bs args nl2br kwargs = Ok d →
  run be so bs cs d = (d', r) →
  ∃ p, insertion_point d' p.
Proof.
  intros Hinit Hrun. apply wf_insertion_point.
  apply (keeps_run be so bs cs d d' r); [by eapply wf_init | done].
Qed.

(** ** The repository's tests, replayed on the embedding *)

Example test_cdata_end :
  cdata_sections (Py.split "A CDATA section should end with ]]>" "]]>")
  = ["A CDATA section should end with ]]"; ">"].
Proof. reflexivity. Qed.

Example test_cdata_plain :
  cdata_sections (Py.split "6 > 8 & 54" "]]>") = ["6 > 8 & 54"].
Proof. reflexivity. Qed.

Example test_text_nl2br :
  nl2br_nodes (Py.newline_split ("Hello" +:+ LF +:+ "world!"))
  = [NavigableString "Hello"; empty_element "br" ∅; NavigableString "world!"].
Proof. reflexivity. Qed.

Example test_text_crlf :
  Py.newline_split ("One" +:+ CRLF +:+ "Two" +:+ CRLF +:+ "Three" +:+ CRLF +:+ CRLF)
  = ["One"; "Two"; "Three"; ""; ""].
Proof. reflexivity. Qed.

Example test_text_escape :
  html_escape (VStr "1 < 2 > 1") = Ok "1 &lt; 2 &gt; 1" ∧
  html_escape (VStr "&") = Ok "&amp;" ∧
  html_escape (VInt (-16)) = Ok "-16".
Proof. by vm_compute. Qed.

Example test_attrs_stag :
  ∃ a, stag no_void "img" [] [("src", VStr "squirrel.jpg"); ("klass", VStr "animal")]
         (new_doc false)
       = (append_nodes 0 [empty_element "img" a] (new_doc false), Ok tt) ∧
       a !! "class" = Some (VStr "animal") ∧ a !! "klass" = None ∧
       a !! "src" = Some (VStr "squirrel.jpg").
Proof. eexists. split; [by vm_compute |]. by vm_compute. Qed.

Example test_attrs_no_value :
  _attributes [VStr "raised"] [] = Ok {["raised" := ATTR_NO_VALUE]}.
Proof. reflexivity. Qed.

Example test_html_classes :
  ∃ d' T,
    run no_void by_elements (parses_to 0)
      [With "p" [] [("klass", VStr "news")]
         [AddClass ["highlight"; "today"]; DiscardClass ["news"];
          ToggleClass "active" true;
          With "a" [] [("href", VStr "/"); ("klass", VStr "small useless")]
            [DiscardClass ["useless"]];
          With "a" [] [("href", VStr "/"); ("klass", VStr "important")]
            [DiscardClass ["important"]]]]
      (new_doc false) = (d', Ok tt) ∧
    current_tag d' = DocumentRoot ∧
    children_of d' 0 = [1] ∧ children_of d' 1 = [2; 3] ∧
    (attrs <$> (match nodes d' !! 1 with Some (Element e) => Some e | _ => None end)
     = Some T) ∧
    class_tokens T = {["highlight"; "today"; "active"]} ∧
    (class_tokens <$> (attrs <$> (match nodes d' !! 2 with
                                  | Some (Element e) => Some e | _ => None end))
     = Some {["small"]}) ∧
    (attrs <$> (match nodes d' !! 3 with Some (Element e) => Some e | _ => None end)
     = Some {["href" := VStr "/"]}).
Proof.
  eexists _, _. split; [by vm_compute |].
  split; [reflexivity |]. split; [reflexivity |]. split; [reflexivity |].
  split; [reflexivity |]. split; [by vm_compute |]. split; by vm_compute.
Qed.

(** [line] is a block around one [text] call, and a scope like any other. *)
Lemma scoped_line (be : string → bool) (tag_name : string) (text_content : value)
    (args : list value) (kwargs : list (string * value)) :
  scoped (line be tag_name text_content args kwargs).
Proof. apply scoped_with_block, leaf_scoped, leaf_text. Qed.

(** * The claims *)

(** ** CDATA *)

(** C3.  For every string [s], [cdata(s, safe=False)] appends one or more
    CDATA sections to the current insertion point; no section's content
    contains the terminator ["]]>"], and the contents of the sections, glued
    together in order, are exactly [s], however many terminators [s] holds
    and wherever they sit. *)
Theorem cdata_unsafe_round_trip (s : string) (d : SimpleDoc) (p : nat) :
  insertion_point d p →
  let sections := cdata_sections (Py.split s "]]>") in
  cdata (VStr s) false d = (append_nodes p (CData <$> sections) d, Ok tt) ∧
  children_of (append_nodes p (CData <$> sections) d) p
  = children_of d p ++ seq (length (nodes d)) (length sections) ∧
  0 < length sections ∧
  Forall (λ c, Py.contains "]]>" c = false) sections ∧
  Py.concat sections = s.
Proof.
  intros Hi sections. split; [| split; [| split; [| split]]].
  - unfold cdata. by apply for_each_append_new.
  - rewrite append_nodes_children by done. by rewrite length_fmap.
  - unfold sections, cdata_sections. rewrite length_imap.
    pose proof (split_go_nonempty "]]>" 0 s) as Hne. unfold Py.split.
    destruct (Py.split_go "]]>" 0 s); [done | simpl; lia].
  - by apply cdata_sections_free, split_pieces_free.
  - unfold sections. rewrite cdata_sections_concat. by apply join_split.
Qed.

Lemma cdata_unsafe_round_trip_witness :
  insertion_point (new_doc false) 0 ∧
  cdata (VStr "a]]>]]>b") false (new_doc false)
  = (append_nodes 0 (CData <$> ["a]]"; ">]]"; ">b"]) (new_doc false), Ok tt) ∧
  Py.concat ["a]]"; ">]]"; ">b"] = "a]]>]]>b".
Proof.
  pose proof (cdata_unsafe_round_trip "a]]>]]>b" (new_doc false) 0
                (new_doc_insertion_point false)) as (H1 & _ & _ & _ & H2).
  split; [apply new_doc_insertion_point |]. split; [exact H1 | exact H2].
Defined.

(** ** Newline-to-break mode *)

(** C4.  In newline-to-break mode [text] splits every string value at each
    line feed, a carriage return right before it being part of the
    separator; every segment but the last becomes a text node followed at
    once by a self-closing [br] element, and the last segment becomes a
    text node even when it is empty.  Three line feeds give three [br]
    elements with nothing but empty text nodes before and between them, and
    an empty text node at the end. *)
Theorem text_nl2br (be : string → bool) (ss : list string) (d : SimpleDoc) (p : nat) :
  _nl2br d = true → insertion_point d p →
  text be (VStr <$> ss) d
  = (append_nodes p (ss ≫= λ s, nl2br_nodes (Py.newline_split s)) d, Ok tt) ∧
  (∀ s, s ∈ ss →
     Forall (λ seg, Py.contains (String "010" "") seg = false) (Py.newline_split s) ∧
     Py.join (String "010" "") (Py.newline_split s) = crlf_to_lf s ∧
     ∃ segs last_seg,
       Py.newline_split s = segs ++ [last_seg] ∧
       nl2br_nodes (Py.newline_split s)
       = (segs ≫= λ seg, [NavigableString seg; empty_element "br" ∅])
         ++ [NavigableString last_seg]) ∧
  let lf := String "010" "" in
  nl2br_nodes (Py.newline_split (lf +:+ lf +:+ lf))
  = [NavigableString ""; empty_element "br" ∅;
     NavigableString ""; empty_element "br" ∅;
     NavigableString ""; empty_element "br" ∅;
     NavigableString ""] ∧
  filter (λ n, is_empty_text n = false)
         (nl2br_nodes (Py.newline_split (lf +:+ lf +:+ lf)))
  = [empty_element "br" ∅; empty_element "br" ∅; empty_element "br" ∅].
Proof.
  intros Hnl Hi. split; [| split; [| split]].
  - rewrite (text_spec be ss d p Hi). unfold text_nodes. by rewrite Hnl.
  - intros s _. split; [apply newline_split_free |].
    split; [apply newline_split_join |].
    destruct (newline_split_last s) as [l Hl].
    apply last_Some in Hl as [segs Hs].
    exists segs, l. split; [done |].
    unfold nl2br_nodes. rewrite Hs, removelast_last, last_snoc. done.
  - reflexivity.
  - reflexivity.
Qed.

Lemma text_nl2br_witness :
  _nl2br (new_doc true) = true ∧ insertion_point (new_doc true) 0 ∧
  text no_void [VStr (String "010" (String "010" (String "010" "")))] (new_doc true)
  = ({| nodes := [Soup [1; 2; 3; 4; 5; 6; 7];
                  NavigableString ""; empty_element "br" ∅;
                  NavigableString ""; empty_element "br" ∅;
                  NavigableString ""; empty_element "br" ∅;
                  NavigableString ""];
        tags := []; current_tag := DocumentRoot;
        features := VStr "lxml"; _nl2br := true |}, Ok tt).
Proof.
  split; [reflexivity |]. split; [apply new_doc_insertion_point |].
  pose proof (text_nl2br no_void [String "010" (String "010" (String "010" ""))]
                (new_doc true) 0 eq_refl (new_doc_insertion_point true))
    as [H _].
  etrans; [exact H |]. reflexivity.
Defined.

(** ** Self-closing tags *)

Lemma stag_ok_inv (be : string → bool) (tag_name : string) (args : list value)
    (kwargs : list (string * value)) (d d' : SimpleDoc) :
  stag be tag_name args kwargs d = (d', Ok tt) →
  ∃ m m', _attributes args kwargs = Ok m ∧
          dict_to_attrs (attribute_keys args kwargs) m = Ok m'.
Proof.
  intros E.
  destruct (_attributes args kwargs) as [m|e] eqn:Hm.
  - destruct (dict_to_attrs (attribute_keys args kwargs) m) as [m'|e] eqn:Hm';
      [by eauto |].
    exfalso. unfold stag, bind, lift, new_tag in E.
    destruct args as [|a0 args], kwargs as [|k0 kwargs];
      [injection Hm as <-; by rewrite dict_to_attrs_empty in Hm' | | |];
      by rewrite Hm, Hm' in E.
  - exfalso. unfold stag, bind, lift, new_tag in E.
    destruct args as [|a0 args], kwargs as [|k0 kwargs];
      [done | | |]; by rewrite Hm in E.
Qed.

(** C9.  [stag] never moves the current insertion point, whether it returns
    or raises.  When it returns, the new element has been appended to the
    current insertion point with [can_be_empty_element] set and no
    children, and what [text] writes right after it becomes the next
    children of the same insertion point: siblings of the self-closed
    element, which stays childless. *)
Theorem stag_keeps_insertion_point (be : string → bool) (tag_name : string)
    (args : list value) (kwargs : list (string * value)) (d : SimpleDoc) :
  current_tag (stag be tag_name args kwargs d).1 = current_tag d ∧
  ∀ p d', insertion_point d p →
    stag be tag_name args kwargs d = (d', Ok tt) →
    let new := length (nodes d) in
    (∃ a, nodes d' !! new = Some (empty_element tag_name a)) ∧
    children_of d' p = children_of d p ++ [new] ∧
    insertion_point d' p ∧
    ∀ s, ∃ d'',
      text be [VStr s] d' = (d'', Ok tt) ∧
      children_of d'' p
      = children_of d p ++ [new]
        ++ seq (S new) (length (text_nodes (_nl2br d) s)) ∧
      children_of d'' new = [] ∧
      current_tag d'' = current_tag d.
Proof.
  split.
  { destruct (stag be tag_name args kwargs d) as [d' r] eqn:E.
    by destruct (leaf_stag _ _ _ _ _ _ _ E) as [H _]. }
  intros p d' Hi E new.
  destruct (stag_ok_inv _ _ _ _ _ _ E) as (m & m' & Hm & Hm').
  rewrite (stag_spec be tag_name args kwargs d p m m' Hi Hm Hm') in E.
  injection E as <-.
  pose proof (insertion_point_lt _ _ Hi) as Hp.
  pose proof (append_nodes_insertion_point p [empty_element tag_name m'] d Hi) as Hi'.
  split; [| split; [| split; [done |]]].
  - exists m'. unfold new.
    replace (length (nodes d)) with (length (nodes d) + 0) by lia.
    by rewrite append_nodes_lookup_new.
  - by rewrite append_nodes_children.
  - intros s. eexists. split; [apply (text_spec be [s] _ p Hi') |].
    simpl. rewrite app_nil_r.
    rewrite append_nodes_app by done.
    split; [| split; [| done]].
    + rewrite append_nodes_children by done. by rewrite length_app.
    + unfold children_of.
      replace new with (length (nodes d) + 0) by (unfold new; lia).
      by rewrite append_nodes_lookup_new.
Qed.

Lemma stag_keeps_insertion_point_witness :
  insertion_point (new_doc false) 0 ∧
  stag no_void "img" [] [("src", VStr "a.jpg")] (new_doc false)
  = (append_nodes 0 [empty_element "img" {["src" := VStr "a.jpg"]}] (new_doc false),
     Ok tt) ∧
  ∃ d'',
    text no_void [VStr "x"] (append_nodes 0
      [empty_element "img" {["src" := VStr "a.jpg"]}] (new_doc false)) = (d'', Ok tt) ∧
    children_of d'' 0 = [1; 2] ∧ children_of d'' 1 = [] ∧
    current_tag d'' = DocumentRoot.
Proof.
  assert (stag no_void "img" [] [("src", VStr "a.jpg")] (new_doc false)
          = (append_nodes 0 [empty_element "img" {["src" := VStr "a.jpg"]}]
               (new_doc false), Ok tt)) as E by (by vm_compute).
  split; [apply new_doc_insertion_point |]. split; [exact E |].
  destruct (stag_keeps_insertion_point no_void "img" [] [("src", VStr "a.jpg")]
              (new_doc false)) as [_ H].
  destruct (H 0 _ (new_doc_insertion_point false) E) as (_ & _ & _ & H').
  destruct (H' "x") as (d'' & H1 & H2 & H3 & H4).
  exists d''. split; [exact H1 |]. split; [exact H2 |]. split; [exact H3 | exact H4].
Defined.

(** ** Tag scopes *)

Lemma tag_enter_spec (be : string → bool) (tag_name : string) (args : list value)
    (kwargs : list (string * value)) (a : gmap string value) (d : SimpleDoc) (p : nat) :
  _attributes args kwargs = Ok a → insertion_point d p →
  ∃ d1 d2,
    tag be tag_name args kwargs d = (d1, Ok (length (tags d))) ∧
    Tag__enter__ (length (tags d)) d1 = (d2, Ok tt) ∧
    nodes d2
    = nodes (append_nodes p [Element {| name := tag_name; attrs := ∅;
                                        can_be_empty_element := be tag_name;
                                        contents := [] |}] d) ∧
    tags d2 = tags d ++ [{| Tag_name := tag_name; Tag_attrs := a;
                            Tag_bs4_tag := length (nodes d);
                            Tag_parent_tag := Some (current_tag d) |}] ∧
    current_tag d2 = TagRef (length (tags d)).
Proof.
  intros Ha Hi. pose proof (insertion_point_lt _ _ Hi) as Hp.
  destruct Hi as [Hcur _].
  eexists _, _. split; [by apply tag_ok |].
  unfold Tag__enter__. cbn [tags set_tags set_nodes].
  rewrite list_lookup_middle by done. cbn [current_tag set_tags set_nodes Tag_bs4_tag].
  split; [reflexivity |].
  assert (∀ T' E', node_of (set_current_tag (TagRef (length (tags d)))
            (set_tags (alter (set_Tag_parent_tag (current_tag d)) (length (tags d)))
              (set_tags (λ ts, ts ++ [T']) (set_nodes (λ ns, ns ++ [E']) d))))
            (current_tag d) = Some p) as Hn.
  { intros T' E'. destruct (current_tag d) as [|t]; [done |]. simpl in *.
    rewrite alter_last.
    destruct (tags d !! t) as [Tt|] eqn:Ht; [| done].
    by rewrite (lookup_app_l_Some _ _ _ _ Ht). }
  unfold _append. rewrite Hn. simpl.
  split; [by rewrite alter_app_l by done |].
  split; [| done]. by rewrite alter_last.
Qed.

(** C2.  A [with doc.tag(...)] block that returns, whatever commands and
    further blocks its body holds, leaves the current insertion point where
    it was before the block.  On entry the new element has been appended as
    the last child of the insertion point of that moment and has become the
    insertion point; the body ends with the insertion point still there,
    and the exit puts back the parent captured at entry. *)
Theorem tag_scope_balanced (be : string → bool) (so : pyset → list string) (bs : parser)
    (tag_name : string) (args : list value) (kwargs : list (string * value))
    (body : list cmd) (d d' : SimpleDoc) (p : nat) :
  insertion_point d p →
  exec be so bs (With tag_name args kwargs body) d = (d', Ok tt) →
  current_tag d' = current_tag d ∧
  ∃ d1 d2 d3 self,
    tag be tag_name args kwargs d = (d1, Ok self) ∧
    Tag__enter__ self d1 = (d2, Ok tt) ∧
    run be so bs body d2 = (d3, Ok tt) ∧
    Tag__exit__ self None d3 = (d', Ok tt) ∧
    nodes d2 !! length (nodes d)
    = Some (Element {| name := tag_name; attrs := ∅;
                       can_be_empty_element := be tag_name; contents := [] |}) ∧
    children_of d2 p = children_of d p ++ [length (nodes d)] ∧
    current_tag d2 = TagRef self ∧
    insertion_point d2 (length (nodes d)) ∧
    Tag_parent_tag <$> tags d2 !! self = Some (Some (current_tag d)) ∧
    current_tag d3 = TagRef self.
Proof.
  intros Hi E. split.
  { by destruct (scoped_exec be so bs _ _ _ _ E) as [_ H]. }
  rewrite exec_With in E. unfold with_block in E.
  destruct (_attributes args kwargs) as [a|e] eqn:Ha;
    [| by rewrite (tag_raise _ _ _ _ e) in E].
  destruct (tag_enter_spec be tag_name args kwargs a d p Ha Hi)
    as (d1 & d2 & H1 & H2 & Hn & Ht & Hc).
  rewrite H1, H2 in E.
  destruct (run be so bs body d2) as [d3 [[]|e]] eqn:E3.
  2:{ destruct (Tag__exit__ _ _ d3) as [d4 [[]|e']]; done. }
  exists d1, d2, d3, (length (tags d)).
  do 4 (split; [done |]).
  assert (nodes d2 !! length (nodes d) = Some (Element {| name := tag_name; attrs := ∅;
            can_be_empty_element := be tag_name; contents := [] |})) as Hnew.
  { rewrite Hn. replace (length (nodes d)) with (length (nodes d) + 0) at 1 by lia.
    by rewrite append_nodes_lookup_new. }
  split; [done |]. split.
  { unfold children_of. rewrite Hn. by apply (append_nodes_children p [_] d). }
  split; [done |]. split.
  { split; [| by rewrite Hnew]. rewrite Hc. simpl. rewrite Ht.
    by rewrite list_lookup_middle. }
  split; [rewrite Ht; by rewrite list_lookup_middle |].
  destruct (scoped_run be so bs body _ _ _ E3) as [_ H]. by rewrite H.
Qed.

Lemma tag_scope_balanced_witness :
  insertion_point (new_doc false) 0 ∧
  ∃ d',
    exec no_void by_elements (parses_to 0)
      (With "h1" [] [("id", VStr "main-title")]
         [With "a" [] [("href", VStr "/")] [Text [VStr "Hello world!"]]])
      (new_doc false) = (d', Ok tt) ∧
    current_tag d' = current_tag (new_doc false).
Proof.
  split; [apply new_doc_insertion_point |].
  eexists. split; [by vm_compute |].
  eapply (tag_scope_balanced no_void by_elements (parses_to 0) "h1" [] [("id", VStr "main-title")]
            [With "a" [] [("href", VStr "/")] [Text [VStr "Hello world!"]]]
            (new_doc false) _ 0 (new_doc_insertion_point false)).
  by vm_compute.
Defined.




(** ** Attribute arguments *)

Lemma attribute_pairs_bad (args : list value) :
  (∃ arg, arg ∈ args ∧ isinstance_tuple arg = false ∧ isinstance_str arg = false) →
  attribute_pairs args = Raise ValueError.
Proof.
  intros (arg & Hin & Ht & Hs).
  induction args as [|x args IH]; [by apply elem_of_nil in Hin |].
  apply elem_of_cons in Hin as [<- | Hin].
  - by destruct arg.
  - simpl. rewrite (IH Hin). by destruct x.
Qed.

(** Claim C5 as the specification has it fails on [doc.tag('div', 5)]: the
    error is a [ValueError], which is no [AttributeError]. *)
Lemma tag_bad_positional_counterexample :
  tag no_void "div" [VInt 5] [] (new_doc false) = (new_doc false, Raise ValueError) ∧
  ¬ ∃ e, (tag no_void "div" [VInt 5] [] (new_doc false)).2 = Raise e ∧
         is_AttributeError e = true.
Proof.
  split; [reflexivity |]. intros (e & He & Hk). simpl in He.
  injection He as <-. discriminate.
Qed.

(** C5, amended.  When some positional attribute argument is neither a
    tuple nor a string, [tag] raises [ValueError], which is not an
    [AttributeError], and leaves the document as it was: no element and no
    [Tag] object has been made. *)
Theorem tag_bad_positional_raises (be : string → bool) (tag_name : string)
    (args : list value) (kwargs : list (string * value)) (d : SimpleDoc) :
  (∃ arg, arg ∈ args ∧ isinstance_tuple arg = false ∧ isinstance_str arg = false) →
  _attributes args kwargs = Raise ValueError ∧
  tag be tag_name args kwargs d = (d, Raise ValueError) ∧
  is_AttributeError ValueError = false.
Proof.
  intros H. apply attribute_pairs_bad in H.
  assert (_attributes args kwargs = Raise ValueError) as Ha.
  { unfold _attributes. by rewrite H. }
  split; [done |]. split; [by apply tag_raise | done].
Qed.

Lemma tag_bad_positional_raises_witness :
  tag no_void "td" [VPair "data-search" (VStr "lemon"); VList []]
      [("id", VStr "16")] (new_doc false)
  = (new_doc false, Raise ValueError).
Proof.
  refine (proj1 (proj2 (tag_bad_positional_raises no_void "td"
            [VPair "data-search" (VStr "lemon"); VList []] [("id", VStr "16")]
            (new_doc false) _))).
  exists (VList []). split; [| by split].
  constructor. constructor.
Defined.

Lemma for_each_app {A} (l1 l2 : list A) (body : A → M unit) (d : SimpleDoc) :
  for_each (l1 ++ l2) body d = (for_each l1 body ;;; for_each l2 body) d.
Proof.
  revert d. induction l1 as [|x l1 IH]; intros d; simpl; [done |].
  unfold bind. destruct (body x d) as [d1 [[]|e]]; [| done].
  rewrite IH. done.
Qed.






(** ** The [klass] alias *)

Lemma dict_update_cons (m : gmap string value) (kv : string * value)
    (l : list (string * value)) :
  dict_update m (kv :: l) = dict_update (<[kv.1 := kv.2]> m) l.
Proof. reflexivity. Qed.

Lemma dict_update_lookup_notin (m : gmap string value) (l : list (string * value))
    (k : string) :
  k ∉ l.*1 → dict_update m l !! k = m !! k.
Proof.
  revert m. induction l as [|[k' v'] l IH]; intros m Hk; [done |].
  rewrite dict_update_cons. simpl in *.
  apply not_elem_of_cons in Hk as [Hne Hk].
  rewrite IH by done. by rewrite lookup_insert_ne.
Qed.


Lemma dict_update_lookup_nodup (m : gmap string value) (l : list (string * value))
    (k : string) (v : value) :
  NoDup l.*1 → (k, v) ∈ l → dict_update m l !! k = Some v.
Proof.
  revert m. induction l as [|[k' v'] l IH]; intros m Hnd Hin;
    [by apply elem_of_nil in Hin |].
  rewrite dict_update_cons. simpl in *.
  apply NoDup_cons in Hnd as [Hk' Hnd].
  apply elem_of_cons in Hin as [[= -> ->] | Hin].
  - rewrite dict_update_lookup_notin by done. by rewrite lookup_insert_eq.
  - by apply IH.
Qed.



Lemma rename_klass_nodup (kwargs : list (string * value)) :
  NoDup kwargs.*1 → "class" ∉ kwargs.*1 → NoDup (rename_klass <$> kwargs).*1.
Proof.
  induction kwargs as [|[k v] l IH]; simpl; [constructor |].
  intros [Hk Hnd]%NoDup_cons [Hc Hcl]%not_elem_of_cons.
  apply NoDup_cons. split; [| by apply IH].
  unfold rename_klass at 1. simpl.
  destruct (String.eqb_spec k "klass") as [-> | Hne]; simpl.
  - clear IH Hnd Hc. induction l as [|[k' v'] l IH]; simpl in *; [apply not_elem_of_nil |].
    apply not_elem_of_cons in Hk as [Hk1 Hk2].
    apply not_elem_of_cons in Hcl as [Hc1 Hc2].
    apply not_elem_of_cons. split; [| by apply IH].
    unfold rename_klass. simpl. destruct (String.eqb_spec k' "klass"); simpl; congruence.
  - clear IH Hnd. induction l as [|[k' v'] l IH]; simpl in *; [apply not_elem_of_nil |].
    apply not_elem_of_cons in Hk as [Hk1 Hk2].
    apply not_elem_of_cons in Hcl as [Hc1 Hc2].
    apply not_elem_of_cons. split; [| by apply IH].
    unfold rename_klass. simpl. destruct (String.eqb_spec k' "klass"); simpl; congruence.
Qed.

Lemma attribute_pairs_keys (args : list value) (lst : list (string * value))
    (k : string) :
  attribute_pairs args = Ok lst →
  (k ∈ lst.*1 ↔ VStr k ∈ args ∨ ∃ w, VPair k w ∈ args).
Proof.
  revert lst. induction args as [|x args IH]; intros lst H.
  - injection H as <-. split; [by intros ?%elem_of_nil |].
    intros [?%elem_of_nil | [w ?%elem_of_nil]]; done.
  - simpl in H. destruct x; try done;
      (destruct (attribute_pairs args) as [lst'|]; [| done]);
      injection H as <-; simpl; rewrite !elem_of_cons, (IH lst' eq_refl);
      split.
    + intros [-> | [H | [w H]]]; [by left; left | by left; right |].
      right. exists w. by apply elem_of_cons; right.
    + intros [[[= ->] | H] | [w [[=] | H]%elem_of_cons]]; eauto.
    + intros [-> | [H | [w H]]]; [right; exists x; by left | by left; right |].
      right. exists w. by apply elem_of_cons; right.
    + intros [[[=] | H] | [w [[= -> ->] | H]%elem_of_cons]]; eauto.
Qed.

(** ** The constructor *)

Lemma kw_set_get (key : string) (v : value) (kwargs : list (string * value)) :
  kw_get key kwargs = Some v → kw_set key v kwargs = kwargs.
Proof.
  induction kwargs as [|[k w] rest IH]; simpl; [done |].
  destruct (String.eqb k key); [by intros [= ->] |].
  intros H. by rewrite IH.
Qed.

(** Claim C10 as stated fails when the call also passes [stag_end]: the
    assertion on that keyword comes first. *)
Lemma init_positional_features_counterexample :
  SimpleDoc__init__ (parses_to 1) [VStr "<b></b>"; VStr "html.parser"] false
    [("stag_end", VStr ">")]
  = Raise AssertionError ∧
  SimpleDoc__init__ (parses_to 1) [VStr "<b></b>"; VStr "html.parser"] false
    [("stag_end", VStr ">")]
  ≠ Raise TypeError.
Proof. split; [reflexivity | discriminate]. Qed.

(** C10, amended.  A constructor call with two or more positional arguments
    and no [stag_end] keyword raises [TypeError] and makes no document,
    whatever the parser library would do: either the second argument has no
    length, or the assignment into the tuple of positional arguments fails.
    With [stag_end] among the keywords the assertion fails first.  With one
    positional argument, a non-empty string given as the [features] keyword
    goes to the parser library as it is, with the other keywords: when the
    library raises, so does the constructor, and otherwise the document
    keeps that string as its parser. *)
Theorem init_positional_features_raises (bs : parser) (args : list value)
    (nl2br : bool) (kwargs : list (string * value)) :
  1 < length args →
  (kw_get "stag_end" kwargs = None →
   SimpleDoc__init__ bs args nl2br kwargs = Raise TypeError) ∧
  (is_Some (kw_get "stag_end" kwargs) →
   SimpleDoc__init__ bs args nl2br kwargs = Raise AssertionError) ∧
  ∀ markup c f,
    kw_get "stag_end" kwargs = None →
    kw_get "features" kwargs = Some (VStr (String c f)) →
    SimpleDoc__init__ bs [markup] nl2br kwargs
    = match bs [markup] kwargs with
      | Ok n =>
          Ok {| nodes := Soup (seq 1 n) :: ((λ i, Parsed [markup] kwargs i) <$> seq 0 n);
                tags := []; current_tag := DocumentRoot;
                features := VStr (String c f); _nl2br := nl2br |}
      | Raise e => Raise e
      end.
Proof.
  intros Hlen. split; [| split].
  - intros Hs. unfold SimpleDoc__init__. rewrite Hs.
    rewrite !bool_decide_eq_true_2 by done.
    destruct (default VNone (args !! 1)) as [| | | |s| |l|ba b]; simpl; try done.
    + by destruct (String.length s).
    + by destruct (length l).
    + by destruct (length b).
  - intros [x Hx]. unfold SimpleDoc__init__. by rewrite Hx.
  - intros markup c f Hs Hf. unfold SimpleDoc__init__. rewrite Hs, Hf. simpl.
    by rewrite (kw_set_get _ _ _ Hf).
Qed.

Lemma init_positional_features_raises_witness :
  SimpleDoc__init__ (parses_to 1) [VStr "<b></b>"; VStr "html.parser"] false []
  = Raise TypeError.
Proof.
  refine (proj1 (init_positional_features_raises (parses_to 1)
            [VStr "<b></b>"; VStr "html.parser"] false [] _) eq_refl).
  simpl. lia.
Defined.

(** ** Class helpers *)






Lemma class_rewritten_other (X : gset string) (a a' : gmap string value) (k : string) :
  class_rewritten X a a' → k ≠ "class" → a' !! k = a !! k.
Proof.
  unfold class_rewritten. case_decide.
  - intros -> Hk. by rewrite lookup_delete_ne.
  - intros (l & _ & ->) Hk. by rewrite lookup_insert_ne.
Qed.









(** * Further properties of the code *)

(** ** Escaping *)

Lemma replace_app (c : ascii) (r a b : string) :
  Py.replace c r (a +:+ b) = Py.replace c r a +:+ Py.replace c r b.
Proof.
  induction a as [|x a IH]; [done |].
  rewrite str_app_cons. cbn [Py.replace]. rewrite IH.
  destruct (Ascii.eqb x c); [by rewrite str_app_assoc | done].
Qed.

Lemma replace_cons (c : ascii) (r : string) (a : ascii) (s : string) :
  Py.replace c r (String a s)
  = (if Ascii.eqb a c then r else String a "") +:+ Py.replace c r s.
Proof. cbn [Py.replace]. by destruct (Ascii.eqb a c). Qed.

Lemma html_entity_steps (c : ascii) :
  Py.replace ">" "&gt;"
    (Py.replace "<" "&lt;" (if Ascii.eqb c "&" then "&amp;" else String c ""))
  = html_entity c.
Proof.
  unfold html_entity.
  destruct (Ascii.eqb_spec c "&") as [-> | H1]; [reflexivity |].
  cbn [Py.replace].
  destruct (Ascii.eqb_spec c "<") as [-> | H2]; [reflexivity |].
  cbn [Py.replace].
  destruct (Ascii.eqb_spec c ">") as [-> | H3]; reflexivity.
Qed.

Lemma attr_entity_steps (c : ascii) :
  Py.replace "034" "&quot;"
    (Py.replace "<" "&lt;" (if Ascii.eqb c "&" then "&amp;" else String c ""))
  = attr_entity c.
Proof.
  unfold attr_entity.
  destruct (Ascii.eqb_spec c "&") as [-> | H1]; [reflexivity |].
  cbn [Py.replace].
  destruct (Ascii.eqb_spec c "<") as [-> | H2]; [reflexivity |].
  cbn [Py.replace].
  destruct (Ascii.eqb_spec c "034") as [-> | H3]; reflexivity.
Qed.

Lemma html_escape_steps (s : string) :
  Py.replace ">" "&gt;" (Py.replace "<" "&lt;" (Py.replace "&" "&amp;" s))
  = translate html_entity s.
Proof.
  induction s as [|c s IH]; [done |].
  rewrite replace_cons, !replace_app, IH. cbn [translate].
  by rewrite html_entity_steps.
Qed.

Lemma attr_escape_steps (s : string) :
  Py.replace "034" "&quot;" (Py.replace "<" "&lt;" (Py.replace "&" "&amp;" s))
  = translate attr_entity s.
Proof.
  induction s as [|c s IH]; [done |].
  rewrite replace_cons, !replace_app, IH. cbn [translate].
  by rewrite attr_entity_steps.
Qed.

Lemma has_char_app (c : ascii) (a b : string) :
  has_char c (a +:+ b) = has_char c a || has_char c b.
Proof.
  induction a as [|x a IH]; [done |].
  rewrite str_app_cons. simpl. rewrite IH. by rewrite orb_assoc.
Qed.

Lemma translate_free (f : ascii → string) (c : ascii) (s : string) :
  (∀ a, has_char c (f a) = false) → has_char c (translate f s) = false.
Proof.
  intros Hf. induction s as [|x s IH]; [done |].
  cbn [translate]. by rewrite has_char_app, Hf, IH.
Qed.

(** A table whose entries are not empty and of which none begins another
    can be read back: [translate] loses nothing. *)
Lemma translate_inj (f : ascii → string) (s1 s2 : string) :
  (∀ a, f a ≠ "") →
  (∀ a b x y, f a +:+ x = f b +:+ y → a = b) →
  translate f s1 = translate f s2 → s1 = s2.
Proof.
  intros Hne Hpf. revert s2. induction s1 as [|a s1 IH]; intros [|b s2] H; [done | | |].
  - cbn [translate] in H. specialize (Hne b). destruct (f b); [done | discriminate].
  - cbn [translate] in H. specialize (Hne a). destruct (f a); [done | discriminate].
  - cbn [translate] in H. pose proof (Hpf _ _ _ _ H) as <-.
    f_equal. apply IH. by eapply (inj (String.append (f a))).
Qed.

Lemma html_entity_prefix_free (a b : ascii) (x y : string) :
  html_entity a +:+ x = html_entity b +:+ y → a = b.
Proof.
  unfold html_entity.
  destruct (Ascii.eqb_spec a "&") as [-> | A1]; destruct (Ascii.eqb_spec b "&") as [-> | B1];
    [done | | |];
    repeat match goal with
    | |- context [Ascii.eqb ?c ?k] => destruct (Ascii.eqb_spec c k) as [-> | ?]
    end; rewrite ?str_app_cons, ?str_app_nil_l; intros [=]; congruence.
Qed.

Lemma attr_entity_prefix_free (a b : ascii) (x y : string) :
  attr_entity a +:+ x = attr_entity b +:+ y → a = b.
Proof.
  unfold attr_entity.
  destruct (Ascii.eqb_spec a "&") as [-> | A1]; destruct (Ascii.eqb_spec b "&") as [-> | B1];
    [done | | |];
    repeat match goal with
    | |- context [Ascii.eqb ?c ?k] => destruct (Ascii.eqb_spec c k) as [-> | ?]
    end; rewrite ?str_app_cons, ?str_app_nil_l; intros [=]; congruence.
Qed.

(** X1.  [html_escape] of a string is the string with each [&], [<] and [>]
    replaced by its entity, every other character kept: the three
    replacements in a row do not touch what an earlier one put in.  The
    result holds no [<] and no [>], and it equals the string exactly when
    the string holds none of the three characters. *)
Theorem html_escape_charwise (s : string) :
  html_escape (VStr s) = Ok (translate html_entity s) ∧
  has_char "<" (translate html_entity s) = false ∧
  has_char ">" (translate html_entity s) = false ∧
  (translate html_entity s = s ↔
   has_char "&" s = false ∧ has_char "<" s = false ∧ has_char ">" s = false).
Proof.
  split; [unfold html_escape; simpl; by rewrite html_escape_steps |].
  split; [apply translate_free; intros a; unfold html_entity; simpl;
          repeat case_match; simpl; rewrite ?orb_false_r; try done;
          by apply Ascii.eqb_neq; intros -> |].
  split; [apply translate_free; intros a; unfold html_entity; simpl;
          repeat case_match; simpl; rewrite ?orb_false_r; try done;
          by apply Ascii.eqb_neq; intros -> |].
  induction s as [|c s IH]; [done |].
  cbn [translate has_char]. unfold html_entity at 1.
  destruct (Ascii.eqb_spec c "&") as [-> | H1].
  { split; [| by intros [[=] _]]. rewrite !str_app_cons, str_app_nil_l. intros [= H].
    exfalso. assert (String.length (translate html_entity s) < String.length s) as Hl.
    { rewrite <- H at 2. simpl. lia. }
    clear -Hl. revert Hl. induction s as [|x s IH']; simpl; [lia |].
    cbn [translate]. rewrite str_app_length. unfold html_entity at 1.
    repeat case_match; simpl; lia. }
  destruct (Ascii.eqb_spec c "<") as [-> | H2].
  { split; [| by intros (_ & [=] & _)]. rewrite !str_app_cons. intros [=]. }
  destruct (Ascii.eqb_spec c ">") as [-> | H3].
  { split; [| by intros (_ & _ & [=])]. rewrite !str_app_cons. intros [=]. }
  rewrite str_app_cons, str_app_nil_l. simpl.
  split.
  - intros [= H]. by apply IH.
  - intros H. f_equal. by apply IH.
Qed.

(** X2.  [attr_escape] of a string is the string with each [&], [<] and
    double quote replaced by its entity, every other character kept, [>]
    among them.  The result holds no double quote and no [<]. *)
Theorem attr_escape_charwise (s : string) :
  attr_escape (VStr s) = Ok (translate attr_entity s) ∧
  has_char "034" (translate attr_entity s) = false ∧
  has_char "<" (translate attr_entity s) = false ∧
  has_char ">" (translate attr_entity s) = has_char ">" s.
Proof.
  split; [unfold attr_escape; simpl; by rewrite attr_escape_steps |].
  split; [apply translate_free; intros a; unfold attr_entity; simpl;
          repeat case_match; simpl; rewrite ?orb_false_r; try done;
          by apply Ascii.eqb_neq; intros -> |].
  split; [apply translate_free; intros a; unfold attr_entity; simpl;
          repeat case_match; simpl; rewrite ?orb_false_r; try done;
          by apply Ascii.eqb_neq; intros -> |].
  induction s as [|c s IH]; [done |].
  cbn [translate has_char]. rewrite has_char_app, IH. f_equal.
  unfold attr_entity.
  destruct (Ascii.eqb_spec c "&") as [-> | H1]; [done |].
  destruct (Ascii.eqb_spec c "<") as [-> | H2]; [done |].
  destruct (Ascii.eqb_spec c "034") as [-> | H3]; [done |].
  simpl. by rewrite orb_false_r.
Qed.

(** X3.  Both escapes lose nothing: two strings with the same escaped form
    are the same string. *)
Theorem escapes_injective (s1 s2 : string) :
  html_escape (VStr s1) = html_escape (VStr s2) ∨
  attr_escape (VStr s1) = attr_escape (VStr s2) →
  s1 = s2.
Proof.
  unfold html_escape, attr_escape. simpl.
  rewrite !html_escape_steps, !attr_escape_steps. intros [[= H] | [= H]].
  - eapply translate_inj; [| apply html_entity_prefix_free | exact H].
    intros a. unfold html_entity. by repeat case_match.
  - eapply translate_inj; [| apply attr_entity_prefix_free | exact H].
    intros a. unfold attr_entity. by repeat case_match.
Qed.

Lemma escapes_injective_witness :
  html_escape (VStr "1 < 2 > 1") = html_escape (VStr "1 < 2 > 1") ∧
  "1 < 2 > 1" = "1 < 2 > 1".
Proof.
  split; [reflexivity |].
  apply (escapes_injective "1 < 2 > 1" "1 < 2 > 1"). left. reflexivity.
Defined.

(** ** Attribute dictionaries *)

(** What [dict_to_attrs] makes of one value it accepts. *)
Lemma attr_item_ok (v w : value) :
  attr_item v = Ok w →
  (v = VNone ∨ isinstance_str v = true ∨ isinstance_number v = true) ∧
  (∀ z, v = VInt z → int_too_long z = false) ∧
  w = match v with
      | VNone => VNone
      | VStr s => VStr (translate attr_entity s)
      | VBool true => VStr "True"
      | VBool false => VStr "False"
      | VInt z => VStr (pretty z)
      | VFloat r => VStr r
      | _ => v
      end.
Proof.
  unfold attr_item, attr_escape, no_replace.
  destruct v as [|[]|z|r|s|k x|l|ba b]; simpl; try done;
    try (intros [= <-]; split; [by auto |]; split; [by intros ? [=] | done]).
  - destruct (int_too_long z) eqn:Hz; [done |]. intros [= <-].
    split; [by auto |]. split; [by intros ? [= <-] | done].
  - intros [= <-]. split; [by auto |]. split; [by intros ? [=] |].
    by rewrite attr_escape_steps.
  - by destruct (repr_too_long x).
  - by destruct (existsb repr_too_long l).
Qed.

(** The two ways [dict_to_attrs] rejects a value. *)
Lemma attr_item_raise (v : value) (e : exn) :
  attr_item v = Raise e →
  e = TypeError ∧ v ≠ VNone ∧ isinstance_str v = false ∧
    isinstance_number v = false ∧ repr_too_long v = false ∨
  e = ValueError ∧ isinstance_str v = false ∧ repr_too_long v = true.
Proof.
  unfold attr_item, attr_escape, no_replace.
  destruct v as [|[]|z|r|s|k x|l|ba b]; simpl; try done;
    try (intros [= <-]; by left).
  - destruct (int_too_long z) eqn:Hz; [| done]. intros [= <-]. by right.
  - destruct (repr_too_long x); intros [= <-]; [by right | by left].
  - destruct (existsb repr_too_long l); intros [= <-]; [by right | by left].
Qed.

Lemma first_rejected_None (keys : list string) (dct : gmap string value) :
  first_rejected keys dct = None ↔
  ∀ k v, k ∈ keys → dct !! k = Some v → ∃ w, attr_item v = Ok w.
Proof.
  induction keys as [|x keys IH]; simpl.
  - split; [by intros _ k v ?%elem_of_nil | done].
  - destruct (dct !! x) as [vx|] eqn:Hx; simpl.
    + destruct (attr_item vx) as [w|e] eqn:Hvx.
      * rewrite IH. split.
        -- intros H k v [-> | Hk]%elem_of_cons Hv; [| by eapply H].
           rewrite Hx in Hv. injection Hv as <-. by exists w.
        -- intros H k v Hk. apply H. by right.
      * split; [done |]. intros H.
        destruct (H x vx) as [w Hw]; [by left | done | congruence].
    + rewrite IH. split.
      * intros H k v [-> | Hk]%elem_of_cons Hv; [congruence | by eapply H].
      * intros H k v Hk. apply H. by right.
Qed.

Lemma first_rejected_Some (keys : list string) (dct : gmap string value) (e : exn) :
  first_rejected keys dct = Some e →
  ∃ pre k post v, keys = pre ++ k :: post ∧ dct !! k = Some v ∧
                  attr_item v = Raise e ∧ first_rejected pre dct = None.
Proof.
  induction keys as [|x keys IH]; simpl; [done |].
  destruct (dct !! x) as [vx|] eqn:Hx; simpl.
  - destruct (attr_item vx) as [w|e'] eqn:Hvx.
    + intros (pre & k & post & v & -> & Hk & Hv & Hpre)%IH.
      exists (x :: pre), k, post, v. do 3 (split; [done |]).
      simpl. by rewrite Hx; simpl; rewrite Hvx.
    + intros [= <-]. by exists [], x, keys, vx.
  - intros (pre & k & post & v & -> & Hk & Hv & Hpre)%IH.
    exists (x :: pre), k, post, v. do 3 (split; [done |]).
    simpl. by rewrite Hx.
Qed.


(** When [keys] has every key of the dictionary, a call that returns has
    escaped every value. *)
Lemma dict_to_attrs_ok (keys : list string) (dct m : gmap string value) :
  (∀ k, is_Some (dct !! k) → k ∈ keys) →
  dict_to_attrs keys dct = Ok m →
  ∀ k v, dct !! k = Some v → ∃ w, attr_item v = Ok w ∧ m !! k = Some w.
Proof.
  intros Hcover. unfold dict_to_attrs.
  destruct (first_rejected keys dct) eqn:E; [done |]. intros [= <-] k v Hk.
  destruct (proj1 (first_rejected_None keys dct) E k v) as [w Hw]; [by eauto | done |].
  exists w. split; [done |]. rewrite lookup_omap, Hk. simpl.
  unfold attr_item_opt. by rewrite Hw.
Qed.

(** X4.  [dict_to_attrs] on a dictionary that is gone through in the order
    [keys] keeps the keys.  A valueless attribute stays valueless, a number
    becomes its [str], a string is escaped by [attr_escape].  The call
    raises exactly when some value is rejected, with the error of the first
    such value in the order of the dictionary: [TypeError] for a value that
    is neither valueless, a string nor a number, [ValueError] when the
    value is, or holds, an [int] of more digits than [str] and [repr]
    convert. *)
Theorem dict_to_attrs_spec (keys : list string) (dct : gmap string value) :
  (∀ k, is_Some (dct !! k) → k ∈ keys) →
  match dict_to_attrs keys dct with
  | Ok m =>
      dom m = dom dct ∧
      ∀ k v, dct !! k = Some v →
        (v = VNone ∨ isinstance_str v = true ∨ isinstance_number v = true) ∧
        (∀ z, v = VInt z → int_too_long z = false) ∧
        m !! k = Some (match v with
                       | VNone => VNone
                       | VStr s => VStr (translate attr_entity s)
                       | VBool true => VStr "True"
                       | VBool false => VStr "False"
                       | VInt z => VStr (pretty z)
                       | VFloat r => VStr r
                       | _ => v
                       end)
  | Raise e =>
      ∃ pre k post v, keys = pre ++ k :: post ∧ dct !! k = Some v ∧
        (∀ k' v', k' ∈ pre → dct !! k' = Some v' → ∃ w, attr_item v' = Ok w) ∧
        (e = TypeError ∧ v ≠ VNone ∧ isinstance_str v = false ∧
           isinstance_number v = false ∧ repr_too_long v = false ∨
         e = ValueError ∧ isinstance_str v = false ∧ repr_too_long v = true)
  end.
Proof.
  intros Hcover. destruct (dict_to_attrs keys dct) as [m|e] eqn:E.
  - pose proof (dict_to_attrs_ok keys dct m Hcover E) as Hl.
    split.
    + unfold dict_to_attrs in E. destruct (first_rejected keys dct); [done |].
      injection E as <-. apply set_eq. intros k. rewrite !elem_of_dom. split.
      * intros [w Hw]. rewrite lookup_omap in Hw.
        destruct (dct !! k); [by eauto | done].
      * intros [v Hv]. destruct (Hl k v Hv) as (w & _ & Hw).
        rewrite lookup_omap, Hv in Hw. rewrite lookup_omap, Hv. by eauto.
    + intros k v Hk. destruct (Hl k v Hk) as (w & Hw & ->).
      destruct (attr_item_ok v w Hw) as (H1 & H2 & ->). done.
  - unfold dict_to_attrs in E. destruct (first_rejected keys dct) as [e'|] eqn:E'; [| done].
    injection E as <-.
    destruct (first_rejected_Some keys dct e' E')
      as (pre & k & post & v & Hkeys & Hk & Hv & Hpre).
    exists pre, k, post, v. do 2 (split; [done |]).
    split; [by apply first_rejected_None | by apply attr_item_raise].
Qed.

Lemma dict_to_attrs_spec_witness :
  dict_to_attrs ["alt"; "id"; "width"]
    {["alt" := VStr "a<b"; "id" := VList []; "width" := VNone]}
  = Raise TypeError.
Proof.
  pose proof (dict_to_attrs_spec ["alt"; "id"; "width"]
                {["alt" := VStr "a<b"; "id" := VList []; "width" := VNone]}) as H.
  destruct (dict_to_attrs _ _) as [m|e] eqn:E; [by vm_compute in E |].
  destruct H as (pre & k & post & v & _ & _ & _ & [[-> _] | [-> _]]).
  - intros k [v Hk]. rewrite !elem_of_cons.
    destruct (decide (k = "alt")) as [-> | H1]; [by left |].
    destruct (decide (k = "id")) as [-> | H2]; [by right; left |].
    destruct (decide (k = "width")) as [-> | H3]; [by right; right; left |].
    rewrite !lookup_insert_ne in Hk by done.
    by rewrite lookup_singleton_ne in Hk.
  - reflexivity.
  - by vm_compute in E.
Defined.




Lemma dict_update_dom (m : gmap string value) (l : list (string * value)) :
  dom (dict_update m l) = dom m ∪ list_to_set l.*1.
Proof.
  revert m. induction l as [|[k v] l IH]; intros m.
  - unfold dict_update. simpl. by rewrite (right_id_L ∅ (∪)).
  - rewrite dict_update_cons, IH. simpl. rewrite dom_insert_L.
    rewrite (comm_L (∪) {[k]} (dom m)). by rewrite (assoc_L (∪)).
Qed.

Lemma rename_klass_elem_ne (kwargs : list (string * value)) (k : string) (v : value) :
  k ≠ "klass" → (k, v) ∈ kwargs → (k, v) ∈ rename_klass <$> kwargs.
Proof.
  intros Hk H. apply list_elem_of_fmap. exists (k, v). split; [| done].
  unfold rename_klass. simpl. by destruct (String.eqb_spec k "klass").
Qed.

(** X5.  In [_attributes] a keyword argument wins over a positional
    argument of the same name: whatever the positional arguments are, a
    keyword other than [klass] and [class] is in the result with the value
    the call gave it.  The names in the result are the names of the
    positional pairs, the positional strings, and the keywords with [klass]
    read as [class]; a positional string has no value. *)
Theorem attributes_keywords_win (args : list value) (kwargs : list (string * value))
    (a : gmap string value) :
  NoDup kwargs.*1 →
  _attributes args kwargs = Ok a →
  (∀ k v, (k, v) ∈ kwargs → k ≠ "klass" → k ≠ "class" → a !! k = Some v) ∧
  (∀ k, k ∈ dom a ↔
        VStr k ∈ args ∨ (∃ w, VPair k w ∈ args) ∨ k ∈ (rename_klass <$> kwargs).*1) ∧
  (∀ k, VStr k ∈ args → (∀ w, VPair k w ∉ args) →
        k ∉ (rename_klass <$> kwargs).*1 → a !! k = Some ATTR_NO_VALUE).
Proof.
  intros Hnd Ha. unfold _attributes in Ha.
  destruct (attribute_pairs args) as [lst|] eqn:Hl; [| done]. injection Ha as <-.
  split; [| split].
  - intros k v Hin Hk1 Hk2.
    assert (∀ l : list (string * value), NoDup l.*1 → (k, v) ∈ l →
              ∀ m, dict_update m (rename_klass <$> l) !! k = Some v) as Hgen.
    { clear -Hk1 Hk2. induction l as [|[k' v'] l IH]; intros Hnd Hin m;
        [by apply elem_of_nil in Hin |].
      rewrite fmap_cons, dict_update_cons. simpl in Hnd.
      apply NoDup_cons in Hnd as [Hk' Hnd].
      apply elem_of_cons in Hin as [[= <- <-] | Hin]; [| by apply IH].
      assert (rename_klass (k, v) = (k, v)) as ->.
      { unfold rename_klass. simpl. by destruct (String.eqb_spec k "klass"). }
      simpl.
      rewrite dict_update_lookup_notin; [by rewrite lookup_insert_eq |].
      intros Hc. rewrite <- list_fmap_compose in Hc.
      apply list_elem_of_fmap in Hc as ([k3 v3] & Hk2' & Hin3).
      unfold rename_klass in Hk2'. simpl in Hk2'.
      destruct (String.eqb_spec k3 "klass") as [-> | Hne]; simpl in Hk2';
        [congruence |].
      subst k3. apply Hk'. apply list_elem_of_fmap. by exists (k, v3). }
    by apply Hgen.
  - intros k. rewrite dict_update_dom, elem_of_union, dict_update_dom.
    rewrite elem_of_union, dom_empty_L, !elem_of_list_to_set.
    rewrite (attribute_pairs_keys args lst k Hl).
    split; [intros [[[]%not_elem_of_empty | [? | ?]] | ?] | intros [? | [? | ?]]]; auto.
  - intros k Hs Hp Hk. rewrite dict_update_lookup_notin by done.
    clear Hk Hnd. revert lst Hl.
    assert (∀ args' lst m, attribute_pairs args' = Ok lst →
              (∀ w, VPair k w ∉ args') →
              (VStr k ∈ args' ∨ m !! k = Some ATTR_NO_VALUE) →
              dict_update m lst !! k = Some ATTR_NO_VALUE) as Hgen.
    { clear. induction args' as [|x args' IH]; intros lst m Hl Hp Hs.
      - injection Hl as <-. destruct Hs as [Hs | Hs]; [by apply elem_of_nil in Hs | done].
      - simpl in Hl.
        assert (∀ w, VPair k w ∉ args') as Hp'.
        { intros w Hw. apply (Hp w). by apply elem_of_cons; right. }
        destruct x; try done;
          (destruct (attribute_pairs args') as [lst'|] eqn:Hl'; [| done]);
          injection Hl as <-; rewrite dict_update_cons; simpl;
          apply (IH lst' _ eq_refl Hp').
        + destruct (decide (s = k)) as [-> | Hne].
          * right. by rewrite lookup_insert_eq.
          * destruct Hs as [[[=] | Hs]%elem_of_cons | Hs]; [done | by left |].
            right. by rewrite lookup_insert_ne.
        + destruct (decide (key = k)) as [-> | Hne].
          * exfalso. apply (Hp x). by apply elem_of_cons; left.
          * destruct Hs as [[[=] | Hs]%elem_of_cons | Hs]; [by left |].
            right. by rewrite lookup_insert_ne. }
    intros lst Hl. apply (Hgen args lst ∅ Hl Hp). by left.
Qed.

Lemma attributes_keywords_win_witness :
  ∃ a, _attributes [VPair "id" (VStr "1"); VStr "raised"] [("id", VStr "16")] = Ok a ∧
       a !! "id" = Some (VStr "16").
Proof.
  eexists. split; [reflexivity |].
  refine (proj1 (attributes_keywords_win [VPair "id" (VStr "1"); VStr "raised"]
                   [("id", VStr "16")] _ _ eq_refl) "id" (VStr "16") _ _ _).
  - apply NoDup_cons. split; [apply not_elem_of_nil | apply NoDup_nil_2].
  - constructor.
  - discriminate.
  - discriminate.
Defined.

(** ** The document root *)

(** X6.  With the current tag at the document root, [attr] and the three
    class helpers raise [DocumentRootError], which is an [AttributeError],
    and leave the document as it is.  [attr] does so before it looks at its
    arguments: malformed ones go unnoticed. *)
Theorem root_refuses_attributes (so : pyset → list string) (d : SimpleDoc)
    (args : list value) (kwargs : list (string * value))
    (classes : list string) (elem : string) (active : bool) :
  current_tag d = DocumentRoot →
  attr args kwargs d = (d, Raise DocumentRootError) ∧
  add_class so classes d = (d, Raise DocumentRootError) ∧
  discard_class so classes d = (d, Raise DocumentRootError) ∧
  toggle_class so elem active d = (d, Raise DocumentRootError) ∧
  is_AttributeError DocumentRootError = true.
Proof.
  intros Hc.
  unfold attr, add_class, discard_class, toggle_class, bind, _get_classes.
  by rewrite Hc.
Qed.

Lemma root_refuses_attributes_witness :
  attr [VInt 5] [] (new_doc false) = (new_doc false, Raise DocumentRootError).
Proof.
  apply (root_refuses_attributes by_elements (new_doc false) [VInt 5] [] [] "" false eq_refl).
Defined.

(** ** More on the class helpers *)

Lemma set_tags_alter_id (g : gmap string value → gmap string value) (t : nat) (T : Tag)
    (d : SimpleDoc) :
  tags d !! t = Some T → g (Tag_attrs T) = Tag_attrs T →
  set_tags (alter (set_Tag_attrs g) t) d = d.
Proof.
  intros HT Hg. destruct d as [ns ts c f b]. unfold set_tags. simpl in *. f_equal.
  apply list_eq. intros i. destruct (decide (t = i)) as [<- | Hne].
  - rewrite list_lookup_alter_eq, HT. simpl. f_equal.
    destruct T as [n a b' p]. unfold set_Tag_attrs. simpl in *. by rewrite Hg.
  - by rewrite list_lookup_alter_ne.
Qed.

(** X8.  On an element that has no [class], [discard_class] changes
    nothing at all, and neither does [toggle_class] with a false flag nor
    [add_class] of no names: the missing key is no error and no empty
    [class] is made. *)
Theorem class_absent_stays_absent (so : pyset → list string) (d : SimpleDoc)
    (t : nat) (T : Tag) (classes : list string) (elem : string) :
  current_tag d = TagRef t → tags d !! t = Some T →
  Tag_attrs T !! "class" = None →
  discard_class so classes d = (d, Ok tt) ∧
  toggle_class so elem false d = (d, Ok tt) ∧
  add_class so [] d = (d, Ok tt).
Proof.
  intros Hc HT Ha.
  assert (∀ X : pyset, bytes_members X = false → members X = ∅ →
            _set_classes so X d = (d, Ok tt)) as Hset.
  { intros X HB HX. unfold _set_classes. rewrite HB, Hc.
    rewrite bool_decide_eq_true_2 by done.
    rewrite (set_tags_alter_id _ t T); [done | done |].
    by apply delete_id. }
  unfold discard_class, toggle_class, add_class, bind, _get_classes.
  rewrite Hc, HT. simpl. rewrite Ha.
  split; [| split]; (apply Hset; [done |]); simpl.
  - apply set_eq. intros x. rewrite elem_of_difference.
    split; [intros [[]%not_elem_of_empty _] | intros []%not_elem_of_empty].
  - apply set_eq. intros x. rewrite elem_of_difference.
    split; [intros [[]%not_elem_of_empty _] | intros []%not_elem_of_empty].
  - simpl. by rewrite (left_id_L ∅ (∪)).
Qed.

Lemma class_absent_stays_absent_witness :
  let T := {| Tag_name := "p"; Tag_attrs := {["id" := VStr "x"]};
              Tag_bs4_tag := 1; Tag_parent_tag := Some DocumentRoot |} in
  let d := {| nodes := [Soup [1];
                        Element {| name := "p"; attrs := ∅;
                                   can_be_empty_element := false; contents := [] |}];
              tags := [T]; current_tag := TagRef 0;
              features := VStr "lxml"; _nl2br := false |} in
  discard_class by_elements ["news"] d = (d, Ok tt).
Proof.
  intros T d.
  apply (class_absent_stays_absent by_elements d 0 T ["news"] "" eq_refl eq_refl).
  by vm_compute.
Defined.

Lemma Tag_reordered_refl (T : Tag) : Tag_reordered T T.
Proof. do 3 (split; [done |]). split; [done | by left]. Qed.

Lemma tags_reordered_refl (ts : list Tag) : Forall2 Tag_reordered ts ts.
Proof. apply Forall_Forall2_diag, Forall_forall. intros T _. apply Tag_reordered_refl. Qed.

(** Two sets with the same strings, written back by [_set_classes]. *)
Lemma set_classes_reordered (so : pyset → list string) (X Y : pyset) (d : SimpleDoc) :
  (∀ Z, so Z ≡ₚ elements (members Z)) →
  members X = members Y → bytes_members X = bytes_members Y →
  (_set_classes so X d).2 = (_set_classes so Y d).2 ∧
  nodes (_set_classes so X d).1 = nodes (_set_classes so Y d).1 ∧
  current_tag (_set_classes so X d).1 = current_tag (_set_classes so Y d).1 ∧
  Forall2 Tag_reordered (tags (_set_classes so X d).1) (tags (_set_classes so Y d).1).
Proof.
  intros Hso Hm Hb. unfold _set_classes. rewrite Hb, Hm.
  destruct (bytes_members Y); [by auto using tags_reordered_refl |].
  destruct (current_tag d) as [|t]; [by auto using tags_reordered_refl |].
  case_bool_decide; [by auto using tags_reordered_refl |].
  do 3 (split; [done |]). simpl.
  apply Forall2_alter; [apply tags_reordered_refl |].
  intros T1 T2 _ _ (Hn & Hb4 & Hp & Ha & _). destruct T1, T2; simpl in *; subst.
  do 3 (split; [done |]). simpl. split.
  - intros k Hk. rewrite !lookup_insert_ne by done. by apply Ha.
  - right. exists (so X), (so Y). rewrite !lookup_insert_eq.
    split; [| done]. by rewrite !Hso, Hm.
Qed.

(** X7.  [toggle_class] with a true flag does what [add_class] does with
    the one name, and with a false flag what [discard_class] does, up to
    the order in which the tokens of [class] are written: the outcome, the
    tree and the current tag are the same, and the [Tag] objects differ at
    most in the order of the tokens of [class] on the current tag.  The
    order may differ because the one changes the set in place and the other
    makes a new set. *)
Theorem toggle_is_add_or_discard_up_to_order (so : pyset → list string)
    (elem : string) (active : bool) (d : SimpleDoc) :
  (∀ X, so X ≡ₚ elements (members X)) →
  let r1 := toggle_class so elem active d in
  let r2 := (if active then add_class so [elem] else discard_class so [elem]) d in
  r1.2 = r2.2 ∧ nodes r1.1 = nodes r2.1 ∧ current_tag r1.1 = current_tag r2.1 ∧
  Forall2 Tag_reordered (tags r1.1) (tags r2.1).
Proof.
  intros Hso. unfold toggle_class, add_class, discard_class, bind.
  destruct active; simpl;
    (destruct (_get_classes d) as [d1 [cur|e]];
       [| by auto using tags_reordered_refl]);
    (apply set_classes_reordered; [done | | done]);
    simpl; by rewrite (right_id_L ∅ (∪)).
Qed.

Lemma toggle_is_add_or_discard_up_to_order_witness :
  let T := {| Tag_name := "p"; Tag_attrs := {["class" := VStr "news today"]};
              Tag_bs4_tag := 1; Tag_parent_tag := Some DocumentRoot |} in
  let d := {| nodes := [Soup [1];
                        Element {| name := "p"; attrs := ∅;
                                   can_be_empty_element := false; contents := [] |}];
              tags := [T]; current_tag := TagRef 0;
              features := VStr "lxml"; _nl2br := false |} in
  (toggle_class by_elements "news" false d).2 = (discard_class by_elements ["news"] d).2 ∧
  Forall2 Tag_reordered (tags (toggle_class by_elements "news" false d).1)
                        (tags (discard_class by_elements ["news"] d).1).
Proof.
  intros T d.
  destruct (toggle_is_add_or_discard_up_to_order by_elements "news" false d
              (λ X, reflexivity (elements (members X)))) as (H1 & _ & _ & H2).
  split; [exact H1 | exact H2].
Defined.

(** ** The constructor's defaults *)

(** X9.  With at most one positional argument and no [stag_end] keyword,
    the constructor falls back to the parser ["lxml"] when [features] is
    not given, is [None], or is empty (an empty string, list or bytes):
    the parser library gets the positional arguments and the keywords with
    [features] set to ["lxml"].  When the library raises, the constructor
    raises the same; otherwise the document keeps ["lxml"], holds what the
    library made under the soup, and starts at the document root with no
    [Tag] objects and with the [nl2br] flag it was given. *)
Theorem init_default_features (bs : parser) (args : list value) (nl2br : bool)
    (kwargs : list (string * value)) :
  length args ≤ 1 →
  kw_get "stag_end" kwargs = None →
  kw_get "features" kwargs = None ∨
  kw_get "features" kwargs = Some VNone ∨
  kw_get "features" kwargs = Some (VStr "") ∨
  kw_get "features" kwargs = Some (VList []) ∨
  (∃ ba, kw_get "features" kwargs = Some (VBytes ba [])) →
  let kwargs' := kw_set "features" (VStr "lxml") kwargs in
  SimpleDoc__init__ bs args nl2br kwargs
  = match bs args kwargs' with
    | Ok n =>
        Ok {| nodes := Soup (seq 1 n) :: ((λ i, Parsed args kwargs' i) <$> seq 0 n);
              tags := []; current_tag := DocumentRoot;
              features := VStr "lxml"; _nl2br := nl2br |}
    | Raise e => Raise e
    end ∧
  ∀ d, SimpleDoc__init__ bs args nl2br kwargs = Ok d →
    features d = VStr "lxml" ∧ current_tag d = DocumentRoot ∧
    tags d = [] ∧ _nl2br d = nl2br ∧ children_of d 0 = seq 1 (length (nodes d) - 1) ∧
    wf d.
Proof.
  intros Hlen Hs Hf kwargs'.
  assert (SimpleDoc__init__ bs args nl2br kwargs
          = match bs args kwargs' with
            | Ok n =>
                Ok {| nodes := Soup (seq 1 n)
                               :: ((λ i, Parsed args kwargs' i) <$> seq 0 n);
                      tags := []; current_tag := DocumentRoot;
                      features := VStr "lxml"; _nl2br := nl2br |}
            | Raise e => Raise e
            end) as Heq.
  { unfold SimpleDoc__init__. rewrite Hs.
    rewrite !bool_decide_eq_false_2 by lia.
    by destruct Hf as [-> | [-> | [-> | [-> | [ba ->]]]]]. }
  split; [done |]. intros d Hd.
  pose proof (wf_init bs args nl2br kwargs d Hd) as Hwf.
  rewrite Heq in Hd. destruct (bs args kwargs') as [n|e]; [| done].
  injection Hd as <-. simpl. repeat (split; [done |]). split; [| done].
  unfold children_of. simpl. by rewrite length_fmap, length_seq, Nat.sub_0_r.
Qed.

Lemma init_default_features_witness :
  ∃ d, SimpleDoc__init__ (parses_to 1) [VStr "<b></b>"] true [("features", VStr "")]
       = Ok d ∧
       features d = VStr "lxml" ∧
       nodes d = [Soup [1];
                  Parsed [VStr "<b></b>"] [("features", VStr "lxml")] 0].
Proof.
  destruct (init_default_features (parses_to 1) [VStr "<b></b>"] true
              [("features", VStr "")]) as [H _].
  - simpl. lia.
  - reflexivity.
  - right. right. left. reflexivity.
  - eexists. split; [exact H |]. split; reflexivity.
Defined.

(** ** Append only *)

Lemma frame_refl (d : SimpleDoc) : frame d d.
Proof.
  split; [| split; [| done]].
  - intros i n H. by exists n.
  - intros t T H. by exists T.
Qed.

Lemma frame_trans (d1 d2 d3 : SimpleDoc) : frame d1 d2 → frame d2 d3 → frame d1 d3.
Proof.
  intros (N1 & T1 & F1 & B1) (N2 & T2 & F2 & B2).
  split; [| split; [| split; congruence]].
  - intros i n H. destruct (N1 i n H) as (n' & H' & S' & P').
    destruct (N2 i n' H') as (n'' & H'' & S'' & P'').
    exists n''. split; [done |]. split; [congruence | by etrans].
  - intros t T H. destruct (T1 t T H) as (T' & H' & X1 & Y1).
    destruct (T2 t T' H') as (T'' & H'' & X2 & Y2).
    exists T''. split; [done |]. split; congruence.
Qed.

Lemma frame_lookup_lt (d d' : SimpleDoc) : frame d d' → length (nodes d) ≤ length (nodes d').
Proof.
  intros (N & _). destruct (decide (length (nodes d) ≤ length (nodes d'))); [done |].
  exfalso. destruct (lookup_lt_is_Some_2 (nodes d) (length (nodes d'))) as [x Hn]; [lia |].
  destruct (N _ _ Hn) as (n' & Hn' & _). apply lookup_lt_Some in Hn'. lia.
Qed.

Lemma frame_set_nodes (d0 d1 : SimpleDoc) (f : list node → list node) :
  (∀ i n, nodes d1 !! i = Some n → i < length (nodes d1) →
     (length (nodes d0) ≤ i ∧ is_Some (f (nodes d1) !! i)) ∨
     ∃ n', f (nodes d1) !! i = Some n' ∧ static n' = static n ∧
           children n `prefix_of` children n') →
  frame d0 d1 → frame d0 (set_nodes f d1).
Proof.
  intros Hf (N & T & F & B). split; [| by split].
  intros i n H. destruct (N i n H) as (n' & H' & S' & P').
  destruct (Hf i n' H' (lookup_lt_Some _ _ _ H')) as [[Hle _] | (n'' & H'' & S'' & P'')].
  - apply lookup_lt_Some in H. lia.
  - exists n''. split; [done |]. split; [congruence | by etrans].
Qed.

Lemma frame_push_node (d0 d1 : SimpleDoc) (n : node) :
  frame d0 d1 → frame d0 (set_nodes (λ ns, ns ++ [n]) d1).
Proof.
  apply frame_set_nodes. intros i m Hm _. right. exists m.
  by rewrite (lookup_app_l_Some _ _ _ _ Hm).
Qed.

Lemma static_add_child (c : nat) (n : node) : static (add_child c n) = static n.
Proof. by destruct n. Qed.

Lemma children_add_child_prefix (c : nat) (n : node) :
  children n `prefix_of` children (add_child c n).
Proof. destruct n; simpl; try done; by apply prefix_app_r. Qed.

Lemma frame_add_child (d0 d1 : SimpleDoc) (c p : nat) :
  frame d0 d1 → frame d0 (set_nodes (alter (add_child c) p) d1).
Proof.
  apply frame_set_nodes. intros i m Hm _. right.
  destruct (decide (p = i)) as [<- | Hne].
  - exists (add_child c m). rewrite list_lookup_alter_eq, Hm.
    split; [done |]. split; [apply static_add_child | apply children_add_child_prefix].
  - exists m. by rewrite list_lookup_alter_ne.
Qed.

Lemma frame_append (d0 d1 : SimpleDoc) (r : ref) (c : nat) :
  frame d0 d1 → frame d0 (_append r c d1).
Proof.
  intros H. unfold _append. destruct (node_of d1 r); [by apply frame_add_child | done].
Qed.

(** Changing an object that [d0] does not have. *)
Lemma frame_alter_new (d0 d1 : SimpleDoc) (g : node → node) (i : nat) :
  length (nodes d0) ≤ i → frame d0 d1 → frame d0 (set_nodes (alter g i) d1).
Proof.
  intros Hi. apply frame_set_nodes. intros j m Hm Hj.
  destruct (decide (i = j)) as [<- | Hne].
  - left. split; [done |]. rewrite list_lookup_alter_eq, Hm. by eauto.
  - right. exists m. by rewrite list_lookup_alter_ne.
Qed.

Lemma frame_set_tags (d0 d1 : SimpleDoc) (f : list Tag → list Tag) :
  (∀ t T, tags d1 !! t = Some T →
     ∃ T', f (tags d1) !! t = Some T' ∧ Tag_bs4_tag T' = Tag_bs4_tag T ∧
           Tag_name T' = Tag_name T) →
  frame d0 d1 → frame d0 (set_tags f d1).
Proof.
  intros Hf (N & T & F & B). split; [done |]. split; [| done].
  intros t T0 H. destruct (T t T0 H) as (T' & H' & X1 & Y1).
  destruct (Hf t T' H') as (T'' & H'' & X2 & Y2).
  exists T''. split; [done |]. split; congruence.
Qed.

Lemma frame_alter_tag (d0 d1 : SimpleDoc) (g : Tag → Tag) (t : nat) :
  (∀ T, Tag_bs4_tag (g T) = Tag_bs4_tag T ∧ Tag_name (g T) = Tag_name T) →
  frame d0 d1 → frame d0 (set_tags (alter g t) d1).
Proof.
  intros Hg. apply frame_set_tags. intros i T HT.
  destruct (decide (t = i)) as [<- | Hne].
  - exists (g T). rewrite list_lookup_alter_eq, HT. split; [done | apply Hg].
  - exists T. by rewrite list_lookup_alter_ne.
Qed.

Lemma frame_push_tag (d0 d1 : SimpleDoc) (T : Tag) :
  frame d0 d1 → frame d0 (set_tags (λ ts, ts ++ [T]) d1).
Proof.
  apply frame_set_tags. intros t T0 HT. exists T0.
  by rewrite (lookup_app_l_Some _ _ _ _ HT).
Qed.

Lemma frame_set_current_tag (d0 d1 : SimpleDoc) (r : ref) :
  frame d0 d1 → frame d0 (set_current_tag r d1).
Proof. by intros (N & T & F & B). Qed.

Lemma framed_ret {A} (a : A) : framed (ret a).
Proof. intros d d' r [= <- <-]. apply frame_refl. Qed.

Lemma framed_raise {A} (e : exn) : framed (@raise A e).
Proof. intros d d' r [= <- <-]. apply frame_refl. Qed.

Lemma framed_lift {A} (o : outcome A) : framed (lift o).
Proof. intros d d' r [= <- <-]. apply frame_refl. Qed.

Lemma framed_bind {A B} (m : M A) (k : A → M B) :
  framed m → (∀ a, framed (k a)) → framed (bind m k).
Proof.
  intros Hm Hk d d' r. unfold bind.
  destruct (m d) as [d1 [a|e]] eqn:E; intros H.
  - eapply frame_trans; [by eapply Hm | by eapply Hk].
  - injection H as <- <-. by eapply Hm.
Qed.

Lemma framed_for_each {A} (l : list A) (body : A → M unit) :
  (∀ x, framed (body x)) → framed (for_each l body).
Proof.
  intros Hb. induction l as [|x l IH]; simpl; [apply framed_ret |].
  apply framed_bind; [apply Hb | intros _; apply IH].
Qed.

Lemma framed_case {A} (m : M A) :
  (∀ d, ∃ m', framed m' ∧ m d = m' d) → framed m.
Proof.
  intros H d d' r E. destruct (H d) as (m' & Hm' & Heq).
  rewrite Heq in E. by apply (Hm' _ _ _ E).
Qed.

Lemma framed_append_new (n : node) : framed (append_new n).
Proof.
  intros d d' r [= <- <-]. unfold alloc. simpl.
  apply frame_append, frame_push_node, frame_refl.
Qed.

Lemma framed_stag (be : string → bool) (tag_name : string) (args : list value)
    (kwargs : list (string * value)) : framed (stag be tag_name args kwargs).
Proof.
  intros d d' r. unfold stag, bind, new_tag, alloc, lift, modify, ret. simpl.
  assert (∀ c d1, frame d d1 → frame d
            (_append c (length (nodes d))
               (set_nodes (alter set_can_be_empty (length (nodes d))) d1))) as Hfin.
  { intros c d1 H. apply frame_append. by apply frame_alter_new. }
  pose proof (frame_push_node d d (Element {| name := tag_name; attrs := ∅;
                can_be_empty_element := be tag_name; contents := [] |}) (frame_refl d))
    as H0.
  destruct args as [|a0 args], kwargs as [|k0 kwargs];
    [intros [= <- <-]; by apply Hfin | | |];
    (destruct (_attributes _ _) as [m|e]; [| by intros [= <- <-]]);
    (destruct (dict_to_attrs _ m) as [m'|e]; [| by intros [= <- <-]]);
    intros [= <- <-]; apply Hfin; by apply frame_alter_new.
Qed.

Lemma framed_text (be : string → bool) (strgs : list value) : framed (text be strgs).
Proof.
  apply framed_for_each. intros strg. apply framed_case. intros d. unfold text_one.
  destruct (_nl2br d).
  - destruct strg; try (exists (raise TypeError); split; [apply framed_raise | done]).
    eexists; split; [| reflexivity].
    apply framed_bind.
    + apply framed_for_each. intros x. apply framed_bind; [apply framed_append_new |].
      intros _. apply framed_stag.
    + intros _. destruct (last _); [apply framed_append_new | apply framed_raise].
  - eexists; split; [| reflexivity].
    apply framed_bind; [apply framed_lift | intros s; apply framed_append_new].
Qed.

Lemma framed_asis (bs : parser) (strgs : list value) : framed (asis bs strgs).
Proof.
  apply framed_for_each. intros x. apply framed_case. intros d.
  assert (∀ kw, ∃ m',
            framed m' ∧
            match bs [x] kw with
            | Ok n => for_each (seq 0 n) (λ i, append_new (Parsed [x] kw i)) d
            | Raise e => (d, Raise e)
            end = m' d) as H.
  { intros kw. destruct (bs [x] kw) as [n|e].
    - eexists; split; [| reflexivity].
      apply framed_for_each. intros i. apply framed_append_new.
    - exists (raise e); split; [apply framed_raise | done]. }
  destruct x; try apply H.
  exists (raise TypeError); split; [apply framed_raise | done].
Qed.

Lemma framed_attr (args : list value) (kwargs : list (string * value)) :
  framed (attr args kwargs).
Proof.
  intros d d' r. unfold attr.
  destruct (current_tag d) as [|t]; [intros [= <- <-]; apply frame_refl |].
  destruct (_attributes args kwargs) as [a|e]; intros [= <- <-]; [| apply frame_refl].
  apply frame_alter_tag; [done | apply frame_refl].
Qed.

Lemma framed_cdata (strg : value) (safe : bool) : framed (cdata strg safe).
Proof.
  unfold cdata. destruct safe.
  - apply framed_bind; [apply framed_lift | intros s; apply framed_append_new].
  - destruct strg; try apply framed_raise.
    apply framed_for_each. intros c. apply framed_append_new.
Qed.

Lemma framed_get_classes : framed _get_classes.
Proof.
  intros d d' r. unfold _get_classes.
  repeat case_match; intros [= <- <-]; apply frame_refl.
Qed.

Lemma framed_set_classes (so : pyset → list string) (X : pyset) :
  framed (_set_classes so X).
Proof.
  intros d d' r. unfold _set_classes.
  destruct (bytes_members X); [intros [= <- <-]; apply frame_refl |].
  destruct (current_tag d) as [|t]; [intros [= <- <-]; apply frame_refl |].
  case_bool_decide; intros [= <- <-]; (apply frame_alter_tag; [done | apply frame_refl]).
Qed.

Lemma static_element_inv (n' : node) (nm : string) (a : gmap string value) (b : bool)
    (cs : list nat) :
  static n' = static (Element {| name := nm; attrs := a; can_be_empty_element := b;
                                 contents := cs |}) →
  ∃ cs', n' = Element {| name := nm; attrs := a; can_be_empty_element := b;
                         contents := cs' |}.
Proof.
  destruct n' as [|[nm' a' b' cs']| | |]; simpl; try done.
  intros [= -> -> ->]. by exists cs'.
Qed.

(** The steps of a block whose tag was made, up to the body and the exit. *)
Lemma with_block_inv (be : string → bool) (tag_name : string) (args : list value)
    (kwargs : list (string * value)) (a : gmap string value) (body : M unit)
    (d d' : SimpleDoc) (r : outcome unit) :
  _attributes args kwargs = Ok a →
  with_block (tag be tag_name args kwargs) body d = (d', r) →
  ∃ d2 d3 rb,
    body d2 = (d3, rb) ∧
    frame d d2 ∧
    (∃ cs, nodes d2 !! length (nodes d)
           = Some (Element {| name := tag_name; attrs := ∅;
                              can_be_empty_element := be tag_name; contents := cs |})) ∧
    tags d2 = tags d ++ [{| Tag_name := tag_name; Tag_attrs := a;
                            Tag_bs4_tag := length (nodes d);
                            Tag_parent_tag := Some (current_tag d) |}] ∧
    current_tag d2 = TagRef (length (tags d)) ∧
    (∀ p, insertion_point d p → length (nodes d) ∈ children_of d2 p) ∧
    match rb with
    | Ok _ => Tag__exit__ (length (tags d)) None d3 = (d', r)
    | Raise e => d' = d3 ∧ r = Raise e
    end.
Proof.
  intros Ha. unfold with_block. rewrite (tag_ok _ _ _ _ a) by done.
  set (E := Element {| name := tag_name; attrs := ∅;
                       can_be_empty_element := be tag_name; contents := [] |}).
  set (T := {| Tag_name := tag_name; Tag_attrs := a;
               Tag_bs4_tag := length (nodes d); Tag_parent_tag := None |}).
  unfold Tag__enter__. cbn [tags set_tags set_nodes].
  rewrite list_lookup_middle by done. cbn [current_tag set_tags set_nodes Tag_bs4_tag T].
  set (d2 := _append _ _ _).
  intros H. exists d2. destruct (body d2) as [d3 rb] eqn:E3. exists d3, rb.
  split; [done |].
  assert (frame d d2) as F2.
  { unfold d2. apply frame_append, frame_set_current_tag.
    apply frame_alter_tag; [done |]. apply frame_push_tag, frame_push_node, frame_refl. }
  split; [done |]. split; [| split; [| split; [| split]]].
  - unfold d2, _append. destruct (node_of _ _) as [p|]; simpl.
    + destruct (decide (p = length (nodes d))) as [-> | Hne].
      * rewrite alter_last. rewrite list_lookup_middle by done. simpl. by eexists.
      * rewrite list_lookup_alter_ne by done. rewrite list_lookup_middle by done.
        by eexists.
    + rewrite list_lookup_middle by done. by eexists.
  - assert (tags d2 = alter (set_Tag_parent_tag (current_tag d)) (length (tags d))
                        (tags d ++ [T])) as ->.
    { unfold d2, _append. by destruct (node_of _ _). }
    by rewrite alter_last.
  - unfold d2, _append. by destruct (node_of _ _).
  - intros p Hi.
    destruct (tag_enter_spec be tag_name args kwargs a d p Ha Hi)
      as (d1' & d2' & H1 & H2 & Hn & _).
    rewrite (tag_ok _ _ _ _ a) in H1 by done. injection H1 as <-.
    unfold Tag__enter__ in H2. cbn [tags set_tags set_nodes] in H2.
    rewrite list_lookup_middle in H2 by done. injection H2 as <-.
    assert (nodes d2 = nodes (append_nodes p [E] d)) as Hd2 by exact Hn.
    pose proof (append_nodes_children p [E] d Hi) as Hc.
    unfold children_of in *. rewrite Hd2, Hc. simpl. apply elem_of_app. right.
    constructor.
  - destruct rb as [[]|e]; [done |].
    unfold Tag__exit__ in H. by injection H as <- <-.
Qed.

Lemma framed_with_block (be : string → bool) (tag_name : string) (args : list value)
    (kwargs : list (string * value)) (body : M unit) :
  framed body → framed (with_block (tag be tag_name args kwargs) body).
Proof.
  intros Hb d d' r E.
  destruct (_attributes args kwargs) as [a|e] eqn:Ha.
  2:{ unfold with_block in E. rewrite (tag_raise _ _ _ _ e) in E by done.
      injection E as <- <-. apply frame_refl. }
  destruct (with_block_inv _ _ _ _ a _ _ _ _ Ha E)
    as (d2 & d3 & rb & E3 & F2 & _ & HT2 & _ & _ & Hexit).
  pose proof (frame_trans _ _ _ F2 (Hb _ _ _ E3)) as F3.
  destruct rb as [[]|e]; [| by destruct Hexit as [-> _]].
  destruct (Hb _ _ _ E3) as (_ & HT3 & _).
  edestruct (HT3 (length (tags d))) as (T3 & HT3' & Hb3 & _).
  { rewrite HT2. by apply list_lookup_middle. }
  simpl in Hb3.
  unfold Tag__exit__ in Hexit. rewrite HT3' in Hexit.
  assert (frame d (if bool_decide (size (Tag_attrs T3) = 0) then d3
                   else set_nodes (alter (update_attrs (Tag_attrs T3)) (Tag_bs4_tag T3)) d3))
    as F4.
  { case_bool_decide; [done |]. apply frame_alter_new; [| done]. by rewrite Hb3. }
  destruct (Tag_parent_tag T3); injection Hexit as <- <-; [| done].
  by apply frame_set_current_tag.
Qed.

Lemma framed_exec (be : string → bool) (so : pyset → list string) (bs : parser) (c : cmd) :
  framed (exec be so bs c).
Proof.
  induction c as [c IH] using cmd_nested_ind.
  destruct c as [strgs|strgs|args kwargs|tag_name args kwargs|strg safe
                |classes|classes|elem active|e|tag_name args kwargs body].
  - apply framed_text.
  - apply framed_asis.
  - apply framed_attr.
  - apply framed_stag.
  - apply framed_cdata.
  - apply framed_bind; [apply framed_get_classes | intros; apply framed_set_classes].
  - apply framed_bind; [apply framed_get_classes | intros; apply framed_set_classes].
  - apply framed_bind; [apply framed_get_classes | intros; apply framed_set_classes].
  - apply framed_raise.
  - rewrite exec_With. apply framed_with_block.
    induction IH as [|c cs Hc _ IHcs]; simpl; [apply framed_ret |].
    apply framed_bind; [done | by intros _].
Qed.

Lemma framed_run (be : string → bool) (so : pyset → list string) (bs : parser) (cs : list cmd) :
  framed (run be so bs cs).
Proof.
  induction cs as [|c cs IH]; simpl; [apply framed_ret |].
  apply framed_bind; [apply framed_exec | by intros _].
Qed.

(** A block of commands, from the document before it to the document its
    body leaves: the element is there, bare, and a child of the insertion
    point; the block raises exactly when its body does, and then nothing
    more is done. *)
Lemma exec_With_inv (be : string → bool) (so : pyset → list string) (bs : parser)
    (tag_name : string) (args : list value) (kwargs : list (string * value))
    (a : gmap string value) (body : list cmd) (d d' : SimpleDoc) (r : outcome unit) :
  _attributes args kwargs = Ok a →
  exec be so bs (With tag_name args kwargs body) d = (d', r) →
  ∃ d3 cs3 T3,
    frame d d3 ∧
    nodes d3 !! length (nodes d)
    = Some (Element {| name := tag_name; attrs := ∅;
                       can_be_empty_element := be tag_name; contents := cs3 |}) ∧
    tags d3 !! length (tags d) = Some T3 ∧
    Tag_bs4_tag T3 = length (nodes d) ∧
    Tag_parent_tag T3 = Some (current_tag d) ∧
    (∀ p, insertion_point d p → length (nodes d) ∈ children_of d3 p) ∧
    ((∃ e, r = Raise e ∧ d' = d3) ∨
     (r = Ok tt ∧
      d' = set_current_tag (current_tag d)
             (if bool_decide (size (Tag_attrs T3) = 0) then d3
              else set_nodes (alter (update_attrs (Tag_attrs T3)) (length (nodes d)))
                     d3))).
Proof.
  intros Ha E. rewrite exec_With in E.
  destruct (with_block_inv _ _ _ _ a _ _ _ _ Ha E)
    as (d2 & d3 & rb & E3 & F2 & (cs2 & Hn2) & HT2 & _ & Hch & Hexit).
  pose proof (framed_run be so bs body _ _ _ E3) as F3.
  pose proof (frame_trans _ _ _ F2 F3) as F.
  destruct F3 as (HN3 & HT3 & _).
  assert (tags d2 !! length (tags d)
          = Some {| Tag_name := tag_name; Tag_attrs := a;
                    Tag_bs4_tag := length (nodes d);
                    Tag_parent_tag := Some (current_tag d) |}) as HT2'.
  { rewrite HT2. by apply list_lookup_middle. }
  destruct (HT3 _ _ HT2') as (T3 & HT3' & Hb3 & _). simpl in Hb3.
  destruct (HN3 _ _ Hn2) as (n3 & Hn3 & Hs3 & _).
  apply static_element_inv in Hs3 as [cs3 ->].
  assert (Tag_parent_tag T3 = Some (current_tag d)) as Hp3.
  { destruct (scoped_run be so bs body _ _ _ E3) as [[_ Hpar] _].
    assert (length (tags d) < length (tags d2)) as Hlt by (by eapply lookup_lt_Some).
    specialize (Hpar _ Hlt). rewrite HT3', HT2' in Hpar. simpl in Hpar. congruence. }
  exists d3, cs3, T3. do 5 (split; [done |]). split.
  - intros p Hi. specialize (Hch p Hi). unfold children_of in *.
    destruct (nodes d2 !! p) as [n2|] eqn:Hp2; [| by apply elem_of_nil in Hch].
    destruct (HN3 _ _ Hp2) as (n3' & Hn3' & _ & Hpre). rewrite Hn3'. simpl in *.
    destruct Hpre as [k ->]. apply elem_of_app. by left.
  - destruct rb as [[]|e]; [| left; exists e; by destruct Hexit].
    right. unfold Tag__exit__ in Hexit. rewrite HT3', Hp3, Hb3 in Hexit.
    by injection Hexit as <- <-.
Qed.

(** X10.  The builder only ever appends.  Whatever commands run, and whether
    they return or raise, every object the document had is still at its
    place with its name, attributes, flag or text unchanged, and with the
    children it had still first and in order; no [Tag] object changes its
    element or its name; the parser and the newline mode stay. *)
Theorem session_appends_only (be : string → bool) (so : pyset → list string) (bs : parser)
    (cs : list cmd) (d : SimpleDoc) :
  frame d (run be so bs cs d).1.
Proof.
  destruct (run be so bs cs d) as [d' r] eqn:E. by apply (framed_run be so bs cs d d' r).
Qed.

(** X11.  When a block returns, its element carries exactly the attributes
    pending on its [Tag] object at that moment, unescaped, under the name
    given to [tag] and with the flag of the tree builder, and the current
    tag is the one of before the block. *)
Theorem exit_merges_pending_attributes (be : string → bool)
    (so : pyset → list string) (bs : parser) (tag_name : string) (args : list value)
    (kwargs : list (string * value)) (body : list cmd) (d d' : SimpleDoc) :
  exec be so bs (With tag_name args kwargs body) d = (d', Ok tt) →
  ∃ T cs,
    tags d' !! length (tags d) = Some T ∧
    nodes d' !! length (nodes d)
    = Some (Element {| name := tag_name; attrs := Tag_attrs T;
                       can_be_empty_element := be tag_name; contents := cs |}).
Proof.
  intros E.
  destruct (_attributes args kwargs) as [a|e] eqn:Ha.
  2:{ rewrite exec_With in E. unfold with_block in E.
      by rewrite (tag_raise _ _ _ _ e) in E. }
  destruct (exec_With_inv _ _ _ _ _ _ a _ _ _ _ Ha E)
    as (d3 & cs3 & T3 & _ & Hn3 & HT3 & _ & _ & _ & [(e & [=] & _) | [_ ->]]).
  exists T3, cs3. cbn [tags nodes set_current_tag].
  case_bool_decide as Hsz.
  - split; [done |]. rewrite Hn3. apply map_size_empty_inv in Hsz. by rewrite Hsz.
  - split; [done |]. cbn [nodes set_nodes].
    rewrite list_lookup_alter_eq, Hn3. simpl. by rewrite (right_id_L ∅ (∪)).
Qed.

Lemma exit_merges_pending_attributes_witness :
  ∃ d' T cs,
    exec no_void by_elements (parses_to 0)
      (With "h1" [] [("id", VStr "a<b")] [Attr [] [("klass", VStr "main-title")]])
      (new_doc false) = (d', Ok tt) ∧
    tags d' !! 0 = Some T ∧
    Tag_attrs T = {["class" := VStr "main-title"; "id" := VStr "a<b"]} ∧
    nodes d' !! 1 = Some (Element {| name := "h1"; attrs := Tag_attrs T;
                                     can_be_empty_element := false; contents := cs |}).
Proof.
  destruct (exit_merges_pending_attributes no_void by_elements (parses_to 0) "h1" []
              [("id", VStr "a<b")] [Attr [] [("klass", VStr "main-title")]]
              (new_doc false) _ eq_refl) as (T & cs & H1 & H2).
  eexists _, T, cs. split; [reflexivity |]. split; [exact H1 |].
  split; [| exact H2].
  vm_compute in H1. injection H1 as <-. reflexivity.
Defined.

(** X12.  A block that is left by an exception leaves its element in the
    tree, as a child of the insertion point of before the block, with no
    attribute at all: those given to [tag] and those set by [attr] in the
    block stay pending on the [Tag] object and never reach the element. *)
Theorem aborted_block_element_is_bare (be : string → bool)
    (so : pyset → list string) (bs : parser) (tag_name : string) (args : list value)
    (kwargs : list (string * value)) (a : gmap string value) (body : list cmd)
    (d d' : SimpleDoc) (e : exn) (p : nat) :
  _attributes args kwargs = Ok a → insertion_point d p →
  exec be so bs (With tag_name args kwargs body) d = (d', Raise e) →
  (∃ cs, nodes d' !! length (nodes d)
         = Some (Element {| name := tag_name; attrs := ∅;
                            can_be_empty_element := be tag_name; contents := cs |})) ∧
  length (nodes d) ∈ children_of d' p.
Proof.
  intros Ha Hi E.
  destruct (exec_With_inv _ _ _ _ _ _ a _ _ _ _ Ha E)
    as (d3 & cs3 & T3 & _ & Hn3 & _ & _ & _ & Hch & [(e' & _ & ->) | [[=] _]]).
  split; [by exists cs3 | by apply Hch].
Qed.

Lemma aborted_block_element_is_bare_witness :
  ∃ d' cs,
    exec no_void by_elements (parses_to 0)
      (With "p" [] [("id", VStr "x")] [Attr [] [("lang", VStr "en")]; Text [VInt 3]])
      (new_doc false) = (d', Raise TypeError) ∧
    nodes d' !! 1 = Some (Element {| name := "p"; attrs := ∅;
                                     can_be_empty_element := false; contents := cs |}) ∧
    1 ∈ children_of d' 0.
Proof.
  destruct (aborted_block_element_is_bare no_void by_elements (parses_to 0) "p" []
              [("id", VStr "x")] {["id" := VStr "x"]}
              [Attr [] [("lang", VStr "en")]; Text [VInt 3]]
              (new_doc false) _ TypeError 0 eq_refl (new_doc_insertion_point false)
              eq_refl) as [[cs H1] H2].
  eexists _, cs. split; [reflexivity |]. split; [exact H1 | exact H2].
Defined.

(** ** Sessions *)

(** X13.  Every document a session reaches, from the constructor through
    any commands, returning or raising, is sound: the soup is the first
    object, every [Tag] object wraps an element of the store, every parent
    a [Tag] object recorded and the current tag are the document root or a
    [Tag] object of the store.  So the current tag always stands for a soup
    or an element, to which the next call can append. *)
Theorem session_reachable (be : string → bool) (so : pyset → list string) (bs : parser)
    (args : list value) (nl2br : bool) (kwargs : list (string * value))
    (cs : list cmd) (d d' : SimpleDoc) (r : outcome unit) :
  SimpleDoc__init__ bs args nl2br kwargs = Ok d →
  run be so bs cs d = (d', r) →
  wf d' ∧ ∃ p, insertion_point d' p.
Proof.
  intros Hinit Hrun.
  assert (wf d') as Hwf.
  { apply (keeps_run be so bs cs d d' r); [by eapply wf_init | done]. }
  split; [done | by apply wf_insertion_point].
Qed.

Lemma session_reachable_witness :
  ∃ d', run no_void by_elements (parses_to 0)
          [With "ul" [] [] [With "li" [] [] [Text [VNone]]]] (new_doc true)
        = (d', Raise TypeError) ∧
        wf d' ∧ insertion_point d' 2.
Proof.
  destruct (session_reachable no_void by_elements (parses_to 0) [] true []
              [With "ul" [] [] [With "li" [] [] [Text [VNone]]]]
              (new_doc true) _ (Raise TypeError) eq_refl eq_refl) as [Hwf _].
  eexists. split; [reflexivity |]. split; [exact Hwf | by split].
Defined.

(** ** Plain text, raw markup, CDATA *)

(** X14.  Without the newline mode, [text] appends each string as one text
    object, exactly as given: nothing is escaped and no line is broken. *)
Theorem text_plain_verbatim (be : string → bool) (ss : list string) (d : SimpleDoc)
    (p : nat) :
  insertion_point d p → _nl2br d = false →
  text be (VStr <$> ss) d = (append_nodes p (NavigableString <$> ss) d, Ok tt) ∧
  children_of (append_nodes p (NavigableString <$> ss) d) p
  = children_of d p ++ seq (length (nodes d)) (length ss).
Proof.
  intros Hi Hnl. split.
  - rewrite (text_spec be ss d p Hi), Hnl.
    assert (ss ≫= text_nodes false = NavigableString <$> ss) as Heq; [| by rewrite Heq].
    clear. induction ss as [|s ss IH]; [done |].
    change ((s :: ss) ≫= text_nodes false)
      with (text_nodes false s ++ (ss ≫= text_nodes false)).
    by rewrite IH.
  - rewrite append_nodes_children by done. by rewrite length_fmap.
Qed.

Lemma text_plain_verbatim_witness :
  text no_void [VStr "1 < 2 & 3"; VStr (String "010" "b")] (new_doc false)
  = (append_nodes 0 [NavigableString "1 < 2 & 3"; NavigableString (String "010" "b")]
       (new_doc false), Ok tt).
Proof.
  exact (proj1 (text_plain_verbatim no_void ["1 < 2 & 3"; String "010" "b"]
                  (new_doc false) 0 (new_doc_insertion_point false) eq_refl)).
Defined.

Lemma append_nodes_features (p : nat) (new : list node) (d : SimpleDoc) :
  features (append_nodes p new d) = features d.
Proof. reflexivity. Qed.

Lemma asis_accepted (bs : parser) (strgs : list value) (d : SimpleDoc) (p : nat) :
  insertion_point d p → VNone ∉ strgs →
  Forall (λ v, ∃ n, bs [v] [("features", features d)] = Ok n) strgs →
  asis bs strgs d
  = (append_nodes p (strgs ≫= parsed_nodes bs (features d)) d, Ok tt).
Proof.
  unfold asis. revert d. induction strgs as [|v vs IH]; intros d Hi Hn HF.
  - simpl. by rewrite append_nodes_nil.
  - pose proof (insertion_point_lt _ _ Hi) as Hp.
    assert (v ≠ VNone) as Hv by (intros ->; apply Hn; constructor).
    assert (VNone ∉ vs) as Hvs by (intros H; apply Hn; by constructor).
    apply Forall_cons in HF as [[n Hbs] HF].
    change ((v :: vs) ≫= parsed_nodes bs (features d))
      with (parsed_nodes bs (features d) v ++ (vs ≫= parsed_nodes bs (features d))).
    cbn [for_each]. unfold bind.
    assert ((match v with
             | VNone => (d, Raise TypeError)
             | _ =>
                 match bs [v] [("features", features d)] with
                 | Ok n0 =>
                     for_each (seq 0 n0)
                       (λ i, append_new (Parsed [v] [("features", features d)] i)) d
                 | Raise e => (d, Raise e)
                 end
             end)
            = (append_nodes p (parsed_nodes bs (features d) v) d, Ok tt)) as ->.
    { unfold parsed_nodes. rewrite Hbs.
      rewrite <- (for_each_append_new
                    (λ i, Parsed [v] [("features", features d)] i) (seq 0 n) d p Hi).
      by destruct v. }
    rewrite IH; [| by apply append_nodes_insertion_point | done | done].
    rewrite append_nodes_features. by rewrite append_nodes_app by done.
Qed.

(** X15.  [asis] hands every value that is not [None] to the parser, with
    the document's parser name, and appends the objects at the top of the
    soup that comes back, in order: none, one or several for one value.
    It stops at the first [None], with [TypeError], and at the first value
    the parser raises on, with the parser's exception: what the values
    before made stays appended, the values after are not read. *)
Theorem asis_appends_until_none (bs : parser) (pre post : list value)
    (d : SimpleDoc) (p : nat) :
  insertion_point d p → VNone ∉ pre →
  Forall (λ v, ∃ n, bs [v] [("features", features d)] = Ok n) pre →
  let parsed := pre ≫= parsed_nodes bs (features d) in
  asis bs pre d = (append_nodes p parsed d, Ok tt) ∧
  asis bs (pre ++ VNone :: post) d = (append_nodes p parsed d, Raise TypeError) ∧
  (∀ v e, v ≠ VNone → bs [v] [("features", features d)] = Raise e →
     asis bs (pre ++ v :: post) d = (append_nodes p parsed d, Raise e)) ∧
  children_of (append_nodes p parsed d) p
  = children_of d p ++ seq (length (nodes d)) (length parsed).
Proof.
  intros Hi Hn HF parsed.
  pose proof (asis_accepted bs pre d p Hi Hn HF) as H. fold parsed in H.
  split; [done |]. split; [| split].
  - unfold asis in *. rewrite for_each_app. unfold bind at 1. rewrite H.
    simpl. by unfold bind.
  - intros v e Hv He. unfold asis in *. rewrite for_each_app. unfold bind at 1.
    rewrite H. cbn [for_each]. unfold bind. rewrite append_nodes_features, He.
    by destruct v.
  - by rewrite append_nodes_children.
Qed.

Lemma asis_appends_until_none_witness :
  asis (parses_to 2) [VStr "<p>a</p><hr>"; VNone; VStr "<hr>"] (new_doc false)
  = (append_nodes 0 [Parsed [VStr "<p>a</p><hr>"] [("features", VStr "lxml")] 0;
                     Parsed [VStr "<p>a</p><hr>"] [("features", VStr "lxml")] 1]
       (new_doc false),
     Raise TypeError).
Proof.
  refine (proj1 (proj2 (asis_appends_until_none (parses_to 2) [VStr "<p>a</p><hr>"]
                          [VStr "<hr>"] (new_doc false) 0
                          (new_doc_insertion_point false) _ _))).
  - intros H. apply elem_of_cons in H as [H | H];
      [discriminate H | by apply elem_of_nil in H].
  - constructor; [by exists 2 | constructor].
Defined.





(** ** Self-closing tags that fail *)



(** ** [line] *)

(** A block whose tag was made at an insertion point, with the document
    its body starts from written out. *)
Lemma with_block_enter (be : string → bool) (tag_name : string) (args : list value)
    (kwargs : list (string * value)) (a : gmap string value) (body : M unit)
    (d : SimpleDoc) (p : nat) :
  _attributes args kwargs = Ok a → insertion_point d p →
  with_block (tag be tag_name args kwargs) body d
  = match body {| nodes := alter (add_child (length (nodes d))) p (nodes d)
                           ++ [Element {| name := tag_name; attrs := ∅;
                                          can_be_empty_element := be tag_name;
                                          contents := [] |}];
                  tags := tags d ++ [{| Tag_name := tag_name; Tag_attrs := a;
                                        Tag_bs4_tag := length (nodes d);
                                        Tag_parent_tag := Some (current_tag d) |}];
                  current_tag := TagRef (length (tags d));
                  features := features d; _nl2br := _nl2br d |} with
    | (d3, Ok _) => Tag__exit__ (length (tags d)) None d3
    | (d3, Raise e) => (d3, Raise e)
    end.
Proof.
  intros Ha Hi.
  destruct (tag_enter_spec be tag_name args kwargs a d p Ha Hi)
    as (d1 & d2 & H1 & H2 & Hn & Ht & Hc).
  unfold with_block. rewrite H1, H2.
  assert (features d2 = features d ∧ _nl2br d2 = _nl2br d) as [Hf Hb].
  { rewrite (tag_ok _ _ _ _ a) in H1 by done. injection H1 as <-.
    unfold Tag__enter__ in H2. cbn [tags set_tags set_nodes] in H2.
    rewrite list_lookup_middle in H2 by done. injection H2 as <-.
    unfold _append. by destruct (node_of _ _). }
  assert (d2 = {| nodes := alter (add_child (length (nodes d))) p (nodes d)
                           ++ [Element {| name := tag_name; attrs := ∅;
                                          can_be_empty_element := be tag_name;
                                          contents := [] |}];
                  tags := tags d ++ [{| Tag_name := tag_name; Tag_attrs := a;
                                        Tag_bs4_tag := length (nodes d);
                                        Tag_parent_tag := Some (current_tag d) |}];
                  current_tag := TagRef (length (tags d));
                  features := features d; _nl2br := _nl2br d |}) as <-.
  { destruct d2 as [ns ts c f b]. simpl in *. by subst. }
  destruct (body d2) as [d3 [[]|e]]; [done |]. by unfold Tag__exit__.
Qed.

(** X18.  [line] with a string for its text, at an insertion point: the
    new element is the last child of the insertion point; it carries the
    attributes of the call, unescaped; its children are exactly the objects
    [text] makes of the string, which are the last objects of the store;
    and the current tag is the one of before the call. *)
Theorem line_spec (be : string → bool) (tag_name : string) (s : string)
    (args : list value) (kwargs : list (string * value)) (a : gmap string value)
    (d : SimpleDoc) (p : nat) :
  _attributes args kwargs = Ok a → insertion_point d p →
  ∃ d',
    line be tag_name (VStr s) args kwargs d = (d', Ok tt) ∧
    current_tag d' = current_tag d ∧
    children_of d' p = children_of d p ++ [length (nodes d)] ∧
    nodes d' !! length (nodes d)
    = Some (Element {| name := tag_name; attrs := a;
                       can_be_empty_element := be tag_name;
                       contents := seq (S (length (nodes d)))
                                       (length (text_nodes (_nl2br d) s)) |}) ∧
    drop (S (length (nodes d))) (nodes d') = text_nodes (_nl2br d) s.
Proof.
  intros Ha Hi. pose proof (insertion_point_lt _ _ Hi) as Hp.
  unfold line. rewrite (with_block_enter be _ _ _ a _ d p Ha Hi).
  set (E := Element {| name := tag_name; attrs := ∅;
                       can_be_empty_element := be tag_name; contents := [] |}).
  set (T := {| Tag_name := tag_name; Tag_attrs := a;
               Tag_bs4_tag := length (nodes d);
               Tag_parent_tag := Some (current_tag d) |}).
  set (d2 := {| nodes := _; tags := _; current_tag := _; features := _; _nl2br := _ |}).
  assert (length (alter (add_child (length (nodes d))) p (nodes d)) = length (nodes d))
    as Hlen by apply length_alter.
  assert (nodes d2 !! length (nodes d) = Some E) as HE.
  { unfold d2. simpl. rewrite <- Hlen at 1. by apply list_lookup_middle. }
  assert (insertion_point d2 (length (nodes d))) as Hi2.
  { split; [| by rewrite HE]. unfold d2. simpl. by rewrite list_lookup_middle. }
  pose proof (text_spec be [s] d2 (length (nodes d)) Hi2) as Ht.
  change (VStr <$> [s]) with [VStr s] in Ht. rewrite Ht.
  assert ([s] ≫= text_nodes (_nl2br d2) = text_nodes (_nl2br d) s) as ->.
  { change ([s] ≫= text_nodes (_nl2br d2)) with (text_nodes (_nl2br d) s ++ []).
    by rewrite app_nil_r. }
  set (texts := text_nodes (_nl2br d) s).
  set (d3 := append_nodes _ _ _).
  assert (length (nodes d2) = S (length (nodes d))) as Hl2.
  { unfold d2. simpl. rewrite length_app, Hlen. simpl. lia. }
  assert (nodes d3 !! length (nodes d)
          = Some (Element {| name := tag_name; attrs := ∅;
                             can_be_empty_element := be tag_name;
                             contents := seq (S (length (nodes d))) (length texts) |}))
    as HE3.
  { unfold d3, append_nodes. cbn [nodes set_nodes].
    rewrite lookup_app_l by (rewrite length_alter; lia).
    rewrite list_lookup_alter_eq, HE, Hl2. simpl. f_equal.
    generalize (seq (S (length (nodes d))) (length texts)). intros ids.
    assert (∀ cs, add_children ids
              (Element {| name := tag_name; attrs := ∅;
                          can_be_empty_element := be tag_name; contents := cs |})
            = Element {| name := tag_name; attrs := ∅;
                         can_be_empty_element := be tag_name;
                         contents := cs ++ ids |}) as Hadd.
    { unfold add_children.
      induction ids as [|i ids IH]; intros cs; [by rewrite app_nil_r |].
      change (foldl (λ acc c, add_child c acc)
                (Element {| name := tag_name; attrs := ∅;
                            can_be_empty_element := be tag_name; contents := cs |})
                (i :: ids))
        with (foldl (λ acc c, add_child c acc)
                (Element {| name := tag_name; attrs := ∅;
                            can_be_empty_element := be tag_name;
                            contents := cs ++ [i] |}) ids).
      rewrite IH. by rewrite <- app_assoc. }
    apply Hadd. }
  assert (tags d3 !! length (tags d) = Some T) as HT3.
  { unfold d3, append_nodes, d2. simpl. by apply list_lookup_middle. }
  unfold Tag__exit__. rewrite HT3. cbn [Tag_parent_tag Tag_attrs Tag_bs4_tag T].
  eexists. split; [reflexivity |]. split; [done |].
  set (d4 := if bool_decide (size a = 0) then d3 else _).
  assert (nodes d4 = alter (update_attrs a) (length (nodes d)) (nodes d3)) as Hd4.
  { unfold d4. case_bool_decide as Hsz; [| done].
    apply map_size_empty_inv in Hsz. subst a. symmetry. apply list_alter_id.
    intros [|[]| | |]; simpl; by rewrite ?(left_id_L ∅ (∪)). }
  unfold children_of. cbn [nodes set_current_tag]. rewrite Hd4.
  split; [| split].
  - rewrite list_lookup_alter_ne by lia.
    unfold d3. rewrite append_nodes_lookup_old by lia.
    unfold d2. simpl. rewrite lookup_app_l by (rewrite Hlen; lia).
    rewrite list_lookup_alter_eq.
    destruct Hi as [_ Hc]. destruct (nodes d !! p) as [n|]; [| done]. simpl in *.
    by destruct n.
  - rewrite list_lookup_alter_eq, HE3. simpl. by rewrite (right_id_L ∅ (∪)).
  - apply list_eq. intros i. rewrite lookup_drop.
    rewrite list_lookup_alter_ne by lia.
    rewrite <- Hl2. apply append_nodes_lookup_new.
Qed.

Lemma line_spec_witness :
  ∃ d',
    line no_void "a" (VStr "Who are we?") [] [("href", VStr "/about-us.html")]
      (new_doc false) = (d', Ok tt) ∧
    current_tag d' = DocumentRoot ∧
    nodes d' = [Soup [1];
                Element {| name := "a"; attrs := {["href" := VStr "/about-us.html"]};
                           can_be_empty_element := false; contents := [2] |};
                NavigableString "Who are we?"].
Proof.
  destruct (line_spec no_void "a" "Who are we?" [] [("href", VStr "/about-us.html")]
              {["href" := VStr "/about-us.html"]} (new_doc false) 0 eq_refl
              (new_doc_insertion_point false)) as (d' & H & Hc & _).
  exists d'. split; [exact H |]. split; [exact Hc |].
  vm_compute in H. injection H as <-. reflexivity.
Defined.



(** ** Data attributes *)

Lemma startswith_app (pre s : string) : Py.startswith (pre +:+ s) pre = true.
Proof.
  induction pre as [|c pre IH]; [done |]. str_simpl. cbn [Py.startswith].
  by rewrite Ascii.eqb_refl, IH.
Qed.

Lemma data_items_pairs (sl : list value → string) (args xs : list value) :
  data_items sl args = Ok xs →
  ∃ lst, attribute_pairs xs = Ok lst ∧
         Forall (λ kv, Py.startswith kv.1 "data-" = true) lst.
Proof.
  revert xs. induction args as [|arg args IH]; intros xs; simpl.
  - intros [= <-]. by exists [].
  - unfold data_item. destruct (unpack_pair arg) as [[key v]|]; [| done].
    destruct (format_s sl key) as [s|]; [| done].
    destruct (data_items sl args) as [xs'|]; [| done]. intros [= <-].
    destruct (IH xs' eq_refl) as (lst & Hl & HF).
    exists (("data-" +:+ s, v) :: lst). split; [simpl; by rewrite Hl |].
    constructor; [exact (startswith_app "data-" s) | done].
Qed.

Lemma data_items_raise (sl : list value → string) (args : list value) (e : exn) :
  data_items sl args = Raise e → e = ValueError ∨ e = TypeError.
Proof.
  induction args as [|arg args IH]; simpl; [done |].
  unfold data_item.
  destruct (unpack_pair arg) as [[key v]|e1] eqn:Hu.
  - destruct (format_s sl key) as [s|e2] eqn:Hf.
    + destruct (data_items sl args) as [xs'|e3]; [done |]. intros [= <-]. by apply IH.
    + intros [= <-].
      destruct key as [|[]|z|r|s|k x|l|ba b]; simpl in Hf; try (right; congruence).
      * destruct (int_too_long z); [left; congruence | congruence].
      * destruct (existsb repr_too_long l); [left; congruence | congruence].
  - intros [= <-].
    destruct arg as [| | | |s| |l|ba b]; simpl in Hu; try (right; congruence).
    + destruct s as [|a [|b [|c s]]]; simpl in Hu; try done; left; congruence.
    + destruct l as [|a [|b [|c l]]]; simpl in Hu; try done; left; congruence.
    + destruct b as [|a [|b [|c l]]]; simpl in Hu; try done; left; congruence.
Qed.

Lemma data_kwargs_rename (kwargs : list (string * value)) :
  rename_klass <$> data_kwargs kwargs = data_kwargs kwargs.
Proof.
  unfold data_kwargs. induction kwargs as [|[k v] kw IH]; [done |].
  rewrite !fmap_cons, IH. f_equal.
Qed.

Lemma dict_update_last_wins (l : list (string * value)) (k : string) (v : value) :
  NoDup l.*1 → (k, v) ∈ l → ∀ m, dict_update m l !! k = Some v.
Proof.
  induction l as [|[k' v'] l IH]; intros Hnd Hin m; [by apply elem_of_nil in Hin |].
  rewrite dict_update_cons. simpl in Hnd. apply NoDup_cons in Hnd as [Hk' Hnd].
  apply elem_of_cons in Hin as [[= <- <-] | Hin]; [| by apply IH].
  simpl. rewrite dict_update_lookup_notin by done. by rewrite lookup_insert_eq.
Qed.

Lemma dict_update_lookup_other (l : list (string * value)) (k : string)
    (m : gmap string value) :
  Forall (λ kv, kv.1 ≠ k) l → dict_update m l !! k = m !! k.
Proof.
  revert m. induction l as [|[k' v'] l IH]; intros m HF; [done |].
  apply Forall_cons in HF as [Hk HF]. rewrite dict_update_cons, IH by done.
  simpl in *. by rewrite lookup_insert_ne.
Qed.

(** X20.  [data] changes attributes whose name begins with [data-] and
    nothing else: the tree and the current tag stay, and on every [Tag]
    object each attribute of another name, [class] among them, is as
    before, whatever the arguments are and whether the call returns or
    raises.  When it returns, each keyword [k] of the call is on the current
    [Tag] object under the name [data-k] with the value given; the keyword
    [klass] is there as [data-klass]. *)
Theorem data_sets_only_data_attributes (sl : list value → string) (args : list value)
    (kwargs : list (string * value)) (d d' : SimpleDoc) (r : outcome unit) :
  data sl args kwargs d = (d', r) →
  nodes d' = nodes d ∧ current_tag d' = current_tag d ∧
  ∀ t T, tags d !! t = Some T →
    ∃ T', tags d' !! t = Some T' ∧
      (∀ k, Py.startswith k "data-" = false → Tag_attrs T' !! k = Tag_attrs T !! k) ∧
      (r = Ok tt → current_tag d = TagRef t → NoDup kwargs.*1 →
       ∀ k v, (k, v) ∈ kwargs → Tag_attrs T' !! ("data-" +:+ k) = Some v).
Proof.
  unfold data, bind, lift.
  destruct (data_items sl args) as [xs|e] eqn:Hx.
  2:{ intros [= <- <-]. do 2 (split; [done |]). intros t T HT. exists T.
      split; [done |]. split; [done |]. done. }
  destruct (data_items_pairs sl args xs Hx) as (lst & Hl & HF).
  unfold attr. destruct (current_tag d) as [|c] eqn:Hc.
  { intros [= <- <-]. do 2 (split; [done |]). intros t T HT. exists T.
    split; [done |]. split; [done |]. done. }
  unfold _attributes. rewrite Hl, data_kwargs_rename.
  intros [= <- <-]. do 2 (split; [done |]). intros t T HT. cbn [tags set_tags].
  destruct (decide (c = t)) as [-> | Hne].
  2:{ exists T. rewrite list_lookup_alter_ne by done. split; [done |].
      split; [done |]. intros _ [= ?]. done. }
  eexists. split; [by rewrite list_lookup_alter_eq, HT |].
  cbn [Tag_attrs set_Tag_attrs]. split.
  - intros k Hk. rewrite lookup_union_r; [done |].
    assert (Forall (λ kv : string * value, kv.1 ≠ k) lst) as H1.
    { eapply Forall_impl; [exact HF |]. intros [k' v'] Hs Heq. simpl in *.
      subst k'. congruence. }
    assert (Forall (λ kv : string * value, kv.1 ≠ k) (data_kwargs kwargs)) as H2.
    { unfold data_kwargs. apply Forall_fmap, Forall_forall. intros [k' v'] _ Heq.
      simpl in Heq. subst k. by rewrite startswith_app in Hk. }
    by rewrite !dict_update_lookup_other.
  - intros _ _ Hnd k v Hin.
    apply lookup_union_Some_l. apply dict_update_last_wins.
    + unfold data_kwargs. rewrite <- list_fmap_compose.
      assert ((fst ∘ (λ kv : string * value, ("data-" +:+ kv.1, kv.2)) <$> kwargs)
              = (String.append "data-") <$> kwargs.*1) as ->.
      { by rewrite <- list_fmap_compose. }
      apply NoDup_fmap_2; [| done]. intros x y Hxy. by simplify_eq.
    + unfold data_kwargs. apply list_elem_of_fmap. by exists (k, v).
Qed.

Lemma data_sets_only_data_attributes_witness :
  ∃ d' T',
    run no_void by_elements (parses_to 0) [With "h1" [] [("klass", VStr "title")] []] (new_doc false)
    = (d', Ok tt) ∧
    ∃ d'', data (λ _, "") [] [("klass", VStr "x")] (set_current_tag (TagRef 0) d')
           = (d'', Ok tt) ∧
    tags d'' !! 0 = Some T' ∧
    Tag_attrs T' !! "class" = Some (VStr "title") ∧
    Tag_attrs T' !! "data-klass" = Some (VStr "x").
Proof.
  eexists _, _. split; [reflexivity |]. eexists. split; [reflexivity |].
  edestruct (data_sets_only_data_attributes (λ _, "") [] [("klass", VStr "x")]
               (set_current_tag (TagRef 0)
                  (run no_void by_elements (parses_to 0) [With "h1" [] [("klass", VStr "title")] []]
                     (new_doc false)).1) _ (Ok tt) eq_refl)
    as (_ & _ & H).
  destruct (H 0 _ eq_refl) as (T' & HT' & Hother & Hkw).
  vm_compute in HT'. injection HT' as <-.
  split; [reflexivity |]. split; [reflexivity |].
  apply (Hkw eq_refl eq_refl); [| constructor].
  apply NoDup_cons. split; [apply not_elem_of_nil | apply NoDup_nil_2].
Defined.

(** X21.  [data] unpacks every positional argument into a name and a
    value before anything else: a string that is not two characters long,
    the [attr] way of giving an attribute without value, makes it raise
    [ValueError] or [TypeError] and change nothing, even at the document
    root, where [attr] would raise [DocumentRootError]. *)
Theorem data_rejects_bare_names (sl : list value → string) (args : list value)
    (kwargs : list (string * value)) (s : string) (d : SimpleDoc) :
  VStr s ∈ args → String.length s ≠ 2 →
  ∃ e, data sl args kwargs d = (d, Raise e) ∧ (e = ValueError ∨ e = TypeError).
Proof.
  intros Hin Hlen.
  assert (∃ e, data_items sl args = Raise e) as [e He].
  { induction args as [|arg args IH]; [by apply elem_of_nil in Hin |]. simpl.
    apply elem_of_cons in Hin as [<- | Hin].
    - unfold data_item.
      destruct s as [|a [|b [|c s]]]; simpl in *; try done; by eauto.
    - destruct (data_item sl arg); [| by eauto].
      destruct (IH Hin) as [e ->]. by eauto. }
  exists e. split; [| by eapply data_items_raise].
  unfold data, bind, lift. by rewrite He.
Qed.

Lemma data_rejects_bare_names_witness :
  data (λ _, "") [VPair "search" (VStr "lemon"); VStr "hidden"] [] (new_doc false)
  = (new_doc false, Raise ValueError).
Proof.
  destruct (data_rejects_bare_names (λ _, "")
              [VPair "search" (VStr "lemon"); VStr "hidden"] [] "hidden" (new_doc false))
    as (e & H & _).
  - apply elem_of_cons. right. constructor.
  - simpl. lia.
  - vm_compute in H. injection H as <-. reflexivity.
Defined.

(** * The [klass] alias on the element *)




























